(** * Drupal-Scripts: the Go installer [main.go], embedded in Rocq

    The installer is a sequential script: it prompts on the terminal,
    looks tools up on the search path, runs external commands, edits one
    settings file and prints coloured status lines.  The embedding keeps
    that shape:

    - Go strings are byte strings ([string], one [ascii] per byte);
    - the Go library functions the program calls ([strings.TrimSpace],
      [strings.ToLower], [strings.ReplaceAll], [filepath.Join],
      [json.Unmarshal]) are modelled in the modules [utf8], [unicode],
      [strings], [filepath] and [json] below;
    - the machine the program runs on is a [Platform]: an oracle for the
      search path and for external processes, over a concrete file tree;
    - every Go function of [main.go] is a computation [IO A] that threads
      the [World] (terminal input, machine, printed lines, system calls
      made) and ends by returning, by [os.Exit] or by a run-time panic. *)

From Stdlib Require Import ZArith Ascii String List Lia Bool.
From stdpp Require Import base option strings gmap.

Set Warnings "-register-all".

Local Open Scope string_scope.
Local Open Scope Z_scope.

(** ** Bytes *)

(** The numeric value of a byte, [0 <= byte c < 256]. *)
Definition byte (c : ascii) : Z := Z.of_N (N_of_ascii c).

(** Go's conversion [byte(x)]: the low eight bits. *)
Definition chr (z : Z) : ascii := ascii_of_N (Z.to_N (z mod 256)).

Definition bytes (s : string) : list ascii := list_ascii_of_string s.
Definition of_bytes (l : list ascii) : string := string_of_list_ascii l.

(** [s[lo:hi]] for [lo <= hi <= len(s)]. *)
Definition slice (s : string) (lo hi : nat) : string :=
  String.substring lo (hi - lo) s.

(** [s[lo:]]. *)
Fixpoint slice_from (s : string) (lo : nat) : string :=
  match lo, s with
  | O, _ => s
  | S n, String _ t => slice_from t n
  | S _, EmptyString => EmptyString
  end.

(** [s[i]], the byte at index [i] (0 outside the string, where Go panics;
    every use below is guarded by a bounds test). *)
Definition byte_at (s : string) (i : nat) : Z :=
  match String.get i s with
  | Some c => byte c
  | None => 0
  end.

(** ** Package [unicode/utf8] *)
Module utf8.

Definition RuneError : Z := 65533.   (* U+FFFD *)
Definition RuneSelf : Z := 128.
Definition MaxRune : Z := 1114111.   (* U+10FFFF *)

(** A continuation byte, [0x80 .. 0xBF]. *)
Definition cont (b : Z) : bool := (128 <=? b) && (b <=? 191).

Definition between (lo hi b : Z) : bool := (lo <=? b) && (b <=? hi).

(** The range the second byte must lie in, by first byte (the table
    [acceptRanges]). *)
Definition second_ok (b0 b1 : Z) : bool :=
  if b0 =? 224 then between 160 191 b1            (* E0: A0..BF *)
  else if b0 =? 237 then between 128 159 b1       (* ED: 80..9F *)
  else if b0 =? 240 then between 144 191 b1       (* F0: 90..BF *)
  else if b0 =? 244 then between 128 143 b1       (* F4: 80..8F *)
  else cont b1.

(** [utf8.DecodeRuneInString]: the first rune of [s] and its width in
    bytes; [(RuneError, 0)] on the empty string and [(RuneError, 1)] on
    an encoding that is invalid, incomplete, over-long, a surrogate or
    out of range. *)
Definition DecodeRuneInString (s : string) : Z * nat :=
  match s with
  | EmptyString => (RuneError, O)
  | String c0 t =>
    let b0 := byte c0 in
    if b0 <? RuneSelf then (b0, 1%nat)
    else if between 194 223 b0 then                       (* C2..DF *)
      match t with
      | String c1 _ =>
        if second_ok b0 (byte c1)
        then (Z.lor (Z.shiftl (Z.land b0 31) 6) (Z.land (byte c1) 63), 2%nat)
        else (RuneError, 1%nat)
      | _ => (RuneError, 1%nat)
      end
    else if between 224 239 b0 then                       (* E0..EF *)
      match t with
      | String c1 (String c2 _) =>
        if second_ok b0 (byte c1) && cont (byte c2)
        then (Z.lor (Z.lor (Z.shiftl (Z.land b0 15) 12)
                           (Z.shiftl (Z.land (byte c1) 63) 6))
                    (Z.land (byte c2) 63), 3%nat)
        else (RuneError, 1%nat)
      | _ => (RuneError, 1%nat)
      end
    else if between 240 244 b0 then                       (* F0..F4 *)
      match t with
      | String c1 (String c2 (String c3 _)) =>
        if second_ok b0 (byte c1) && cont (byte c2) && cont (byte c3)
        then (Z.lor (Z.lor (Z.lor (Z.shiftl (Z.land b0 7) 18)
                                  (Z.shiftl (Z.land (byte c1) 63) 12))
                           (Z.shiftl (Z.land (byte c2) 63) 6))
                    (Z.land (byte c3) 63), 4%nat)
        else (RuneError, 1%nat)
      | _ => (RuneError, 1%nat)
      end
    else (RuneError, 1%nat)
  end.

(** [utf8.RuneStart]: not a continuation byte. *)
Definition RuneStart (b : Z) : bool := negb (Z.land b 192 =? 128).

(** How far [DecodeLastRuneInString] backs up from the last byte:
    [before] holds the bytes in front of the last one, nearest first.
    The loop inspects at most three of them, stops at the first rune
    start, and otherwise ends one byte further (or at index 0). *)
Definition back_up (before : list ascii) : nat :=
  match before with
  | [] => 0
  | b1 :: r1 =>
    if RuneStart (byte b1) then 1 else
    match r1 with
    | [] => 1
    | b2 :: r2 =>
      if RuneStart (byte b2) then 2 else
      match r2 with
      | [] => 2
      | b3 :: r3 =>
        if RuneStart (byte b3) then 3 else
        match r3 with
        | [] => 3
        | _ :: _ => 4
        end
      end
    end
  end%nat.

(** [utf8.DecodeLastRuneInString], on the reversed bytes of the string. *)
Definition DecodeLastRune_rev (rs : list ascii) : Z * nat :=
  match rs with
  | [] => (RuneError, O)
  | c :: before =>
    if byte c <? RuneSelf then (byte c, 1%nat)
    else
      let k := back_up before in
      let cand := of_bytes (rev (c :: firstn k before)) in
      let '(r, size) := DecodeRuneInString cand in
      if Nat.eqb size (S k) then (r, size) else (RuneError, 1%nat)
  end.

Definition DecodeLastRuneInString (s : string) : Z * nat :=
  DecodeLastRune_rev (rev (bytes s)).

(** [utf8.EncodeRune] / [AppendRune]: the UTF-8 bytes of [r]; a rune
    that is negative, above [MaxRune] or a surrogate is encoded as
    [RuneError]. *)
Definition encode3 (r : Z) : string :=
  String (chr (Z.lor 224 (Z.shiftr r 12)))
    (String (chr (Z.lor 128 (Z.land (Z.shiftr r 6) 63)))
      (String (chr (Z.lor 128 (Z.land r 63))) EmptyString)).

Definition EncodeRune (r : Z) : string :=
  if (0 <=? r) && (r <=? 127) then String (chr r) EmptyString
  else if (0 <=? r) && (r <=? 2047) then
    String (chr (Z.lor 192 (Z.shiftr r 6)))
      (String (chr (Z.lor 128 (Z.land r 63))) EmptyString)
  else if (r <? 0) || (MaxRune <? r) || between 55296 57343 r then
    encode3 RuneError
  else if r <=? 65535 then encode3 r
  else
    String (chr (Z.lor 240 (Z.shiftr r 18)))
      (String (chr (Z.lor 128 (Z.land (Z.shiftr r 12) 63)))
        (String (chr (Z.lor 128 (Z.land (Z.shiftr r 6) 63)))
          (String (chr (Z.lor 128 (Z.land r 63))) EmptyString))).

(** [utf8.RuneLen]: the number of bytes [EncodeRune] writes for a valid
    rune, -1 for an invalid one. *)
Definition RuneLen (r : Z) : Z :=
  if r <? 0 then -1
  else if r <=? 127 then 1
  else if r <=? 2047 then 2
  else if between 55296 57343 r then -1
  else if r <=? 65535 then 3
  else if r <=? MaxRune then 4
  else -1.

End utf8.

(** ** Package [unicode] *)
Module unicode.

(** [unicode.IsSpace]: the Latin-1 spaces, and beyond Latin-1 the code
    points of the White_Space property. *)
Definition IsSpace (r : Z) : bool :=
  if (0 <=? r) && (r <=? 255) then
    (r =? 9) || (r =? 10) || (r =? 11) || (r =? 12) || (r =? 13)
    || (r =? 32) || (r =? 133) || (r =? 160)
  else
    (r =? 5760) || utf8.between 8192 8202 r || (r =? 8232) || (r =? 8233)
    || (r =? 8239) || (r =? 8287) || (r =? 12288).

(** [unicode.ToLower]: ASCII is lowered in place; every other rune goes
    through the Unicode case table [lower], which is data of the Go
    distribution and a parameter here. *)
Definition ToLower (lower : Z -> Z) (r : Z) : Z :=
  if r <=? 127 then
    if (65 <=? r) && (r <=? 90) then r + 32 else r
  else lower r.

End unicode.

(** ** Package [strings] *)
Module strings.

(** The table [asciiSpace]. *)
Definition asciiSpace (b : Z) : bool :=
  (b =? 9) || (b =? 10) || (b =? 11) || (b =? 12) || (b =? 13) || (b =? 32).

(** The bytes of the current rune still to pass: copied to the result
    ([Keep]) or left out ([Drop]). *)
Inductive passing := Keep (k : nat) | Drop (k : nat).

(** The two loops of [strings.Map] over the runes of [s] (an invalid
    byte reads as [RuneError] of width 1).  Until a rune changes
    ([changed = false]) the bytes of [s] are copied as they are; a rune
    counts as unchanged when its image is the rune itself and it was not
    read from an invalid byte.  The first changed rune and every rune
    after it are written as the encoding of their image, runes with a
    negative image being dropped.  The recursion is on the string
    itself, [p] counting the bytes of the current rune still to pass. *)
Fixpoint Map_go (mapping : Z -> Z) (changed : bool) (p : passing) (s : string)
  : string :=
  match s with
  | EmptyString => EmptyString
  | String b t =>
    match p with
    | Keep (S k) => String b (Map_go mapping changed (Keep k) t)
    | Drop (S k) => Map_go mapping changed (Drop k) t
    | Keep O | Drop O =>
      let '(c, size) := utf8.DecodeRuneInString s in
      let r := mapping c in
      let image := if 0 <=? r then utf8.EncodeRune r else EmptyString in
      if changed then
        image +:+ Map_go mapping true (Drop (size - 1)) t
      else if (r =? c) && negb ((c =? utf8.RuneError) && Nat.eqb size 1) then
        String b (Map_go mapping false (Keep (size - 1)) t)
      else
        let width :=
          if c =? utf8.RuneError then size else Z.to_nat (utf8.RuneLen c) in
        image +:+ Map_go mapping true (Drop (width - 1)) t
    end
  end.

(** [strings.Map]. *)
Definition Map (mapping : Z -> Z) (s : string) : string :=
  Map_go mapping false (Keep 0) s.

Definition isASCII (s : string) : bool :=
  forallb (fun c => byte c <? utf8.RuneSelf) (bytes s).

Definition lower_byte (c : ascii) : ascii :=
  if (65 <=? byte c) && (byte c <=? 90) then chr (byte c + 32) else c.

(** [strings.ToLower]: the ASCII-only path lowers byte by byte, any
    other string is mapped rune by rune. *)
Definition ToLower (lower : Z -> Z) (s : string) : string :=
  if isASCII s then of_bytes (map lower_byte (bytes s))
  else Map (unicode.ToLower lower) s.

(** [indexFunc(s, f, false)]: what remains of [s] from the first rune
    that does not satisfy [f]; [None] when every rune does. *)
Fixpoint TrimLeft_go (f : Z -> bool) (skip : nat) (s : string) : option string :=
  match s with
  | EmptyString => None
  | String _ t =>
    match skip with
    | S k => TrimLeft_go f k t
    | O =>
      let '(r, width) := utf8.DecodeRuneInString s in
      if f r then TrimLeft_go f (width - 1) t else Some s
    end
  end.

(** [strings.TrimLeftFunc]. *)
Definition TrimLeftFunc (s : string) (f : Z -> bool) : string :=
  match TrimLeft_go f 0 s with
  | Some rest => rest
  | None => EmptyString
  end.

(** [lastIndexFunc(s, f, false)] on the reversed bytes of [s]: the
    index at which the last rune not satisfying [f] starts. *)
Fixpoint lastIndex_go (f : Z -> bool) (skip : nat) (rs : list ascii) : option nat :=
  match rs with
  | [] => None
  | _ :: rs' =>
    match skip with
    | S k => lastIndex_go f k rs'
    | O =>
      let '(r, size) := utf8.DecodeLastRune_rev rs in
      if f r then lastIndex_go f (size - 1) rs'
      else Some (length rs - size)%nat
    end
  end.

(** [strings.TrimRightFunc]. *)
Definition TrimRightFunc (s : string) (f : Z -> bool) : string :=
  match lastIndex_go f 0 (rev (bytes s)) with
  | Some i =>
    if utf8.RuneSelf <=? byte_at s i
    then slice s 0 (i + snd (utf8.DecodeRuneInString (slice_from s i)))
    else slice s 0 (i + 1)
  | None => EmptyString           (* i = -1, then i++ : s[0:0] *)
  end.

(** [strings.TrimFunc]. *)
Definition TrimFunc (s : string) (f : Z -> bool) : string :=
  TrimRightFunc (TrimLeftFunc s f) f.

(** The two loops of [strings.TrimSpace].  Each stops at the first
    ASCII byte that is no space ([Stop]) or at the first byte that is
    not ASCII ([Slow]: the Unicode-aware functions take over). *)
Inductive scan := Stop (rest : list ascii) | Slow (rest : list ascii).

Fixpoint skip_spaces (l : list ascii) : scan :=
  match l with
  | [] => Stop []
  | c :: t =>
    if utf8.RuneSelf <=? byte c then Slow l
    else if asciiSpace (byte c) then skip_spaces t
    else Stop l
  end.

(** [strings.TrimSpace]. *)
Definition TrimSpace (s : string) : string :=
  match skip_spaces (bytes s) with
  | Slow rest => TrimFunc (of_bytes rest) unicode.IsSpace
  | Stop rest =>                                    (* s[start:] *)
    match skip_spaces (rev rest) with
    | Slow rrest => TrimRightFunc (of_bytes (rev rrest)) unicode.IsSpace
    | Stop rrest => of_bytes (rev rrest)            (* s[start:stop] *)
    end
  end.

(** [strings.HasPrefix]. *)
Fixpoint HasPrefix (s prefix : string) {struct prefix} : bool :=
  match prefix, s with
  | EmptyString, _ => true
  | String p pt, String c t => if Ascii.eqb p c then HasPrefix t pt else false
  | String _ _, EmptyString => false
  end.

(** The replacement loop for a non-empty [old]: leftmost occurrences
    first, the scan resuming after each replaced occurrence. *)
Fixpoint Replace_go (old new : string) (skip : nat) (s : string) : string :=
  match s with
  | EmptyString => EmptyString
  | String c t =>
    match skip with
    | S k => Replace_go old new k t
    | O =>
      if HasPrefix s old
      then new +:+ Replace_go old new (String.length old - 1) t
      else String c (Replace_go old new 0 t)
    end
  end.

(** The replacement loop for an empty [old]: [new] goes in front of
    every rune and after the last one. *)
Fixpoint Intersperse_go (new : string) (skip : nat) (s : string) : string :=
  match s with
  | EmptyString => new
  | String c t =>
    match skip with
    | S k => String c (Intersperse_go new k t)
    | O =>
      new +:+ String c
        (Intersperse_go new (snd (utf8.DecodeRuneInString s) - 1) t)
    end
  end.

(** [strings.ReplaceAll(s, old, new)] = [Replace(s, old, new, -1)]. *)
Definition ReplaceAll (s old new : string) : string :=
  if String.eqb old new then s
  else match old with
       | EmptyString => Intersperse_go new 0 s
       | String _ _ => Replace_go old new 0 s
       end.

(** [strings.Join]. *)
Fixpoint Join (elems : list string) (sep : string) : string :=
  match elems with
  | [] => EmptyString
  | [e] => e
  | e :: rest => e +:+ sep +:+ Join rest sep
  end.

End strings.

(** ** Package [path/filepath] (Unix: the separator is [/]) *)
Module filepath.

Definition slash : ascii := chr 47.

(** The elements of [s] between separators, empty ones included. *)
Fixpoint split_go (l cur : list ascii) : list string :=
  match l with
  | [] => [of_bytes (rev cur)]
  | c :: t =>
    if Ascii.eqb c slash then of_bytes (rev cur) :: split_go t []
    else split_go t (c :: cur)
  end.

Definition split (s : string) : list string := split_go (bytes s) [].

(** One element of the path against the elements kept so far (last
    kept first): empty and [.] elements vanish, [..] removes the
    element before it, is kept in front of a relative path and is
    dropped at the root. *)
Definition clean_step (rooted : bool) (kept : list string) (e : string)
  : list string :=
  if String.eqb e "" || String.eqb e "." then kept
  else if String.eqb e ".." then
    match kept with
    | top :: below =>
      if String.eqb top ".." then e :: kept else below
    | [] => if rooted then [] else [e]
    end
  else e :: kept.

(** [filepath.Clean]. *)
Definition Clean (path : string) : string :=
  match path with
  | EmptyString => "."
  | String c _ =>
    let rooted := Ascii.eqb c slash in
    let kept := rev (fold_left (clean_step rooted) (split path) []) in
    let out := (if rooted then "/" else "") +:+ strings.Join kept "/" in
    if String.eqb out "" then "." else out
  end.

(** [filepath.Join]: leading empty elements are ignored, the rest is
    joined with separators and cleaned. *)
Fixpoint Join (elem : list string) : string :=
  match elem with
  | [] => EmptyString
  | e :: rest =>
    if String.eqb e "" then Join rest
    else Clean (strings.Join elem "/")
  end.

End filepath.

(** ** Package [encoding/json] *)
Module json.

(** What [json.Unmarshal] stores in an [interface{}]: [nil], [bool],
    [float64] (kept here as the literal it was read from), [string],
    [[]interface{}] and [map[string]interface{}]. *)
Inductive value :=
| Null
| Bool (b : bool)
| Number (literal : string)
| Str (s : string)
| Array (elems : list value)
| Object (fields : gmap string value).

Inductive token :=
| TLBrace | TRBrace | TLBrack | TRBrack | TColon | TComma
| TString (raw : list ascii)        (* the bytes between the quotes *)
| TWord (w : list ascii).           (* a number or a literal name *)

Definition is_space (c : ascii) : bool :=
  let b := byte c in (b =? 32) || (b =? 9) || (b =? 13) || (b =? 10).

Definition punct (c : ascii) : option token :=
  let b := byte c in
  if b =? 123 then Some TLBrace else if b =? 125 then Some TRBrace
  else if b =? 91 then Some TLBrack else if b =? 93 then Some TRBrack
  else if b =? 58 then Some TColon else if b =? 44 then Some TComma
  else None.

Definition is_punct (c : ascii) : bool :=
  match punct c with Some _ => true | None => false end.

Inductive lex_state :=
| LOut                                        (* between tokens *)
| LWord (w : list ascii)                      (* in a word, bytes reversed *)
| LString (raw : list ascii) (esc : bool).    (* in a string, after a backslash *)

(** A byte met outside strings and words. *)
Definition lex_out (c : ascii) : lex_state * list token :=
  if is_space c then (LOut, [])
  else match punct c with
       | Some t => (LOut, [t])
       | None => if byte c =? 34 then (LString [] false, [])
                 else (LWord [c], [])
       end.

(** The scanner, byte by byte; [None] is a syntax error. *)
Fixpoint lex (st : lex_state) (l : list ascii) : option (list token) :=
  match l with
  | [] =>
    match st with
    | LOut => Some []
    | LWord w => Some [TWord (rev w)]
    | LString _ _ => None                      (* unexpected end of input *)
    end
  | c :: t =>
    match st with
    | LOut =>
      let '(st', out) := lex_out c in
      option_map (app out) (lex st' t)
    | LWord w =>
      if is_space c || is_punct c || (byte c =? 34) then
        let '(st', out) := lex_out c in
        option_map (fun r => TWord (rev w) :: (out ++ r)%list) (lex st' t)
      else lex (LWord (c :: w)) t
    | LString raw true => lex (LString (c :: raw) false) t
    | LString raw false =>
      if byte c =? 34 then option_map (cons (TString (rev raw))) (lex LOut t)
      else if byte c =? 92 then lex (LString (c :: raw) true) t
      else if byte c <? 32 then None           (* control character *)
      else lex (LString (c :: raw) false) t
    end
  end.

Definition hex_val (c : ascii) : option Z :=
  let b := byte c in
  if utf8.between 48 57 b then Some (b - 48)
  else if utf8.between 97 102 b then Some (b - 87)
  else if utf8.between 65 70 b then Some (b - 55)
  else None.

(** [getu4]: the code unit written by a leading [\uXXXX], or -1. *)
Definition getu4 (l : list ascii) : Z :=
  match l with
  | bs :: u :: h1 :: h2 :: h3 :: h4 :: _ =>
    if (byte bs =? 92) && (byte u =? 117) then
      match hex_val h1, hex_val h2, hex_val h3, hex_val h4 with
      | Some a, Some b, Some c, Some d => ((a * 16 + b) * 16 + c) * 16 + d
      | _, _, _, _ => -1
      end
    else -1
  | _ => -1
  end.

(** [utf16.IsSurrogate] and [utf16.DecodeRune]. *)
Definition IsSurrogate (r : Z) : bool := (55296 <=? r) && (r <? 57344).

Definition DecodeRune16 (r1 r2 : Z) : Z :=
  if (55296 <=? r1) && (r1 <? 56320) && (56320 <=? r2) && (r2 <? 57344)
  then Z.lor (Z.shiftl (r1 - 55296) 10) (r2 - 56320) + 65536
  else utf8.RuneError.

(** The character a one-letter escape stands for. *)
Definition simple_escape (e : ascii) : option ascii :=
  let b := byte e in
  if (b =? 34) || (b =? 92) || (b =? 47) then Some e
  else if b =? 98 then Some (chr 8)
  else if b =? 102 then Some (chr 12)
  else if b =? 110 then Some (chr 10)
  else if b =? 114 then Some (chr 13)
  else if b =? 116 then Some (chr 9)
  else None.

(** [unquote]: the string a literal denotes.  Escapes are decoded, a
    surrogate pair becomes one rune, a lone surrogate and every invalid
    UTF-8 byte become U+FFFD.  [skip] counts the bytes of the current
    escape or rune still to pass. *)
Fixpoint unquote_go (skip : nat) (l : list ascii) : option string :=
  match l with
  | [] => Some EmptyString
  | c :: t =>
    match skip with
    | S k => unquote_go k t
    | O =>
      let b := byte c in
      if b =? 92 then
        match t with
        | [] => None
        | e :: _ =>
          match simple_escape e with
          | Some d => option_map (String d) (unquote_go 1 t)
          | None =>
            if byte e =? 117 then
              let rr := getu4 l in
              if rr <? 0 then None
              else if IsSurrogate rr then
                let dec := DecodeRune16 rr (getu4 (skipn 6 l)) in
                if dec =? utf8.RuneError
                then option_map (String.append (utf8.EncodeRune utf8.RuneError))
                                (unquote_go 5 t)
                else option_map (String.append (utf8.EncodeRune dec))
                                (unquote_go 11 t)
              else option_map (String.append (utf8.EncodeRune rr))
                              (unquote_go 5 t)
            else None
          end
        end
      else if (b =? 34) || (b <? 32) then None
      else if b <? utf8.RuneSelf then option_map (String c) (unquote_go 0 t)
      else
        let '(rr, size) := utf8.DecodeRuneInString (of_bytes l) in
        option_map (String.append (utf8.EncodeRune rr))
                   (unquote_go (size - 1) t)
    end
  end.

Definition unquote (raw : list ascii) : option string := unquote_go 0 raw.

(** The number grammar: an optional minus sign; then 0, or a digit
    from 1 to 9 followed by any digits; then optionally a dot and one
    or more digits; then optionally e or E, an optional sign and one
    or more digits. *)
Definition is_digit (c : ascii) : bool := utf8.between 48 57 (byte c).

Fixpoint drop_digits (l : list ascii) : list ascii :=
  match l with
  | c :: t => if is_digit c then drop_digits t else l
  | [] => []
  end.

Definition digits1 (l : list ascii) : option (list ascii) :=
  match l with
  | c :: t => if is_digit c then Some (drop_digits t) else None
  | [] => None
  end.

Definition after_int (l : list ascii) : option (list ascii) :=
  match l with
  | c :: t =>
    if byte c =? 48 then Some t
    else if utf8.between 49 57 (byte c) then Some (drop_digits t)
    else None
  | [] => None
  end.

Definition after_frac (l : list ascii) : option (list ascii) :=
  match l with
  | c :: t => if byte c =? 46 then digits1 t else Some l
  | [] => Some l
  end.

Definition exp_ok (l : list ascii) : bool :=
  match l with
  | [] => true
  | c :: t =>
    if (byte c =? 101) || (byte c =? 69) then
      let t' := match t with
                | sg :: t2 => if (byte sg =? 43) || (byte sg =? 45) then t2 else t
                | [] => t
                end in
      match digits1 t' with
      | Some [] => true
      | _ => false
      end
    else false
  end.

Definition valid_number (l : list ascii) : bool :=
  let l0 := match l with
            | c :: t => if byte c =? 45 then t else l
            | [] => l
            end in
  match after_int l0 with
  | None => false
  | Some l1 =>
    match after_frac l1 with
    | None => false
    | Some l2 => exp_ok l2
    end
  end.

Definition word_value (w : list ascii) : option value :=
  let s := of_bytes w in
  if String.eqb s "true" then Some (Bool true)
  else if String.eqb s "false" then Some (Bool false)
  else if String.eqb s "null" then Some Null
  else if valid_number w then Some (Number s)
  else None.

(** The parse stack: one frame per array or object still open. *)
Inductive frame :=
| FArray (acc : list value)                                   (* elements read, last first *)
| FObject (fields : gmap string value) (key : option string). (* a key waiting for its value *)

(** What the parser expects next. *)
Inductive mode :=
| MValue          (* a value *)
| MValueOrEnd     (* after [[]: a value or []] *)
| MKeyOrEnd       (* after [{]: a key or [}] *)
| MKey            (* after [,] in an object: a key *)
| MColon          (* after a key *)
| MNext           (* after a value inside an array or object *)
| MDone (v : value).

Definition maxNestingDepth : Z := 10000.

(** A finished value goes to the innermost open array or object; a
    later value under the same key replaces the earlier one. *)
Definition deliver (v : value) (stack : list frame) : option (mode * list frame) :=
  match stack with
  | [] => Some (MDone v, [])
  | FArray acc :: below => Some (MNext, FArray (v :: acc) :: below)
  | FObject m (Some k) :: below => Some (MNext, FObject (<[k:=v]> m) None :: below)
  | FObject _ None :: _ => None
  end.

Definition open (f : frame) (m : mode) (stack : list frame)
  : option (mode * list frame) :=
  if maxNestingDepth <? Z.of_nat (length (f :: stack)) then None
  else Some (m, f :: stack).

Definition step (st : mode * list frame) (t : token) : option (mode * list frame) :=
  let '(m, stack) := st in
  match m, t with
  | (MValue | MValueOrEnd), TLBrack => open (FArray []) MValueOrEnd stack
  | (MValue | MValueOrEnd), TLBrace => open (FObject ∅ None) MKeyOrEnd stack
  | (MValue | MValueOrEnd), TString raw =>
    match unquote raw with
    | Some s => deliver (Str s) stack
    | None => None
    end
  | (MValue | MValueOrEnd), TWord w =>
    match word_value w with
    | Some v => deliver v stack
    | None => None
    end
  | (MValueOrEnd | MNext), TRBrack =>
    match stack with
    | FArray acc :: below => deliver (Array (rev acc)) below
    | _ => None
    end
  | (MKeyOrEnd | MNext), TRBrace =>
    match stack with
    | FObject m None :: below => deliver (Object m) below
    | _ => None
    end
  | (MKeyOrEnd | MKey), TString raw =>
    match stack, unquote raw with
    | FObject m None :: below, Some k => Some (MColon, FObject m (Some k) :: below)
    | _, _ => None
    end
  | MColon, TColon => Some (MValue, stack)
  | MNext, TComma =>
    match stack with
    | FArray _ :: _ => Some (MValue, stack)
    | FObject _ _ :: _ => Some (MKey, stack)
    | [] => None
    end
  | _, _ => None
  end.

Fixpoint run (st : mode * list frame) (ts : list token) : option (mode * list frame) :=
  match ts with
  | [] => Some st
  | t :: rest =>
    match step st t with
    | Some st' => run st' rest
    | None => None
    end
  end.

(** The value a JSON text denotes; [None] on a syntax error. *)
Definition parse (data : string) : option value :=
  match lex LOut (bytes data) with
  | None => None
  | Some ts =>
    match run (MValue, []) ts with
    | Some (MDone v, _) => Some v
    | _ => None
    end
  end.

(** Every number of the text converts to a [float64]: [in_range] is
    [strconv.ParseFloat] succeeding on the literal, which is arithmetic
    of the Go distribution and a parameter here. *)
Definition numbers_ok (in_range : string -> bool) (ts : list token) : bool :=
  forallb (fun t => match t with
                    | TWord w => if valid_number w then in_range (of_bytes w) else true
                    | _ => true
                    end) ts.

(** [json.Unmarshal(data, &result)] for [var result map[string]interface{}]:
    [Some m] when the error is [nil] ([m] is the map left in [result]; a
    top-level [null] leaves it [nil], which reads as the empty map) and
    [None] when the error is not [nil]: a syntax error, a top-level
    value that is no object, or a number out of range. *)
Definition Unmarshal (in_range : string -> bool) (data : string)
  : option (gmap string value) :=
  match lex LOut (bytes data) with
  | None => None
  | Some ts =>
    match run (MValue, []) ts with
    | Some (MDone (Object m), _) => if numbers_ok in_range ts then Some m else None
    | Some (MDone Null, _) => Some ∅
    | _ => None
    end
  end.

End json.

(** ** The machine the installer runs on *)

(** A Go [error] value, as far as the program looks at it: its text, and
    whether [os.IsNotExist] holds of it.  [nil] is [None]. *)
Record error := mkError { err_msg : string; err_not_exist : bool }.

Definition is_nil (e : option error) : bool :=
  match e with None => true | Some _ => false end.

(** [os.IsNotExist(err)]. *)
Definition os_IsNotExist (e : option error) : bool :=
  match e with None => false | Some e => err_not_exist e end.

(** Where the output of a child process goes: to the terminal
    ([cmd.Stdout = os.Stdout; cmd.Stderr = os.Stderr]), nowhere (both left
    [nil], before [cmd.Run]), or back to the program ([cmd.Output],
    [cmd.CombinedOutput]). *)
Inductive capture := Inherit | Discard | Output | CombinedOutput.

(** An [exec.Cmd]: program name, arguments after the name, [Dir] (empty:
    the directory of the installer itself) and the output wiring. *)
Record Cmd := mkCmd {
  cmd_name : string;
  cmd_args : list string;
  cmd_dir : string;
  cmd_out : capture
}.

(** What a finished child hands back: the error of [Run] / [Output]
    ([nil] on exit status 0) and the captured output. *)
Record ProcResult := mkProc { pr_err : option error; pr_out : string }.

(** The calls the program makes into the operating system. *)
Inductive syscall :=
| LookPath (file : string)
| Start (c : Cmd)
| Getwd
| MkdirAll (path : string) (perm : Z)
| ReadFile (path : string)
| WriteFile (path data : string) (perm : Z)
| Stat (path : string).

(** The file tree: path to directory or file. *)
Inductive node := Dir | File (content : string).

Record Machine (E : Type) := mkMachine {
  files : gmap string node;
  ext : E
}.
Arguments mkMachine {E} _ _.
Arguments files {E} _.
Arguments ext {E} _.

(** Everything the program depends on and does not define:
    - [Ext]: the state of the machine beside the file tree (search path,
      Homebrew cellar, running daemons, ...);
    - [on_path]: does [exec.LookPath] find the file;
    - [child]: an external command run to completion, with whatever it
      does to the machine;
    - [cwd]: the working directory of the installer;
    - [refused]: the operating system refusing a call for a reason the
      file tree does not show (permissions, full disk, I/O error);
    - [lower]: the Unicode lower-case table beyond ASCII;
    - [float64_ok]: [strconv.ParseFloat] accepting a JSON number;
    - the two embedded files [config/environment_indicator.*.yml]. *)
Class Platform := {
  Ext : Type;
  on_path : string -> Machine Ext -> bool;
  child : Cmd -> Machine Ext -> ProcResult * Machine Ext;
  cwd : Machine Ext -> string;
  refused : syscall -> Machine Ext -> option string;
  lower : Z -> Z;
  float64_ok : string -> bool;
  configIndicatorYML : string;
  configSettingsYML : string
}.

Module fs.

(** The proper ancestors of a path, outermost first: ["/a/b/c"] has
    ["/a"] and ["/a/b"]. *)
Fixpoint prefixes_go (seen l : list ascii) : list string :=
  match l with
  | [] => []
  | c :: t =>
    ((if Ascii.eqb c filepath.slash && negb (bool_decide (seen = []))
      then [of_bytes (rev seen)] else [])
     ++ prefixes_go (c :: seen) t)%list
  end.

Definition ancestors (p : string) : list string := prefixes_go [] (bytes p).

Definition is_file (t : gmap string node) (p : string) : bool :=
  match t !! p with Some (File _) => true | _ => false end.

(** [mkdir -p]: fails when the path or an ancestor is a file, else
    makes all of them directories. *)
Definition mkdir_all (t : gmap string node) (p : string)
  : option (gmap string node) :=
  let dirs := (ancestors p ++ [p])%list in
  if existsb (is_file t) dirs then None
  else Some (foldr (fun q m => <[q := Dir]> m) t dirs).

(** The error for a path that is not in the tree.  Resolving a path
    walks its ancestors, and one that is a regular file stops the walk
    with "not a directory" ([ENOTDIR]), of which [os.IsNotExist] does
    not hold; otherwise the error is "no such file or directory"
    ([ENOENT]). *)
Definition missing (t : gmap string node) (p : string) : error :=
  if existsb (is_file t) (ancestors p)
  then mkError "not a directory" false
  else mkError "no such file or directory" true.

(** Reading a whole file. *)
Definition read_file (t : gmap string node) (p : string) : string + error :=
  match t !! p with
  | Some (File c) => inl c
  | Some Dir => inr (mkError "is a directory" false)
  | None => inr (missing t p)
  end.

(** Creating or truncating a file and writing it: the path must not be
    a directory and its parent must be one. *)
Definition write_file (t : gmap string node) (p data : string)
  : gmap string node + error :=
  match t !! p with
  | Some Dir => inr (mkError "is a directory" false)
  | _ =>
    match last (ancestors p) with
    | None => inl (<[p := File data]> t)
    | Some d =>
      match t !! d with
      | Some Dir => inl (<[p := File data]> t)
      | Some (File _) => inr (mkError "not a directory" false)
      | None => inr (missing t p)
      end
    end
  end.

(** [stat]: anything found at the path is fine; a path that is not in
    the tree gives "not a directory" below a regular file and "does not
    exist" otherwise. *)
Definition stat (t : gmap string node) (p : string) : option error :=
  match t !! p with
  | Some _ => None
  | None => Some (missing t p)
  end.

End fs.

(** A string between double quotes. *)
Definition quoted (s : string) : string :=
  String (chr 34) EmptyString +:+ s +:+ String (chr 34) EmptyString.

(** The commands the statements below name. *)
Definition brew_list (pkg : string) : Cmd :=
  mkCmd "brew" ["list"; pkg] "" Discard.

Definition brew_install (pkg : string) : Cmd :=
  mkCmd "brew" ["install"; pkg] "" Inherit.

Definition docker_info : Cmd := mkCmd "docker" ["info"] "" Discard.

Definition composer_create (projectPath : string) : Cmd :=
  mkCmd "composer"
    ["create-project"; "drupal/recommended-project:^11"; projectPath] "" Inherit.


(** ** Computations *)

(** How a Go function ends: it returns, the process exits ([os.Exit]),
    or it panics. *)
Inductive Outcome (A : Type) :=
| Done (a : A)
| Exited (code : Z)
| Panicked (msg : string).
Arguments Done {A} _.
Arguments Exited {A} _.
Arguments Panicked {A} _.

(** The state a run threads: the machine, what the terminal will deliver
    on standard input (one string per [read], the empty string for an
    end of input), what was printed (one string per print call) and the
    system calls made, both oldest first. *)
Record WorldOf (E : Type) := mkWorld {
  machine : Machine E;
  stdin : list string;
  stdout : list string;
  trace : list syscall
}.
Arguments mkWorld {E} _ _ _ _.
Arguments machine {E} _.
Arguments stdin {E} _.
Arguments stdout {E} _.
Arguments trace {E} _.

Section Program.

Context {P : Platform}.

(** The worlds of the platform [P]. *)
Definition World : Type := WorldOf Ext.

Definition IO (A : Type) : Type := World -> Outcome A * World.

Definition ret {A} (a : A) : IO A := fun w => (Done a, w).

Definition bind {A B} (m : IO A) (k : A -> IO B) : IO B :=
  fun w =>
    match m w with
    | (Done a, w') => k a w'
    | (Exited c, w') => (Exited c, w')
    | (Panicked msg, w') => (Panicked msg, w')
    end.

Notation "x <- m ;; k" := (bind m (fun x => k))
  (at level 100, m at next level, right associativity).
Notation "m ;; k" := (bind m (fun _ => k))
  (at level 100, right associativity).

(** [os.Exit(code)]. *)
Definition os_Exit {A} (code : Z) : IO A := fun w => (Exited code, w).

(** A run-time panic. *)
Definition panic {A} (msg : string) : IO A := fun w => (Panicked msg, w).

(** The exit status of the process when [main] ends this way (a Go
    program that panics exits with status 2). *)
Definition exit_code {A} (o : Outcome A) : Z :=
  match o with
  | Done _ => 0
  | Exited c => c
  | Panicked _ => 2
  end.

(** The four ways a world changes. *)
Definition log (s : syscall) (w : World) : World :=
  mkWorld (machine w) (stdin w) (stdout w) (trace w ++ [s])%list.

Definition say (s : string) (w : World) : World :=
  mkWorld (machine w) (stdin w) (stdout w ++ [s])%list (trace w).

Definition set_stdin (rest : list string) (w : World) : World :=
  mkWorld (machine w) rest (stdout w) (trace w).

Definition set_machine (m : Machine Ext) (w : World) : World :=
  mkWorld m (stdin w) (stdout w) (trace w).

(** *** Package [fmt] *)

Definition LF : string := String (chr 10) EmptyString.

Definition fmt_Print (s : string) : IO unit :=
  fun w => (Done tt, say s w).

Definition fmt_Println (s : string) : IO unit := fmt_Print (s +:+ LF).

(** *** Package [bufio]: [bufio.NewReader(os.Stdin).ReadString('\n')] *)

(** The bytes of a chunk up to and including the first line feed. *)
Fixpoint cut_line (l : list ascii) : option (list ascii) :=
  match l with
  | [] => None
  | c :: t => if byte c =? 10 then Some [c] else option_map (cons c) (cut_line t)
  end.

(** A fresh reader reads until it has seen a line feed or the end of
    input, and returns the text up to there.  What it read beyond the
    line feed stays in the reader, which each prompt creates anew and
    drops: that text is lost. *)
Fixpoint read_line (acc : string) (chunks : list string) : string * list string :=
  match chunks with
  | [] => (acc, [])
  | ch :: rest =>
    if String.eqb ch "" then (acc, rest)
    else match cut_line (bytes ch) with
         | Some l => (acc +:+ of_bytes l, rest)
         | None => read_line (acc +:+ ch) rest
         end
  end.

(** The line the next prompt will read. *)
Definition next_line (w : World) : string := fst (read_line "" (stdin w)).

Definition ReadString : IO string :=
  fun w => (Done (next_line w), set_stdin (snd (read_line "" (stdin w))) w).

(** *** Package [os/exec] *)

Definition exec_LookPath (file : string) : IO bool :=
  fun w => (Done (on_path file (machine w)), log (LookPath file) w).

(** [cmd.Run()], [cmd.Output()], [cmd.CombinedOutput()]. *)
Definition cmd_Run (c : Cmd) : IO ProcResult :=
  fun w =>
    let r := child c (machine w) in
    (Done (fst r), set_machine (snd r) (log (Start c) w)).

(** *** Package [os]

    Each call first meets the refusals of the operating system and then
    the file tree. *)

Definition getwd (m : Machine Ext) : string * option error :=
  match refused Getwd m with
  | Some msg => ("", Some (mkError msg false))
  | None => (cwd m, None)
  end.

Definition mkdir_all (m : Machine Ext) (path : string) (perm : Z)
  : option error * Machine Ext :=
  match refused (MkdirAll path perm) m with
  | Some msg => (Some (mkError msg false), m)
  | None =>
    match fs.mkdir_all (files m) path with
    | None => (Some (mkError "not a directory" false), m)
    | Some t => (None, mkMachine t (ext m))
    end
  end.

Definition read_file (m : Machine Ext) (path : string) : string * option error :=
  match refused (ReadFile path) m with
  | Some msg => ("", Some (mkError msg false))
  | None =>
    match fs.read_file (files m) path with
    | inl c => (c, None)
    | inr e => ("", Some e)
    end
  end.

Definition write_file (m : Machine Ext) (path data : string) (perm : Z)
  : option error * Machine Ext :=
  match refused (WriteFile path data perm) m with
  | Some msg => (Some (mkError msg false), m)
  | None =>
    match fs.write_file (files m) path data with
    | inl t => (None, mkMachine t (ext m))
    | inr e => (Some e, m)
    end
  end.

Definition stat (m : Machine Ext) (path : string) : option error :=
  match refused (Stat path) m with
  | Some msg => Some (mkError msg false)
  | None => fs.stat (files m) path
  end.

Definition os_Getwd : IO (string * option error) :=
  fun w => (Done (getwd (machine w)), log Getwd w).

Definition os_MkdirAll (path : string) (perm : Z) : IO (option error) :=
  fun w =>
    let r := mkdir_all (machine w) path perm in
    (Done (fst r), set_machine (snd r) (log (MkdirAll path perm) w)).

Definition os_ReadFile (path : string) : IO (string * option error) :=
  fun w => (Done (read_file (machine w) path), log (ReadFile path) w).

Definition os_WriteFile (path data : string) (perm : Z) : IO (option error) :=
  fun w =>
    let r := write_file (machine w) path data perm in
    (Done (fst r), set_machine (snd r) (log (WriteFile path data perm) w)).

Definition os_Stat (path : string) : IO (option error) :=
  fun w => (Done (stat (machine w) path), log (Stat path) w).

(** ** The program [main.go] *)

Definition ESC : string := String (chr 27) EmptyString.

Definition colorRed : string := ESC +:+ "[0;31m".
Definition colorGreen : string := ESC +:+ "[0;32m".
Definition colorYellow : string := ESC +:+ "[1;33m".
Definition colorBlue : string := ESC +:+ "[0;34m".
Definition colorReset : string := ESC +:+ "[0m".

(** The lines [printStatus], [printSuccess], [printWarning] and
    [printError] format. *)
Definition info_line (msg : string) : string :=
  colorBlue +:+ "[INFO]" +:+ colorReset +:+ " " +:+ msg +:+ LF.

Definition success_line (msg : string) : string :=
  colorGreen +:+ "[SUCCESS]" +:+ colorReset +:+ " " +:+ msg +:+ LF.

Definition warning_line (msg : string) : string :=
  colorYellow +:+ "[WARNING]" +:+ colorReset +:+ " " +:+ msg +:+ LF.

Definition error_line (msg : string) : string :=
  colorRed +:+ "[ERROR]" +:+ colorReset +:+ " " +:+ msg +:+ LF.

Definition printStatus (msg : string) : IO unit := fmt_Print (info_line msg).

Definition printSuccess (msg : string) : IO unit := fmt_Print (success_line msg).

Definition printWarning (msg : string) : IO unit := fmt_Print (warning_line msg).

Definition printError (msg : string) : IO unit := fmt_Print (error_line msg).

Definition commandExists (cmd : string) : IO bool :=
  exec_LookPath cmd.

Definition runCommand (name : string) (args : list string) : IO (option error) :=
  r <- cmd_Run (mkCmd name args "" Inherit) ;;
  ret (pr_err r).

Definition runCommandOutput (name : string) (args : list string)
  : IO (string * option error) :=
  r <- cmd_Run (mkCmd name args "" CombinedOutput) ;;
  ret (pr_out r, pr_err r).

Definition brewPackageInstalled (pkg : string) : IO bool :=
  r <- cmd_Run (mkCmd "brew" ["list"; pkg] "" Discard) ;;
  ret (is_nil (pr_err r)).

Definition checkHomebrew : IO (option error) :=
  found <- commandExists "brew" ;;
  if negb found then
    printError "Homebrew is not installed. Please install Homebrew first:" ;;
    fmt_Println "See https://docs.brew.sh/Installation for instructions." ;;
    ret (Some (mkError "homebrew not installed" false))
  else
    printSuccess "Homebrew is installed" ;;
    ret None.

Definition installDocker : IO bool :=
  printStatus "Checking Docker Desktop installation..." ;;
  installed <- brewPackageInstalled "docker" ;;
  if installed then
    printSuccess "Docker Desktop is already installed" ;;
    ret true
  else
    printStatus "Docker Desktop not found. Installing via Homebrew..." ;;
    err <- runCommand "brew" ["install"; "docker"] ;;
    if negb (is_nil err) then
      printError "Failed to install Docker Desktop" ;;
      ret false
    else
      printSuccess "Docker Desktop installed. Please start Docker Desktop from Applications." ;;
      printWarning "You may need to restart your terminal after starting Docker Desktop." ;;
      ret false.

Definition checkDockerRunning : IO bool :=
  r <- cmd_Run (mkCmd "docker" ["info"] "" Discard) ;;
  if is_nil (pr_err r) then
    printSuccess "Docker is running" ;;
    ret true
  else
    printWarning "Docker is not running. Please start Docker Desktop." ;;
    ret false.

Definition installColima : IO bool :=
  printStatus "Checking Colima installation..." ;;
  found <- commandExists "colima" ;;
  if found then
    printSuccess "Colima is already installed" ;;
    ret true
  else
    printStatus "Colima not found. Installing via Homebrew..." ;;
    err <- runCommand "brew" ["install"; "colima"] ;;
    if negb (is_nil err) then
      printError "Failed to install Colima" ;;
      ret false
    else
      printSuccess "Colima installed" ;;
      ret false.

Definition checkColimaRunning : IO bool :=
  r <- cmd_Run (mkCmd "colima" ["status"] "" Discard) ;;
  if is_nil (pr_err r) then
    printSuccess "Colima is running" ;;
    ret true
  else
    printWarning "Colima is not running." ;;
    ret false.

Definition startColima : IO unit :=
  printStatus "Starting Colima..." ;;
  r <- cmd_Run (mkCmd "colima" ["status"] "" Discard) ;;
  if is_nil (pr_err r) then
    printSuccess "Colima is already running"
  else
    err <- runCommand "colima" ["start"] ;;
    if negb (is_nil err) then
      printError "Failed to start Colima"
    else
      printSuccess "Colima started".

Definition installDDEV : IO bool :=
  printStatus "Checking DDEV installation..." ;;
  found <- commandExists "ddev" ;;
  if found then
    printSuccess "DDEV is already installed" ;;
    ret true
  else
    printStatus "DDEV not found. Installing via Homebrew..." ;;
    err <- runCommand "brew" ["install"; "ddev/ddev/ddev"] ;;
    if negb (is_nil err) then
      printError "Failed to install DDEV" ;;
      ret false
    else
      printSuccess "DDEV installed" ;;
      ret false.

Definition checkDDEVVersion : IO unit :=
  found <- commandExists "ddev" ;;
  if found then
    r <- runCommandOutput "ddev" ["version"] ;;
    printSuccess ("DDEV version: " +:+ strings.TrimSpace (fst r))
  else ret tt.

Definition checkPrerequisites (dockerProvider : string) : IO unit :=
  fmt_Println "==========================================" ;;
  printStatus "Checking Prerequisites" ;;
  fmt_Println "==========================================" ;;
  brew <- commandExists "brew" ;;
  (if brew then printSuccess "✓ Homebrew is installed"
   else printError "✗ Homebrew is not installed") ;;
  (if String.eqb dockerProvider "docker" then
     docker <- brewPackageInstalled "docker" ;;
     if docker then printSuccess "✓ Docker Desktop is installed"
     else printWarning "✗ Docker Desktop is not installed"
   else
     colima <- commandExists "colima" ;;
     if colima then printSuccess "✓ Colima is installed"
     else printWarning "✗ Colima is not installed") ;;
  ddev <- commandExists "ddev" ;;
  (if ddev then printSuccess "✓ DDEV is installed"
   else printWarning "✗ DDEV is not installed") ;;
  fmt_Println "".

(** Lines 208 to 216: the directory name made from the line read at the
    project-name prompt; [None] when the trimmed line is empty. *)
Definition projectNameOf (line : string) : option string :=
  let projectName := strings.TrimSpace line in
  if String.eqb projectName "" then None
  else
    let projectName := strings.ToLower lower projectName in
    Some (strings.ReplaceAll projectName " " "-").

Definition initDrupalProject : IO (string * option error) :=
  printStatus "Initializing Drupal project..." ;;
  fmt_Println "" ;;
  fmt_Print "Enter your Drupal project name (e.g., 'my-drupal-site'): " ;;
  line <- ReadString ;;
  match projectNameOf line with
  | None =>
    printError "Project name cannot be empty" ;;
    ret ("", Some (mkError "empty project name" false))
  | Some projectName =>
    r <- os_Getwd ;;
    match snd r with
    | Some err =>
      printError "Failed to get current directory" ;;
      ret ("", Some err)
    | None =>
      let projectPath := filepath.Join [fst r; projectName] in
      printStatus ("Creating Drupal project: " +:+ projectName) ;;
      err <- runCommand "composer"
               ["create-project"; "drupal/recommended-project:^11"; projectPath] ;;
      match err with
      | Some err =>
        printError "Failed to create Drupal project" ;;
        ret ("", Some err)
      | None =>
        printSuccess ("✓ Drupal project '" +:+ projectName +:+ "' initialized") ;;
        ret (projectPath, None)
      end
    end
  end.

Definition setupDrupalSettings (projectPath : string) : IO (option error) :=
  printStatus "Setting up Drupal settings..." ;;
  let configSyncPath := filepath.Join [projectPath; "config"; "sync"] in
  err <- os_MkdirAll configSyncPath 493 ;;
  match err with
  | Some err =>
    printError "Failed to create config directory" ;;
    ret (Some err)
  | None =>
    let settingsPath :=
      filepath.Join [projectPath; "web"; "sites"; "default"; "settings.ddev.php"] in
    r <- os_ReadFile settingsPath ;;
    match snd r with
    | Some err =>
      printError "Failed to read settings.ddev.php" ;;
      ret (Some err)
    | None =>
      let newContent :=
        strings.ReplaceAll (fst r) "sites/default/files/sync" "../config/sync" in
      err <- os_WriteFile settingsPath newContent 420 ;;
      match err with
      | Some err =>
        printError "Failed to write settings.ddev.php" ;;
        ret (Some err)
      | None =>
        let indicatorPath :=
          filepath.Join [configSyncPath; "environment_indicator.indicator.yml"] in
        err <- os_WriteFile indicatorPath configIndicatorYML 420 ;;
        match err with
        | Some err =>
          printError "Failed to write config files" ;;
          ret (Some err)
        | None =>
          let settingsConfigPath :=
            filepath.Join [configSyncPath; "environment_indicator.settings.yml"] in
          err <- os_WriteFile settingsConfigPath configSettingsYML 420 ;;
          match err with
          | Some err =>
            printError "Failed to write config files" ;;
            ret (Some err)
          | None =>
            err <- os_Stat configSyncPath ;;
            if os_IsNotExist err then
              printError "Config directory not found at config/sync. Skipping config import." ;;
              ret err
            else
              printSuccess "✓ Drupal settings setup completed" ;;
              ret None
          end
        end
      end
    end
  end.

Definition initDDEVProject (projectPath : string) : IO (option error) :=
  printStatus "Initializing DDEV project..." ;;
  let ddevPath := filepath.Join [projectPath; ".ddev"] in
  err <- os_Stat ddevPath ;;
  if is_nil err then
    printWarning ".ddev directory already exists. Skipping DDEV init." ;;
    ret None
  else
    r <- cmd_Run (mkCmd "ddev"
                    ["config"; "--project-type=drupal11"; "--docroot=web"; "--create-docroot"]
                    projectPath Inherit) ;;
    match pr_err r with
    | Some err =>
      printError "Failed to initialize DDEV project" ;;
      ret (Some err)
    | None =>
      printSuccess "DDEV project initialized" ;;
      ret None
    end.

Definition startDDEV (projectPath : string) : IO (option error) :=
  printStatus "Starting DDEV..." ;;
  r <- cmd_Run (mkCmd "ddev" ["start"] projectPath Inherit) ;;
  match pr_err r with
  | Some err =>
    printError "Failed to start DDEV" ;;
    ret (Some err)
  | None =>
    printSuccess "DDEV started" ;;
    ret None
  end.

Definition packages : list (list string) :=
  [ ["composer"; "install"];
    ["composer"; "require"; "drupal/core-dev"; "--dev"; "-W"];
    ["composer"; "require"; "drush/drush"];
    ["composer"; "require"; "drupal/admin_toolbar"];
    ["composer"; "require"; "drupal/token"];
    ["composer"; "require"; "drupal/pathauto"];
    ["composer"; "require"; "drupal/config_ignore"];
    ["composer"; "require"; "drupal/config_split"];
    ["composer"; "require"; "drupal/devel"];
    ["composer"; "require"; "drupal/environment_indicator"];
    ["composer"; "require"; "drupal/better_exposed_filters"];
    ["composer"; "require"; "drupal/key"];
    ["composer"; "require"; "drupal/webprofiler"];
    ["composer"; "require"; "drupal/diff:^2.0@beta"];
    ["composer"; "require"; "drupal/ultimate_cron:^2.0@beta"] ].

(** The loop [for _, pkg := range packages] of [installDrupalDependencies]:
    the first failing command ends it with its error. *)
Fixpoint installPackages (projectPath : string) (pkgs : list (list string))
  : IO (option error) :=
  match pkgs with
  | [] => ret None
  | pkg :: rest =>
    r <- cmd_Run (mkCmd "ddev" pkg projectPath Inherit) ;;
    match pr_err r with
    | Some err =>
      printError ("Failed to install [" +:+ strings.Join pkg " " +:+ "]") ;;
      ret (Some err)
    | None => installPackages projectPath rest
    end
  end.

Definition installDrupalDependencies (projectPath : string) : IO (option error) :=
  printStatus "Installing Drupal dependencies with Composer..." ;;
  err <- installPackages projectPath packages ;;
  match err with
  | Some err => ret (Some err)
  | None =>
    printSuccess "✓ Drupal dependencies installed" ;;
    ret None
  end.

Definition installDrupalSite (projectPath : string) : IO (option error) :=
  printStatus "Installing Drupal site..." ;;
  r <- cmd_Run (mkCmd "ddev"
                  ["drush"; "site:install"; "standard"; "--yes";
                   "--account-name=admin"; "--account-pass=admin";
                   "--site-name=Super Awesome Site"]
                  projectPath Inherit) ;;
  match pr_err r with
  | Some err =>
    printError "Failed to install Drupal site" ;;
    ret (Some err)
  | None =>
    printSuccess "Drupal site installed" ;;
    printStatus "Admin credentials: username=admin, password=admin" ;;
    ret None
  end.

Definition modules : list string :=
  [ "admin_toolbar"; "config_split"; "devel"; "environment_indicator";
    "environment_indicator_ui"; "environment_indicator_toolbar";
    "token"; "pathauto"; "config_ignore"; "better_exposed_filters";
    "key"; "webprofiler"; "diff"; "ultimate_cron"; "devel_generate" ].

Definition enableDrupalModules (projectPath : string) : IO (option error) :=
  printStatus "Enabling Drupal modules..." ;;
  let args := (["drush"; "en"; "-y"] ++ modules)%list in
  r <- cmd_Run (mkCmd "ddev" args projectPath Inherit) ;;
  match pr_err r with
  | Some err =>
    printError "Failed to enable modules" ;;
    ret (Some err)
  | None =>
    printSuccess "✓ Drupal modules enabled" ;;
    ret None
  end.

Definition importDrupalConfig (projectPath : string) : IO (option error) :=
  printStatus "Importing Drupal config..." ;;
  let importPath := filepath.Join [projectPath; "config"; "sync"] in
  err <- os_Stat importPath ;;
  if os_IsNotExist err then
    printWarning "Config directory not found at config/sync. Skipping config import." ;;
    ret None
  else
    r <- cmd_Run (mkCmd "ddev" ["drush"; "config:import"; "--partial"; "--yes"]
                    projectPath Inherit) ;;
    match pr_err r with
    | Some err =>
      printError "Failed to import config" ;;
      ret (Some err)
    | None =>
      printSuccess "✓ Drupal config imported" ;;
      ret None
    end.

Definition genu : Cmd :=
  mkCmd "ddev" ["drush"; "genu"; "10"; "--kill"; "--roles=content_editor"] "" Inherit.

Definition genc : Cmd :=
  mkCmd "ddev" ["drush"; "genc"; "25"; "-y"; "--kill"; "--roles=content_editor";
                "--skip-fields=field_tags"] "" Inherit.

(** [cmd.Dir = projectPath]. *)
Definition in_dir (dir : string) (c : Cmd) : Cmd :=
  mkCmd (cmd_name c) (cmd_args c) dir (cmd_out c).

Definition generateDrupalContent (projectPath : string) : IO (option error) :=
  fmt_Print "Do you want to generate content? (y/N): " ;;
  response <- ReadString ;;
  let response := strings.TrimSpace (strings.ToLower lower response) in
  if negb (String.eqb response "y") then
    printSuccess "✓ Drupal content generation skipped" ;;
    ret None
  else
    printStatus "Generating Drupal content..." ;;
    r <- cmd_Run (in_dir projectPath genu) ;;
    match pr_err r with
    | Some err =>
      printError "Failed to generate users" ;;
      ret (Some err)
    | None =>
      r <- cmd_Run (in_dir projectPath genc) ;;
      match pr_err r with
      | Some err =>
        printError "Failed to generate content" ;;
        ret (Some err)
      | None =>
        printSuccess "✓ Drupal content generated" ;;
        ret None
      end
    end.

(** The two-result type assertions [v.([]interface{})],
    [v.(map[string]interface{})] and [v.(string)] on a value that may be
    the [nil] interface ([None]: a key absent from the map; JSON [null]
    is no slice, map or string either): the zero value and [false] when
    the dynamic type differs. *)
Definition as_slice (v : option json.value) : list json.value * bool :=
  match v with Some (json.Array l) => (l, true) | _ => ([], false) end.

Definition as_map (v : option json.value) : gmap string json.value * bool :=
  match v with Some (json.Object m) => (m, true) | _ => (∅, false) end.

Definition as_string (v : option json.value) : string * bool :=
  match v with Some (json.Str s) => (s, true) | _ => ("", false) end.

(** [a[i]]: a run-time panic outside the slice. *)
Definition go_index {A} (a : list A) (i : nat) : IO A :=
  match a !! i with
  | Some x => ret x
  | None => panic "index out of range"
  end.

Definition getSiteURL (projectPath : string) : IO string :=
  printStatus "Getting site URL..." ;;
  r <- cmd_Run (mkCmd "ddev" ["describe"; "--json-output"] projectPath Output) ;;
  if negb (is_nil (pr_err r)) then
    printWarning "Could not determine site URL. Try running 'ddev describe'" ;;
    ret ""
  else
    match json.Unmarshal float64_ok (pr_out r) with
    | None =>
      printWarning "Could not parse site URL" ;;
      ret ""
    | Some result =>
      let '(raw, ok) := as_slice (result !! "raw") in
      found <-
        (if ok && (0 <? Z.of_nat (length raw)) then
           first <- go_index raw 0 ;;
           let '(project, ok) := as_map (Some first) in
           if ok then
             let '(httpsURL, ok) := as_string (project !! "https_url") in
             if ok then
               printSuccess ("Site URL: " +:+ httpsURL) ;;
               ret (Some httpsURL)                        (* return httpsURL *)
             else ret None
           else ret None
         else ret None) ;;
      match found with
      | Some httpsURL => ret httpsURL
      | None =>
        printWarning "Could not determine site URL. Try running 'ddev describe'" ;;
        ret ""
      end
    end.

Definition displayFinalInstructions (siteURL : string) : IO unit :=
  fmt_Println "" ;;
  fmt_Println "==========================================" ;;
  printSuccess "Drupal 11 installation completed!" ;;
  fmt_Println "==========================================" ;;
  fmt_Println "" ;;
  fmt_Println "Next steps:" ;;
  (if negb (String.eqb siteURL "") then
     fmt_Print ("1. Visit your site: " +:+ siteURL +:+ LF)
   else
     fmt_Println "1. Run 'ddev describe' to get your site URL") ;;
  fmt_Println "2. Login with: username=admin, password=admin" ;;
  fmt_Println "3. Useful DDEV commands:" ;;
  fmt_Println "   - ddev describe    # Show project info" ;;
  fmt_Println "   - ddev drush       # Run Drush commands" ;;
  fmt_Println "   - ddev ssh         # SSH into container" ;;
  fmt_Println "   - ddev stop        # Stop the project" ;;
  fmt_Println "   - ddev start       # Start the project" ;;
  fmt_Println "" ;;
  fmt_Println "For more information, visit: https://ddev.readthedocs.io/".

Definition selectDockerProvider : IO string :=
  fmt_Println "Which Docker provider would you like to use?" ;;
  fmt_Println "1. Docker Desktop" ;;
  fmt_Println "2. Colima" ;;
  fmt_Print "Enter your choice (1 or 2): " ;;
  response <- ReadString ;;
  let response := strings.TrimSpace response in
  if String.eqb response "2" then ret "colima"
  else ret "docker".

(** [if cond { os.Exit(1) }]. *)
Definition exit_if (cond : bool) : IO unit :=
  if cond then os_Exit 1 else ret tt.

Definition main : IO unit :=
  fmt_Println "==========================================" ;;
  fmt_Println "Drupal 11 Installation Script" ;;
  fmt_Println "==========================================" ;;
  fmt_Println "" ;;
  dockerProvider <- selectDockerProvider ;;
  fmt_Println "" ;;
  checkPrerequisites dockerProvider ;;
  err <- checkHomebrew ;;
  exit_if (negb (is_nil err)) ;;
  fmt_Println "" ;;
  (if String.eqb dockerProvider "docker" then
     installDocker ;;
     running <- checkDockerRunning ;;
     if negb running then
       printError "Please start Docker Desktop and run this script again." ;;
       os_Exit 1
     else ret tt
   else
     installColima ;;
     running <- checkColimaRunning ;;
     if negb running then
       startColima ;;
       running <- checkColimaRunning ;;
       if negb running then
         printError "Failed to start Colima. Please start it manually and run this script again." ;;
         os_Exit 1
       else ret tt
     else ret tt) ;;
  ok <- installDDEV ;;
  exit_if (negb ok) ;;
  checkDDEVVersion ;;
  r <- initDrupalProject ;;
  let projectPath := fst r in
  exit_if (negb (is_nil (snd r))) ;;
  err <- initDDEVProject projectPath ;;
  exit_if (negb (is_nil err)) ;;
  err <- startDDEV projectPath ;;
  exit_if (negb (is_nil err)) ;;
  err <- installDrupalDependencies projectPath ;;
  exit_if (negb (is_nil err)) ;;
  err <- setupDrupalSettings projectPath ;;
  exit_if (negb (is_nil err)) ;;
  err <- installDrupalSite projectPath ;;
  exit_if (negb (is_nil err)) ;;
  err <- enableDrupalModules projectPath ;;
  exit_if (negb (is_nil err)) ;;
  err <- importDrupalConfig projectPath ;;
  exit_if (negb (is_nil err)) ;;
  err <- generateDrupalContent projectPath ;;
  (if negb (is_nil err) then
     printWarning "Content generation failed, but continuing..."
   else ret tt) ;;
  siteURL <- getSiteURL projectPath ;;
  displayFinalInstructions siteURL.

(** ** The run as the specification words it

    "Model each step as a pure function returning a result type; compose
    steps with a short-circuiting pipeline."  A [Step] takes the project
    path known so far and gives the project path for the next step, or
    [None] for a fatal failure.  The steps below are the stretches of
    [main] between two [os.Exit(1)], in order. *)
Definition Step : Type := string -> IO (option string).

(** The steps in order; the first that fails ends the process with
    status 1 and the later ones are not run. *)
Fixpoint pipeline (steps : list Step) (projectPath : string) : IO string :=
  match steps with
  | [] => ret projectPath
  | s :: rest =>
    r <- s projectPath ;;
    match r with
    | None => os_Exit 1
    | Some projectPath' => pipeline rest projectPath'
    end
  end.

(** A step made of a function of [main.go] that returns an [error]. *)
Definition checked (f : string -> IO (option error)) : Step :=
  fun projectPath =>
    err <- f projectPath ;;
    ret (if is_nil err then Some projectPath else None).

Definition stepHomebrew : Step := checked (fun _ => checkHomebrew).

(** Lines 533 to 550: the chosen container back end is installed if
    need be and must be running; [false] stops the run. *)
Definition ensureBackend (dockerProvider : string) : IO bool :=
  fmt_Println "" ;;
  if String.eqb dockerProvider "docker" then
    installDocker ;;
    running <- checkDockerRunning ;;
    if negb running then
      printError "Please start Docker Desktop and run this script again." ;;
      ret false
    else ret true
  else
    installColima ;;
    running <- checkColimaRunning ;;
    if negb running then
      startColima ;;
      running <- checkColimaRunning ;;
      if negb running then
        printError "Failed to start Colima. Please start it manually and run this script again." ;;
        ret false
      else ret true
    else ret true.

Definition stepBackend (dockerProvider : string) : Step :=
  fun projectPath =>
    ok <- ensureBackend dockerProvider ;;
    ret (if ok then Some projectPath else None).

Definition stepDDEV : Step :=
  fun projectPath =>
    ok <- installDDEV ;;
    ret (if ok then Some projectPath else None).

Definition stepScaffold : Step :=
  fun _ =>
    checkDDEVVersion ;;
    r <- initDrupalProject ;;
    ret (if is_nil (snd r) then Some (fst r) else None).

(** The fatal steps of a run, by container back end. *)
Definition fatal_steps (dockerProvider : string) : list Step :=
  [ stepHomebrew;
    stepBackend dockerProvider;
    stepDDEV;
    stepScaffold;
    checked initDDEVProject;
    checked startDDEV;
    checked installDrupalDependencies;
    checked setupDrupalSettings;
    checked installDrupalSite;
    checked enableDrupalModules;
    checked importDrupalConfig ].

(** Lines 519 to 527: banner, back-end prompt, prerequisite report. *)
Definition prologue : IO string :=
  fmt_Println "==========================================" ;;
  fmt_Println "Drupal 11 Installation Script" ;;
  fmt_Println "==========================================" ;;
  fmt_Println "" ;;
  dockerProvider <- selectDockerProvider ;;
  fmt_Println "" ;;
  checkPrerequisites dockerProvider ;;
  ret dockerProvider.

(** Lines 591 to 596, after the content-generation call: a failure of
    the generation is only warned about. *)
Definition finish (projectPath : string) (err : option error) : IO unit :=
  (if negb (is_nil err) then
     printWarning "Content generation failed, but continuing..."
   else ret tt) ;;
  siteURL <- getSiteURL projectPath ;;
  displayFinalInstructions siteURL.

Definition epilogue (projectPath : string) : IO unit :=
  err <- generateDrupalContent projectPath ;;
  finish projectPath err.

Definition main_pipeline : IO unit :=
  dockerProvider <- prologue ;;
  projectPath <- pipeline (fatal_steps dockerProvider) "" ;;
  epilogue projectPath.

(** [m] ends by returning, in every world: no exit, no panic. *)
Definition returns {A} (m : IO A) : Prop :=
  forall w, exists a w', m w = (Done a, w').

(** The claim of the settings rewrite as the specification words it: the
    fragment is replaced once and every other byte is kept. *)
Definition replaced_once (old new content output : string) : Prop :=
  exists pre post,
    content = pre +:+ old +:+ post /\ output = pre +:+ new +:+ post.

(** [s] contains [old]. *)
Definition occurs (old s : string) : Prop :=
  exists a b, s = a +:+ old +:+ b.

(** [pre +:+ old +:+ post] splits [s] at its leftmost occurrence of [old]. *)
Definition leftmost (old s pre post : string) : Prop :=
  s = pre +:+ old +:+ post /\
  forall a b, s = a +:+ old +:+ b -> (String.length pre <= String.length a)%nat.




(** No byte of [s] is an ASCII capital letter. *)
Definition no_capital (s : string) : Prop :=
  Forall (fun c => ~ (65 <= byte c <= 90)) (bytes s).

(** [s] is in lower case: it is its own lower case, [strings.ToLower]
    returns it as it is. *)
Definition lower_case (s : string) : Prop := strings.ToLower lower s = s.

(** The runes [utf8.EncodeRune] encodes as themselves: the code points
    but for the surrogates. *)
Definition valid_rune (r : Z) : bool :=
  (0 <=? r) && (r <=? utf8.MaxRune) && negb (utf8.between 55296 57343 r).

(** What [utf8.EncodeRune] encodes in place of [r]. *)
Definition canon (r : Z) : Z := if valid_rune r then r else utf8.RuneError.

(** The scan of [strings.Map] finds nothing to change in [s]: every
    rune of [s], read as [strings.Map] reads it, is its own image under
    [f] and was not read from an invalid byte.  [skip] counts the bytes
    of the current rune still to pass. *)
Fixpoint fixed_go (f : Z -> Z) (skip : nat) (s : string) : bool :=
  match s with
  | EmptyString => true
  | String _ t =>
    match skip with
    | S k => fixed_go f k t
    | O =>
      let '(c, size) := utf8.DecodeRuneInString s in
      (f c =? c) && negb ((c =? utf8.RuneError) && Nat.eqb size 1)
      && fixed_go f (size - 1) t
    end
  end.

(** [s] and [t] have the same first [k] bytes. *)
Fixpoint agree (k : nat) (s t : string) : Prop :=
  match k, s, t with
  | O, _, _ => True
  | S k, String a s, String b t => a = b /\ agree k s t
  | S _, EmptyString, EmptyString => True
  | S _, _, _ => False
  end.

(** [strings.ReplaceAll(s, " ", "-")] rune by rune. *)
Definition dash_rune (r : Z) : Z := if r =? 32 then 45 else r.

(** The first [k] bytes of [s] are there and none is ASCII. *)
Fixpoint high (k : nat) (s : string) : Prop :=
  match k, s with
  | O, _ => True
  | S k, String b t => 128 <= byte b /\ high k t
  | S _, EmptyString => False
  end.

(** A space becomes a dash, any other byte stays. *)
Definition dash (c : ascii) : ascii :=
  if Ascii.eqb " " c then "-"%char else c.

(** No byte of [s] is a space. *)
Definition no_space (s : string) : Prop :=
  Forall (fun c => byte c <> 32) (bytes s).

(** The string made of the encodings of the runes. *)
Fixpoint encode_all (runes : list Z) : string :=
  match runes with
  | [] => EmptyString
  | r :: rest => utf8.EncodeRune r +:+ encode_all rest
  end.

(** [s] is made of Unicode white space only ([unicode.IsSpace]). *)
Definition white (s : string) : Prop :=
  exists runes,
    Forall (fun r => unicode.IsSpace r = true) runes /\ s = encode_all runes.

(** Every byte of [s] is ASCII white space. *)
Definition blank (s : string) : Prop :=
  Forall (fun c => strings.asciiSpace (byte c) = true) (bytes s).

End Program.

(** ** A small concrete machine

    Used to run the program on examples: tools are on the search path or
    not, Homebrew has a list of installed packages, the two container
    back ends are up or down, and a command fails when one of the words
    in [d_fail] is among its name and arguments. *)
Module Demo.

Record state := mkState {
  d_path : list string;
  d_cellar : list string;
  d_docker : bool;
  d_colima : bool;
  d_fail : list string;
  d_describe : string
}.

Definition mem (x : string) (l : list string) : bool :=
  existsb (String.eqb x) l.

Definition fails (c : Cmd) (st : state) : bool :=
  existsb (fun a => mem a (d_fail st)) (cmd_name c :: cmd_args c).

Definition ok : option error := None.
Definition failed : option error := Some (mkError "exit status 1" false).

Definition settings_php : string :=
  "$settings['config_sync_directory'] = 'sites/default/files/sync';".

(** What the commands of the installer do on this machine. *)
Definition run (c : Cmd) (m : Machine state) : ProcResult * Machine state :=
  let st := ext m in
  let same := mkMachine (files m) st in
  if fails c st then (mkProc failed "", same)
  else
    match cmd_name c, cmd_args c with
    | "brew", ["list"; pkg] =>
      (mkProc (if mem pkg (d_cellar st) then ok else failed) "", same)
    | "brew", ["install"; pkg] =>
      (mkProc ok "",
       mkMachine (files m)
         (mkState (pkg :: d_path st) (pkg :: d_cellar st) (d_docker st)
                  (d_colima st) (d_fail st) (d_describe st)))
    | "docker", ["info"] =>
      (mkProc (if d_docker st then ok else failed) "", same)
    | "colima", ["status"] =>
      (mkProc (if d_colima st then ok else failed) "", same)
    | "colima", ["start"] =>
      (mkProc ok "",
       mkMachine (files m)
         (mkState (d_path st) (d_cellar st) (d_docker st) true
                  (d_fail st) (d_describe st)))
    | "composer", ["create-project"; _; path] =>
      match fs.mkdir_all (files m) path with
      | Some t => (mkProc ok "", mkMachine t st)
      | None => (mkProc failed "", same)
      end
    | "ddev", "config" :: _ =>
      let dir := filepath.Join [cmd_dir c; "web"; "sites"; "default"] in
      match fs.mkdir_all (files m) dir with
      | Some t =>
        (mkProc ok "",
         mkMachine (<[filepath.Join [dir; "settings.ddev.php"] := File settings_php]> t) st)
      | None => (mkProc failed "", same)
      end
    | "ddev", ["describe"; "--json-output"] => (mkProc ok (d_describe st), same)
    | "ddev", ["version"] => (mkProc ok "DDEV version v1.24.0", same)
    | _, _ => (mkProc ok "", same)
    end.

(** The case table of the example machine: the simple lower-case
    mappings of the Unicode Character Database (version 14.0) beyond
    ASCII, as runs of capital letters: first, last, step, and the offset
    of the small letter. *)
Definition case_runs : list (Z * Z * Z * Z) :=
  [ (192, 214, 1, 32); (216, 222, 1, 32); (256, 302, 2, 1);
    (304, 304, 1, -199); (306, 310, 2, 1); (313, 327, 2, 1); (330, 374, 2, 1);
    (376, 376, 1, -121); (377, 381, 2, 1); (385, 385, 1, 210);
    (386, 388, 2, 1); (390, 390, 1, 206); (391, 391, 1, 1);
    (393, 394, 1, 205); (395, 395, 1, 1); (398, 398, 1, 79);
    (399, 399, 1, 202); (400, 400, 1, 203); (401, 401, 1, 1);
    (403, 403, 1, 205); (404, 404, 1, 207); (406, 406, 1, 211);
    (407, 407, 1, 209); (408, 408, 1, 1); (412, 412, 1, 211);
    (413, 413, 1, 213); (415, 415, 1, 214); (416, 420, 2, 1);
    (422, 422, 1, 218); (423, 423, 1, 1); (425, 425, 1, 218);
    (428, 428, 1, 1); (430, 430, 1, 218); (431, 431, 1, 1);
    (433, 434, 1, 217); (435, 437, 2, 1); (439, 439, 1, 219);
    (440, 440, 1, 1); (444, 444, 1, 1); (452, 452, 1, 2); (453, 453, 1, 1);
    (455, 455, 1, 2); (456, 456, 1, 1); (458, 458, 1, 2); (459, 475, 2, 1);
    (478, 494, 2, 1); (497, 497, 1, 2); (498, 500, 2, 1); (502, 502, 1, -97);
    (503, 503, 1, -56); (504, 542, 2, 1); (544, 544, 1, -130);
    (546, 562, 2, 1); (570, 570, 1, 10795); (571, 571, 1, 1);
    (573, 573, 1, -163); (574, 574, 1, 10792); (577, 577, 1, 1);
    (579, 579, 1, -195); (580, 580, 1, 69); (581, 581, 1, 71);
    (582, 590, 2, 1); (880, 882, 2, 1); (886, 886, 1, 1); (895, 895, 1, 116);
    (902, 902, 1, 38); (904, 906, 1, 37); (908, 908, 1, 64);
    (910, 911, 1, 63); (913, 929, 1, 32); (931, 939, 1, 32); (975, 975, 1, 8);
    (984, 1006, 2, 1); (1012, 1012, 1, -60); (1015, 1015, 1, 1);
    (1017, 1017, 1, -7); (1018, 1018, 1, 1); (1021, 1023, 1, -130);
    (1024, 1039, 1, 80); (1040, 1071, 1, 32); (1120, 1152, 2, 1);
    (1162, 1214, 2, 1); (1216, 1216, 1, 15); (1217, 1229, 2, 1);
    (1232, 1326, 2, 1); (1329, 1366, 1, 48); (4256, 4293, 1, 7264);
    (4295, 4295, 1, 7264); (4301, 4301, 1, 7264); (5024, 5103, 1, 38864);
    (5104, 5109, 1, 8); (7312, 7354, 1, -3008); (7357, 7359, 1, -3008);
    (7680, 7828, 2, 1); (7838, 7838, 1, -7615); (7840, 7934, 2, 1);
    (7944, 7951, 1, -8); (7960, 7965, 1, -8); (7976, 7983, 1, -8);
    (7992, 7999, 1, -8); (8008, 8013, 1, -8); (8025, 8031, 2, -8);
    (8040, 8047, 1, -8); (8072, 8079, 1, -8); (8088, 8095, 1, -8);
    (8104, 8111, 1, -8); (8120, 8121, 1, -8); (8122, 8123, 1, -74);
    (8124, 8124, 1, -9); (8136, 8139, 1, -86); (8140, 8140, 1, -9);
    (8152, 8153, 1, -8); (8154, 8155, 1, -100); (8168, 8169, 1, -8);
    (8170, 8171, 1, -112); (8172, 8172, 1, -7); (8184, 8185, 1, -128);
    (8186, 8187, 1, -126); (8188, 8188, 1, -9); (8486, 8486, 1, -7517);
    (8490, 8490, 1, -8383); (8491, 8491, 1, -8262); (8498, 8498, 1, 28);
    (8544, 8559, 1, 16); (8579, 8579, 1, 1); (9398, 9423, 1, 26);
    (11264, 11311, 1, 48); (11360, 11360, 1, 1); (11362, 11362, 1, -10743);
    (11363, 11363, 1, -3814); (11364, 11364, 1, -10727); (11367, 11371, 2, 1);
    (11373, 11373, 1, -10780); (11374, 11374, 1, -10749);
    (11375, 11375, 1, -10783); (11376, 11376, 1, -10782);
    (11378, 11378, 1, 1); (11381, 11381, 1, 1); (11390, 11391, 1, -10815);
    (11392, 11490, 2, 1); (11499, 11501, 2, 1); (11506, 11506, 1, 1);
    (42560, 42604, 2, 1); (42624, 42650, 2, 1); (42786, 42798, 2, 1);
    (42802, 42862, 2, 1); (42873, 42875, 2, 1); (42877, 42877, 1, -35332);
    (42878, 42886, 2, 1); (42891, 42891, 1, 1); (42893, 42893, 1, -42280);
    (42896, 42898, 2, 1); (42902, 42920, 2, 1); (42922, 42922, 1, -42308);
    (42923, 42923, 1, -42319); (42924, 42924, 1, -42315);
    (42925, 42925, 1, -42305); (42926, 42926, 1, -42308);
    (42928, 42928, 1, -42258); (42929, 42929, 1, -42282);
    (42930, 42930, 1, -42261); (42931, 42931, 1, 928); (42932, 42946, 2, 1);
    (42948, 42948, 1, -48); (42949, 42949, 1, -42307);
    (42950, 42950, 1, -35384); (42951, 42953, 2, 1); (42960, 42960, 1, 1);
    (42966, 42968, 2, 1); (42997, 42997, 1, 1); (65313, 65338, 1, 32);
    (66560, 66599, 1, 40); (66736, 66771, 1, 40); (66928, 66938, 1, 39);
    (66940, 66954, 1, 39); (66956, 66962, 1, 39); (66964, 66965, 1, 39);
    (68736, 68786, 1, 64); (71840, 71871, 1, 32); (93760, 93791, 1, 32);
    (125184, 125217, 1, 34) ].

(** [r] is a capital letter of the run [e]. *)
Definition in_run (r : Z) (e : Z * Z * Z * Z) : bool :=
  let '(lo, hi, step, _) := e in
  (lo <=? r) && (r <=? hi) && ((r - lo) mod step =? 0).

(** The table: the small letter of a capital letter, any other rune
    as it is. *)
Definition lower_table (r : Z) : Z :=
  match List.find (in_run r) case_runs with
  | Some (_, _, _, d) => r + d
  | None => r
  end.

#[export] Instance platform : Platform := {|
  Ext := state;
  on_path := fun file m => mem file (d_path (ext m));
  child := run;
  cwd := fun _ => "/Users/dev";
  refused := fun _ _ => None;
  lower := lower_table;
  float64_ok := fun _ => true;
  configIndicatorYML := "indicator: yml";
  configSettingsYML := "settings: yml"
|}.

Definition describe_json : string :=
  "{" +:+ quoted "raw" +:+ ":[{" +:+ quoted "https_url" +:+ ":"
  +:+ quoted "https://my-site.ddev.site" +:+ "}]}".

(** Everything installed, Docker running. *)
Definition ready : state :=
  mkState ["brew"; "docker"; "colima"; "ddev"; "composer"] ["docker"]
          true false [] describe_json.

Definition line (s : string) : string := s +:+ LF.

Definition world (st : state) (input : list string) : World :=
  mkWorld (mkMachine ∅ st) input [] [].

(** Variations of [ready]: no DDEV yet; Docker not running; the
    scaffold command failing; the first generation command failing;
    [ddev describe] answering the sample document of the
    specification. *)
Definition no_ddev : state :=
  mkState ["brew"; "docker"; "colima"; "composer"] ["docker"]
          true false [] describe_json.

Definition docker_down : state :=
  mkState ["brew"; "docker"; "colima"; "ddev"; "composer"] ["docker"]
          false false [] describe_json.


Definition generation_fails : state :=
  mkState ["brew"; "docker"; "colima"; "ddev"; "composer"] ["docker"]
          true false ["genu"] describe_json.


(** A project at [/p] whose settings file holds [content]. *)
Definition site (content : string) : World :=
  mkWorld
    (mkMachine
       (<["/p/web/sites/default/settings.ddev.php" := File content]>
          (default ∅ (fs.mkdir_all ∅ "/p/web/sites/default")))
       ready)
    [] [] [].

(** A settings file that names the sync directory twice. *)
Definition two_syncs : string :=
  "$a = 'sites/default/files/sync'; $b = 'sites/default/files/sync';".

End Demo.

(** ** What the further properties speak of

    Names for the commands of the installer, clean rooted paths, and
    what a run may be observed to do. *)

Section Observations.

Context {P : Platform}.

(** No byte of [e] is a separator. *)
Definition no_slash (e : string) : bool :=
  forallb (fun c => negb (Ascii.eqb c filepath.slash)) (bytes e).

(** A path element that [filepath.Clean] keeps as it is: not empty,
    neither [.] nor [..], without separator. *)
Definition is_normal (e : string) : bool :=
  negb (String.eqb e "") && negb (String.eqb e ".") && negb (String.eqb e "..")
  && no_slash e.

(** The rooted path made of the elements [comps]; the root for none. *)
Definition absolute (comps : list string) : string :=
  "/" +:+ strings.Join comps "/".

(** [sub] starts at some index of [s]. *)
Fixpoint contains (s sub : string) : bool :=
  strings.HasPrefix s sub ||
  match s with
  | EmptyString => false
  | String _ t => contains t sub
  end.

(** The path of the elements [rel] below the rooted path of [comps]. *)
Definition inside (comps rel : list string) : string := absolute (comps ++ rel).

Definition colima_status : Cmd := mkCmd "colima" ["status"] "" Discard.

Definition colima_start : Cmd := mkCmd "colima" ["start"] "" Inherit.

Definition ddev_version : Cmd := mkCmd "ddev" ["version"] "" CombinedOutput.

Definition ddev_config (projectPath : string) : Cmd :=
  mkCmd "ddev" ["config"; "--project-type=drupal11"; "--docroot=web"; "--create-docroot"]
        projectPath Inherit.

Definition config_import (projectPath : string) : Cmd :=
  mkCmd "ddev" ["drush"; "config:import"; "--partial"; "--yes"] projectPath Inherit.

(** The command of one round of the loop of [installDrupalDependencies]. *)
Definition ddev_in (projectPath : string) (pkg : list string) : Cmd :=
  mkCmd "ddev" pkg projectPath Inherit.

(** The machine after the commands [cs] ran one after the other. *)
Definition machine_after (cs : list Cmd) (m : Machine Ext) : Machine Ext :=
  fold_left (fun m c => snd (child c m)) cs m.

(** Every system call made by the run of [m] from [w] satisfies [Q]. *)
Definition run_only {A} (Q : syscall -> Prop) (m : IO A) (w : World) : Prop :=
  exists calls, trace (snd (m w)) = (trace w ++ calls)%list /\ Forall Q calls.

Definition calls_only {A} (Q : syscall -> Prop) (m : IO A) : Prop :=
  forall w, run_only Q m w.

(** [m] reads nothing from the standard input. *)
Definition keeps_stdin {A} (m : IO A) : Prop :=
  forall w, stdin (snd (m w)) = stdin w.

(** The system calls of a run whose project path is the rooted path of
    [comps]: the scaffold command creates that path; every other [ddev]
    command but [ddev version] runs in it; [brew], [docker] and [colima]
    run in the directory of the installer; every file-system call is on
    a path below it. *)
Definition at_project (comps : list string) (s : syscall) : Prop :=
  match s with
  | LookPath _ | Getwd => True
  | Start c =>
    c = composer_create (absolute comps) \/
    (cmd_name c = "ddev" /\ cmd_dir c = absolute comps) \/
    c = ddev_version \/
    (In (cmd_name c) ["brew"; "docker"; "colima"] /\ cmd_dir c = "")
  | MkdirAll q _ | ReadFile q | WriteFile q _ _ | Stat q =>
    exists rel,
      rel <> [] /\ Forall (fun x => is_normal x = true) rel /\ q = inside comps rel
  end.

(** The last line printed is an [ERROR] line. *)
Definition ends_in_error (w : World) : Prop :=
  exists msg, last (stdout w) = Some (error_line msg).

(** An ASCII byte that is no white space. *)
Definition plain (c : ascii) : bool :=
  (byte c <? utf8.RuneSelf) && negb (strings.asciiSpace (byte c)).

(** [s] begins and ends with a plain byte. *)
Definition trimmed (s : string) : bool :=
  match bytes s, rev (bytes s) with
  | c :: _, d :: _ => plain c && plain d
  | _, _ => false
  end.

Definition ddev_start (projectPath : string) : Cmd :=
  mkCmd "ddev" ["start"] projectPath Inherit.

Definition site_install (projectPath : string) : Cmd :=
  mkCmd "ddev"
    ["drush"; "site:install"; "standard"; "--yes";
     "--account-name=admin"; "--account-pass=admin";
     "--site-name=Super Awesome Site"]
    projectPath Inherit.

Definition enable_modules (projectPath : string) : Cmd :=
  mkCmd "ddev" (["drush"; "en"; "-y"] ++ modules) projectPath Inherit.

(** The system calls every completed run has made for the project at
    [p], in this order: the scaffold, the start of DDEV, the fifteen
    package commands, the directory and the three files of the settings
    step ([data] being the rewritten settings), the site install and the
    enabling of the modules. *)
Definition work_done (p data : string) : list syscall :=
  let cfg := filepath.Join [p; "config"; "sync"] in
  ([Start (composer_create p); Start (ddev_start p)]
   ++ map (fun pkg => Start (ddev_in p pkg)) packages
   ++ [MkdirAll cfg 493;
       WriteFile (filepath.Join [p; "web"; "sites"; "default"; "settings.ddev.php"])
                 data 420;
       WriteFile (filepath.Join [cfg; "environment_indicator.indicator.yml"])
                 configIndicatorYML 420;
       WriteFile (filepath.Join [cfg; "environment_indicator.settings.yml"])
                 configSettingsYML 420;
       Start (site_install p);
       Start (enable_modules p)])%list.

(** Any system call: [calls_only any_call m] says that [m] only adds to
    the trace. *)
Definition any_call (s : syscall) : Prop := True.

(** What lines 215 and 216 do to one ASCII byte. *)
Definition name_byte (c : ascii) : ascii := dash (strings.lower_byte c).

End Observations.

(** Further machines and worlds for the examples. *)
Module Cases.

(** No Homebrew on the search path. *)
Definition no_brew : Demo.state :=
  Demo.mkState ["docker"; "ddev"; "composer"] [] true false [] Demo.describe_json.

(** No Colima on the search path. *)
Definition no_colima : Demo.state :=
  Demo.mkState ["brew"; "docker"; "ddev"; "composer"] ["docker"]
               true false [] Demo.describe_json.

(** The package [drupal/token] cannot be installed. *)
Definition token_fails : Demo.state :=
  Demo.mkState ["brew"; "docker"; "colima"; "ddev"; "composer"] ["docker"]
               true false ["drupal/token"] Demo.describe_json.

(** The last package, [drupal/ultimate_cron], cannot be installed. *)
Definition cron_fails : Demo.state :=
  Demo.mkState ["brew"; "docker"; "colima"; "ddev"; "composer"] ["docker"]
               true false ["drupal/ultimate_cron:^2.0@beta"] Demo.describe_json.

(** A regular file where the directory [config] of the project [/p]
    would be. *)
Definition config_file : @World Demo.platform :=
  mkWorld (mkMachine (<["/p/config" := File ""]> (<["/p" := Dir]> ∅)) Demo.ready)
          [] [] [].

(** A regular file where the [.ddev] directory of the project [/p] would
    be. *)
Definition ddev_file : @World Demo.platform :=
  mkWorld (mkMachine (<["/p/.ddev" := File ""]> ∅) Demo.ready) [] [] [].

(** The three answers of a full run, typed line by line, and the same
    answers arriving in one read. *)
Definition typed : list string :=
  [Demo.line "1"; Demo.line "My Site"; Demo.line "n"].

Definition piped : list string :=
  [Demo.line "1" +:+ Demo.line "My Site" +:+ Demo.line "n"].

End Cases.

(** * Properties *)

(** ** The models on examples *)

Example TrimSpace_my_site : strings.TrimSpace "  My Site  " = "My Site".
Proof. reflexivity. Qed.

Example TrimSpace_line_feed : strings.TrimSpace (" 2 " +:+ LF) = "2".
Proof. reflexivity. Qed.

(** U+00A0 and U+2003 are white space, U+00E9 is not. *)
Example TrimSpace_unicode :
  strings.TrimSpace (utf8.EncodeRune 160 +:+ " é x " +:+ utf8.EncodeRune 8195)
  = "é x".
Proof. vm_compute. reflexivity. Qed.

Example ToLower_ascii : strings.ToLower Demo.lower_table "My Site" = "my site".
Proof. reflexivity. Qed.

(** With a table that lowers U+00C9 to U+00E9. *)
Example ToLower_unicode :
  strings.ToLower (fun r => if r =? 201 then 233 else r) "É Ab" = "é ab".
Proof. vm_compute. reflexivity. Qed.

Example ToLower_table :
  strings.ToLower Demo.lower_table "ŁÓDŹ ÉCOLE ΩΜΈΓΑ ДОМ" = "łódź école ωμέγα дом".
Proof. vm_compute. reflexivity. Qed.

(** The small letters of the table are in no run of capitals. *)
Lemma case_runs_checked :
  forallb (fun '(lo, hi, step, d) =>
             (0 <? step)
             && forallb (fun k => let x := lo + step * Z.of_nat k + d in
                                  unicode.ToLower Demo.lower_table x =? x)
                        (seq 0 (S (Z.to_nat ((hi - lo) / step)))))
          Demo.case_runs = true.
Proof. vm_compute. reflexivity. Qed.

(** The table of the example machine lowers no rune twice. *)
Lemma lower_table_twice r :
  127 < r ->
  unicode.ToLower Demo.lower_table (Demo.lower_table r) = Demo.lower_table r.
Proof.
  intros Hr. unfold Demo.lower_table at 2 3.
  destruct (List.find (Demo.in_run r) Demo.case_runs) as [[[[lo hi] step] d]|] eqn:F.
  - apply List.find_some in F as [Hin Hrun].
    pose proof case_runs_checked as C. rewrite List.forallb_forall in C.
    specialize (C _ Hin). cbv beta iota in C.
    apply andb_true_iff in C as [Hstep C]. apply Z.ltb_lt in Hstep.
    unfold Demo.in_run in Hrun.
    apply andb_true_iff in Hrun as [Hrun Hmod].
    apply andb_true_iff in Hrun as [Hlo Hhi].
    apply Z.leb_le in Hlo. apply Z.leb_le in Hhi. apply Z.eqb_eq in Hmod.
    rewrite List.forallb_forall in C.
    assert (Hk : 0 <= (r - lo) / step) by (apply Z.div_pos; lia).
    specialize (C (Z.to_nat ((r - lo) / step))).
    rewrite Z2Nat.id in C by exact Hk.
    replace (lo + step * ((r - lo) / step)) with r in C
      by (pose proof (Z.div_mod (r - lo) step ltac:(lia)); lia).
    cbv zeta in C. apply Z.eqb_eq. apply C.
    apply List.in_seq. split; [lia|].
    assert ((r - lo) / step <= (hi - lo) / step) by (apply Z.div_le_mono; lia).
    lia.
  - unfold unicode.ToLower.
    replace (r <=? 127) with false by (symmetry; apply Z.leb_gt; lia).
    unfold Demo.lower_table. now rewrite F.
Qed.

Example ReplaceAll_spaces : strings.ReplaceAll "my site name" " " "-" = "my-site-name".
Proof. reflexivity. Qed.

Example ReplaceAll_no_overlap : strings.ReplaceAll "aaa" "aa" "b" = "ba".
Proof. reflexivity. Qed.

Example ReplaceAll_empty_old : strings.ReplaceAll "ab" "" "-" = "-a-b-".
Proof. reflexivity. Qed.

Example Join_project :
  filepath.Join ["/Users/dev"; "my-site"; "config"; "sync"]
  = "/Users/dev/my-site/config/sync".
Proof. vm_compute. reflexivity. Qed.

Example Join_cleans : filepath.Join [""; "/a/b/"; "../c"; ""; "./d/"] = "/a/c/d".
Proof. vm_compute. reflexivity. Qed.

Example Unmarshal_null : json.Unmarshal (fun _ => true) "null" = Some ∅.
Proof. vm_compute. reflexivity. Qed.

Example Unmarshal_array : json.Unmarshal (fun _ => true) "[1]" = None.
Proof. vm_compute. reflexivity. Qed.

Example Unmarshal_trailing : json.Unmarshal (fun _ => true) "{} x" = None.
Proof. vm_compute. reflexivity. Qed.

(** The later of two equal keys wins. *)
Example Unmarshal_duplicate_key :
  option_map (fun m => m !! "a")
    (json.Unmarshal (fun _ => true)
       ("{" +:+ quoted "a" +:+ ":1," +:+ quoted "a" +:+ ":[true, null]}"))
  = Some (Some (json.Array [json.Bool true; json.Null])).
Proof. vm_compute. reflexivity. Qed.

(** A number that does not fit a [float64] makes the whole call fail. *)
Example Unmarshal_number_range :
  json.Unmarshal (fun lit => negb (String.eqb lit "1e999"))
    ("{" +:+ quoted "a" +:+ ":1e999}")
  = None.
Proof. vm_compute. reflexivity. Qed.

Example unquote_escapes :
  json.unquote (bytes "café\n\/") = Some ("café" +:+ LF +:+ "/").
Proof. vm_compute. reflexivity. Qed.

(** A line typed in two pieces; what follows the line feed is lost. *)
Example read_line_chunks :
  read_line "" ["My "; "Site" +:+ LF +:+ "lost"; "next"] = ("My Site" +:+ LF, ["next"]).
Proof. vm_compute. reflexivity. Qed.

(** Everything installed and running, the answers "1", "  My Site  " and
    "n": the run succeeds and installs nothing. *)
Example run_all_present :
  let w := Demo.world Demo.ready [Demo.line "1"; Demo.line "  My Site  "; Demo.line "n"] in
  fst (main w) = Done tt /\
  existsb (fun c => match c with
                    | Start (mkCmd "brew" ("install" :: _) _ _) => true
                    | _ => false
                    end) (trace (snd (main w))) = false /\
  In (Start (composer_create "/Users/dev/my-site")) (trace (snd (main w))).
Proof.
  cbv zeta. split; [vm_compute; reflexivity|].
  split; [vm_compute; reflexivity|].
  vm_compute. tauto.
Qed.

(** The answer "y" and a failing generation command: a warning, and the
    run still succeeds. *)
Example run_generation_fails :
  let w := Demo.world Demo.generation_fails
             [Demo.line "1"; Demo.line "site"; Demo.line "Y"] in
  exit_code (fst (main w)) = 0 /\
  In (warning_line "Content generation failed, but continuing...")
     (stdout (snd (main w))).
Proof.
  cbv zeta. split; [vm_compute; reflexivity|].
  vm_compute. tauto.
Qed.

(** ** Bytes and strings *)

Lemma byte_range c : 0 <= byte c < 256.
Proof.
  unfold byte. pose proof (N_ascii_bounded c). lia.
Qed.

Lemma byte_chr z : byte (chr z) = z mod 256.
Proof.
  unfold byte, chr.
  rewrite N_ascii_embedding.
  - apply Z2N.id. apply Z.mod_pos_bound. lia.
  - pose proof (Z.mod_pos_bound z 256 ltac:(lia)). lia.
Qed.

Lemma byte_chr_small z : 0 <= z < 256 -> byte (chr z) = z.
Proof. intros H. rewrite byte_chr. apply Z.mod_small. lia. Qed.

Lemma high_bit v : 0 <= v < 256 -> Z.testbit v 7 = true -> 128 <= v.
Proof.
  intros Hv Hb. apply Z.testbit_true in Hb; [|lia].
  change (2 ^ 7) with 128 in Hb.
  destruct (Z_lt_le_dec v 128) as [Hlt|]; [|lia].
  rewrite Z.div_small in Hb by lia. discriminate.
Qed.

Lemma byte_chr_lor k x :
  Z.testbit k 7 = true -> 128 <= byte (chr (Z.lor k x)).
Proof.
  intros Hk. rewrite byte_chr.
  apply high_bit.
  - apply Z.mod_pos_bound. lia.
  - change 256 with (2 ^ 8). rewrite Z.mod_pow2_bits_low by lia.
    rewrite Z.lor_spec, Hk. reflexivity.
Qed.

Lemma append_nil t : "" +:+ t = t.
Proof. reflexivity. Qed.

Lemma append_cons c s t : String c s +:+ t = String c (s +:+ t).
Proof. reflexivity. Qed.

Lemma append_length s t :
  String.length (s +:+ t) = (String.length s + String.length t)%nat.
Proof.
  induction s as [|c s IH]; [reflexivity|].
  rewrite append_cons. cbn [String.length]. now rewrite IH.
Qed.

Lemma append_assoc s t u : (s +:+ t) +:+ u = s +:+ (t +:+ u).
Proof.
  induction s as [|c s IH]; [reflexivity|].
  rewrite !append_cons. now rewrite IH.
Qed.

Lemma bytes_of_bytes l : bytes (of_bytes l) = l.
Proof. apply list_ascii_of_string_of_list_ascii. Qed.

Lemma of_bytes_bytes s : of_bytes (bytes s) = s.
Proof. apply string_of_list_ascii_of_string. Qed.

Lemma bytes_app s t : bytes (s +:+ t) = (bytes s ++ bytes t)%list.
Proof. induction s as [|c s IH]; simpl; [reflexivity|]. unfold bytes in *. simpl. now rewrite IH. Qed.

(** ** [strings.ToLower] leaves no ASCII capital *)

#[local] Arguments utf8.DecodeRuneInString : simpl never.
#[local] Arguments utf8.EncodeRune : simpl never.

Lemma no_capital_app s t : no_capital s -> no_capital t -> no_capital (s +:+ t).
Proof.
  unfold no_capital. rewrite bytes_app. intros. now apply Forall_app.
Qed.

Lemma no_capital_nil : no_capital "".
Proof. constructor. Qed.

Lemma no_capital_cons c s :
  ~ (65 <= byte c <= 90) -> no_capital s -> no_capital (String c s).
Proof. intros. now constructor. Qed.

Lemma no_capital_high k x s :
  Z.testbit k 7 = true -> no_capital s -> no_capital (String (chr (Z.lor k x)) s).
Proof.
  intros Hk Hs. apply no_capital_cons; [|exact Hs].
  pose proof (byte_chr_lor k x Hk). lia.
Qed.

Lemma EncodeRune_no_capital r :
  ~ (65 <= r <= 90) -> no_capital (utf8.EncodeRune r).
Proof.
  intros Hr. unfold utf8.EncodeRune, utf8.encode3.
  destruct ((0 <=? r) && (r <=? 127)) eqn:H1.
  - apply andb_true_iff in H1 as [Ha Hb].
    apply Z.leb_le in Ha. apply Z.leb_le in Hb.
    apply no_capital_cons; [|apply no_capital_nil].
    rewrite byte_chr_small by lia. exact Hr.
  - repeat match goal with
           | |- context [if ?b then _ else _] => destruct b
           end;
    repeat (apply no_capital_high; [reflexivity|]); apply no_capital_nil.
Qed.

Lemma unicode_ToLower_not_upper (low : Z -> Z) r :
  (forall x, 127 < x -> ~ (65 <= low x <= 90)) ->
  ~ (65 <= unicode.ToLower low r <= 90).
Proof.
  intros Hlow. unfold unicode.ToLower.
  destruct (r <=? 127) eqn:H1.
  - destruct ((65 <=? r) && (r <=? 90)) eqn:H2.
    + apply andb_true_iff in H2 as [Ha Hb].
      apply Z.leb_le in Ha. apply Z.leb_le in Hb. lia.
    + apply andb_false_iff in H2 as [Ha|Hb].
      * apply Z.leb_gt in Ha. lia.
      * apply Z.leb_gt in Hb. lia.
  - apply Z.leb_gt in H1. apply Hlow. lia.
Qed.

Lemma between_true lo hi b : utf8.between lo hi b = true -> lo <= b <= hi.
Proof. unfold utf8.between. intros H. apply andb_true_iff in H as [H1 H2]. lia. Qed.

Lemma cont_high b : utf8.cont b = true -> 128 <= b.
Proof. unfold utf8.cont. intros H. apply andb_true_iff in H as [H1 H2]. lia. Qed.

Lemma second_ok_high b0 b1 : utf8.second_ok b0 b1 = true -> 128 <= b1.
Proof.
  unfold utf8.second_ok.
  repeat match goal with |- context [if ?c then _ else _] => destruct c end;
    intros H; apply between_true in H; lia.
Qed.

(** What a decoded rune says about the bytes it was read from: one byte,
    which is the rune when it is ASCII, or several bytes none of which
    is ASCII. *)
Lemma decode_bytes b t c size :
  utf8.DecodeRuneInString (String b t) = (c, size) ->
  (size = 1%nat /\ (byte b < 128 -> c = byte b)) \/
  (exists k, size = S (S k) /\ 128 <= byte b /\ high (S k) t).
Proof.
  unfold utf8.DecodeRuneInString, utf8.RuneSelf.
  destruct (byte b <? 128) eqn:Hb.
  { intros [= <- <-]. left. split; [reflexivity|intros _; reflexivity]. }
  apply Z.ltb_ge in Hb.
  assert (Hone : forall r, (r, 1%nat) = (c, size) ->
     (size = 1%nat /\ (byte b < 128 -> c = byte b)) \/
     (exists k, size = S (S k) /\ 128 <= byte b /\ high (S k) t)).
  { intros r [= <- <-]. left. split; [reflexivity|lia]. }
  destruct (utf8.between 194 223 (byte b)).
  { destruct t as [|c1 t1]; [apply Hone|].
    destruct (utf8.second_ok (byte b) (byte c1)) eqn:H1; [|apply Hone].
    intros [= <- <-]. right. exists 0%nat. repeat split; try lia.
    now apply second_ok_high in H1. }
  destruct (utf8.between 224 239 (byte b)).
  { destruct t as [|c1 [|c2 t2]]; try apply Hone.
    destruct (utf8.second_ok (byte b) (byte c1) && utf8.cont (byte c2)) eqn:H1;
      [|apply Hone].
    apply andb_true_iff in H1 as [H1 H2].
    intros [= <- <-]. right. exists 1%nat. repeat split; try lia.
    - now apply second_ok_high in H1.
    - now apply cont_high in H2. }
  destruct (utf8.between 240 244 (byte b)); [|apply Hone].
  destruct t as [|c1 [|c2 [|c3 t3]]]; try apply Hone.
  destruct (utf8.second_ok (byte b) (byte c1) && utf8.cont (byte c2)
            && utf8.cont (byte c3)) eqn:H1; [|apply Hone].
  apply andb_true_iff in H1 as [H1 H3]. apply andb_true_iff in H1 as [H1 H2].
  intros [= <- <-]. right. exists 2%nat. repeat split; try lia.
  - now apply second_ok_high in H1.
  - now apply cont_high in H2.
  - now apply cont_high in H3.
Qed.

Lemma Map_go_no_capital (f : Z -> Z) :
  (forall r, ~ (65 <= f r <= 90)) ->
  forall s changed p,
    (forall k, p = strings.Keep k -> high k s) ->
    no_capital (strings.Map_go f changed p s).
Proof.
  intros Hf. induction s as [|b t IH]; intros changed p Hp; [apply no_capital_nil|].
  cbn [strings.Map_go].
  assert (Hrune :
    no_capital
      (let '(c, size) := utf8.DecodeRuneInString (String b t) in
       let r := f c in
       let image := if 0 <=? r then utf8.EncodeRune r else "" in
       if changed then image +:+ strings.Map_go f true (strings.Drop (size - 1)) t
       else if (r =? c) && negb ((c =? utf8.RuneError) && Nat.eqb size 1)
            then String b (strings.Map_go f false (strings.Keep (size - 1)) t)
            else let width := if c =? utf8.RuneError then size
                              else Z.to_nat (utf8.RuneLen c) in
                 image +:+ strings.Map_go f true (strings.Drop (width - 1)) t)).
  { destruct (utf8.DecodeRuneInString (String b t)) as [c size] eqn:Hdec.
    cbv zeta.
    assert (Himage : no_capital (if 0 <=? f c then utf8.EncodeRune (f c) else "")).
    { destruct (0 <=? f c); [|apply no_capital_nil].
      apply EncodeRune_no_capital, Hf. }
    assert (Hdrop : forall q k, no_capital (strings.Map_go f q (strings.Drop k) t)).
    { intros q k. apply IH. intros k' [=]. }
    destruct changed; [apply no_capital_app; [exact Himage|apply Hdrop]|].
    destruct ((f c =? c) && negb ((c =? utf8.RuneError) && Nat.eqb size 1)) eqn:Hsame;
      [|apply no_capital_app; [exact Himage|apply Hdrop]].
    apply andb_true_iff in Hsame as [Hfc _]. apply Z.eqb_eq in Hfc.
    pose proof (Hf c) as Hc. rewrite Hfc in Hc.
    destruct (decode_bytes b t c size Hdec) as [[-> Hascii]|(k & -> & Hb & Hhigh)].
    - apply no_capital_cons.
      + destruct (Z_lt_le_dec (byte b) 128) as [Hlt|Hge]; [|lia].
        now rewrite <- (Hascii Hlt).
      + apply IH. intros k [= <-]. exact I.
    - apply no_capital_cons; [lia|].
      replace (S (S k) - 1)%nat with (S k) by lia.
      apply IH. intros k' [= <-]. exact Hhigh. }
  destruct p as [[|k]|[|k]]; try exact Hrune.
  - specialize (Hp (S k) eq_refl). destruct Hp as [Hb Hk].
    apply no_capital_cons; [lia|]. apply IH. now intros k' [= <-].
  - apply IH. intros k' [=].
Qed.

Lemma lower_byte_not_upper c : ~ (65 <= byte (strings.lower_byte c) <= 90).
Proof.
  unfold strings.lower_byte.
  destruct ((65 <=? byte c) && (byte c <=? 90)) eqn:H.
  - apply andb_true_iff in H as [Ha Hb].
    apply Z.leb_le in Ha. apply Z.leb_le in Hb.
    rewrite byte_chr_small by lia. lia.
  - apply andb_false_iff in H as [Ha|Hb].
    + apply Z.leb_gt in Ha. lia.
    + apply Z.leb_gt in Hb. lia.
Qed.

Lemma ToLower_no_capital (low : Z -> Z) s :
  (forall x, 127 < x -> ~ (65 <= low x <= 90)) ->
  no_capital (strings.ToLower low s).
Proof.
  intros Hlow. unfold strings.ToLower.
  destruct (strings.isASCII s).
  - unfold no_capital. rewrite bytes_of_bytes.
    induction (bytes s) as [|c l IH]; simpl; constructor;
      [apply lower_byte_not_upper|exact IH].
  - apply Map_go_no_capital.
    + intros r. now apply unicode_ToLower_not_upper.
    + intros k [= <-]. exact I.
Qed.

(** ** [strings.ReplaceAll] *)

Lemma Replace_go_bytes (Q : ascii -> Prop) old new :
  Forall Q (bytes new) ->
  forall s skip, Forall Q (bytes s) -> Forall Q (bytes (strings.Replace_go old new skip s)).
Proof.
  intros Hnew. induction s as [|c t IH]; intros skip Hs; simpl.
  - constructor.
  - assert (Ht : Forall Q (bytes t)) by (now inversion Hs).
    assert (Hc : Q c) by (now inversion Hs).
    destruct skip as [|k]; [|now apply IH].
    destruct (strings.HasPrefix (String c t) old).
    + rewrite bytes_app. apply Forall_app. split; [exact Hnew|now apply IH].
    + constructor; [exact Hc|now apply IH].
Qed.

Lemma dash_for_space_no_space s skip :
  no_space (strings.Replace_go " " "-" skip s).
Proof.
  revert skip. induction s as [|c t IH]; intros skip.
  - constructor.
  - cbn [strings.Replace_go]. destruct skip as [|k]; [|apply IH].
    cbn [strings.HasPrefix String.length Nat.sub].
    destruct (Ascii.eqb " " c) eqn:Hc.
    + rewrite append_cons, append_nil. constructor; [discriminate|apply IH].
    + constructor; [|apply IH].
      intros Hb. apply Ascii.eqb_neq in Hc. apply Hc.
      unfold byte in Hb.
      assert (H : N_of_ascii c = 32%N) by lia.
      rewrite <- (ascii_N_embedding c), H. reflexivity.
Qed.

Lemma Replace_go_dash s :
  strings.Replace_go " " "-" 0 s = of_bytes (map dash (bytes s)).
Proof.
  induction s as [|c t IH]; [reflexivity|].
  cbn [strings.Replace_go strings.HasPrefix String.length Nat.sub].
  change (bytes (String c t)) with (c :: bytes t).
  cbn [map of_bytes string_of_list_ascii]. fold (of_bytes (map dash (bytes t))).
  rewrite <- IH. unfold dash.
  destruct (Ascii.eqb " " c); [now rewrite append_cons, append_nil|reflexivity].
Qed.

Lemma blank_bytes_ascii c :
  strings.asciiSpace (byte c) = true -> (utf8.RuneSelf <=? byte c) = false.
Proof.
  unfold strings.asciiSpace, utf8.RuneSelf. intros H.
  apply Z.leb_gt.
  repeat (apply orb_true_iff in H as [H|H]); apply Z.eqb_eq in H; lia.
Qed.

Lemma skip_spaces_blank l :
  Forall (fun c => strings.asciiSpace (byte c) = true) l ->
  strings.skip_spaces l = strings.Stop [].
Proof.
  induction 1 as [|c l Hc _ IH]; simpl; [reflexivity|].
  now rewrite (blank_bytes_ascii c Hc), Hc.
Qed.

Lemma TrimSpace_blank s : blank s -> strings.TrimSpace s = "".
Proof.
  intros H. unfold strings.TrimSpace.
  now rewrite (skip_spaces_blank _ H).
Qed.

(** ** White space *)

(** The runes [unicode.IsSpace] accepts. *)
Lemma IsSpace_cases r :
  unicode.IsSpace r = true ->
  In r [9; 10; 11; 12; 13; 32; 133; 160; 5760; 8192; 8193; 8194; 8195; 8196;
        8197; 8198; 8199; 8200; 8201; 8202; 8232; 8233; 8239; 8287; 12288].
Proof.
  unfold unicode.IsSpace, utf8.between. intros H.
  destruct ((0 <=? r) && (r <=? 255)).
  - repeat (apply orb_true_iff in H as [H|H]); apply Z.eqb_eq in H; subst r;
      cbn [In]; tauto.
  - assert (Hr : r = 5760 \/ (8192 <= r <= 8202) \/ r = 8232 \/ r = 8233 \/
                 r = 8239 \/ r = 8287 \/ r = 12288).
    { repeat (apply orb_true_iff in H as [H|H]);
        try (apply Z.eqb_eq in H; tauto).
      apply andb_true_iff in H as [H1 H2]. lia. }
    assert (Hrange : 8192 <= r <= 8202 ->
                     r = 8192 \/ r = 8193 \/ r = 8194 \/ r = 8195 \/ r = 8196 \/
                     r = 8197 \/ r = 8198 \/ r = 8199 \/ r = 8200 \/ r = 8201 \/
                     r = 8202) by lia.
    cbn [In]. intuition (subst; tauto).
Qed.

(** A white-space rune is read back from its encoding, whatever follows. *)
Lemma decode_space r t :
  unicode.IsSpace r = true ->
  utf8.EncodeRune r <> "" /\
  utf8.DecodeRuneInString (utf8.EncodeRune r +:+ t)
  = (r, String.length (utf8.EncodeRune r)) /\
  (r < 128 -> utf8.EncodeRune r = String (chr r) "" /\ strings.asciiSpace r = true) /\
  (128 <= r -> exists b rest, utf8.EncodeRune r = String b rest /\ 128 <= byte b).
Proof.
  intros H. apply IsSpace_cases in H. cbn [In] in H.
  repeat (destruct H as [<-|H];
          [split; [discriminate|]; split; [reflexivity|];
           split;
           [intros Hlt; first [exfalso; lia|split; reflexivity]
           |intros Hge; first [exfalso; lia
                              |eexists _, _; split; [reflexivity|];
                               vm_compute; discriminate]]|]).
  destruct H.
Qed.

Lemma TrimLeft_go_skip f a s :
  strings.TrimLeft_go f (String.length a) (a +:+ s) = strings.TrimLeft_go f 0 s.
Proof.
  induction a as [|c a IH]; [reflexivity|].
  rewrite append_cons. cbn [String.length strings.TrimLeft_go]. exact IH.
Qed.

Lemma TrimLeft_go_white runes :
  Forall (fun r => unicode.IsSpace r = true) runes ->
  strings.TrimLeft_go unicode.IsSpace 0 (encode_all runes) = None.
Proof.
  induction 1 as [|r rest Hr _ IH]; [reflexivity|].
  cbn [encode_all].
  destruct (decode_space r (encode_all rest) Hr) as (Hne & Hdec & _).
  destruct (utf8.EncodeRune r) as [|b a] eqn:He; [contradiction|].
  rewrite append_cons in *. cbn [strings.TrimLeft_go].
  rewrite Hdec, Hr. cbn [String.length].
  replace (S (String.length a) - 1)%nat with (String.length a) by lia.
  now rewrite TrimLeft_go_skip.
Qed.

Lemma skip_spaces_white runes :
  Forall (fun r => unicode.IsSpace r = true) runes ->
  strings.skip_spaces (bytes (encode_all runes)) = strings.Stop [] \/
  exists runes',
    Forall (fun r => unicode.IsSpace r = true) runes' /\
    strings.skip_spaces (bytes (encode_all runes))
    = strings.Slow (bytes (encode_all runes')).
Proof.
  induction 1 as [|r rest Hr Hrest IH]; [now left|].
  cbn [encode_all].
  destruct (decode_space r (encode_all rest) Hr) as (_ & _ & Hlow & Hhigh).
  destruct (Z_lt_le_dec r 128) as [Hlt|Hge].
  - destruct (Hlow Hlt) as [He Hsp]. rewrite He, append_cons, append_nil.
    assert (Hb : byte (chr r) = r).
    { apply byte_chr_small. unfold strings.asciiSpace in Hsp.
      repeat (apply orb_true_iff in Hsp as [Hsp|Hsp]); apply Z.eqb_eq in Hsp; lia. }
    change (bytes (String (chr r) (encode_all rest)))
      with (chr r :: bytes (encode_all rest)).
    cbn [strings.skip_spaces]. rewrite Hb, Hsp.
    replace (utf8.RuneSelf <=? r) with false
      by (symmetry; apply Z.leb_gt; unfold utf8.RuneSelf; lia).
    exact IH.
  - destruct (Hhigh Hge) as (b & a & He & Hb). right. exists (r :: rest).
    split; [now constructor|]. cbn [encode_all]. rewrite He, append_cons.
    change (bytes (String b (a +:+ encode_all rest)))
      with (b :: bytes (a +:+ encode_all rest)).
    cbn [strings.skip_spaces].
    replace (utf8.RuneSelf <=? byte b) with true
      by (symmetry; apply Z.leb_le; unfold utf8.RuneSelf; lia).
    reflexivity.
Qed.

(** A line of Unicode white space trims to the empty string. *)
Lemma TrimSpace_white s : white s -> strings.TrimSpace s = "".
Proof.
  intros (runes & Hall & ->). unfold strings.TrimSpace.
  destruct (skip_spaces_white runes Hall) as [->|(runes' & Hall' & ->)];
    [reflexivity|].
  rewrite of_bytes_bytes. unfold strings.TrimFunc, strings.TrimLeftFunc.
  now rewrite (TrimLeft_go_white runes' Hall').
Qed.

Lemma blank_white s : blank s -> white s.
Proof.
  intros H. exists (map byte (bytes s)). split.
  - induction H as [|c l Hc _ IH]; constructor; [|exact IH].
    unfold unicode.IsSpace, strings.asciiSpace in *.
    repeat (apply orb_true_iff in Hc as [Hc|Hc]); apply Z.eqb_eq in Hc; now rewrite Hc.
  - rewrite <- (of_bytes_bytes s) at 1.
    induction H as [|c l Hc _ IH]; [reflexivity|].
    cbn [map encode_all of_bytes string_of_list_ascii]. fold (of_bytes l). rewrite IH.
    assert (He : utf8.EncodeRune (byte c) = String c "").
    { unfold utf8.EncodeRune.
      pose proof (blank_bytes_ascii c Hc) as Hlt. apply Z.leb_gt in Hlt.
      unfold utf8.RuneSelf in Hlt. pose proof (byte_range c).
      replace ((0 <=? byte c) && (byte c <=? 127)) with true
        by (symmetry; apply andb_true_iff; split; apply Z.leb_le; lia).
      f_equal. unfold chr, byte. rewrite Z.mod_small by (unfold byte in *; lia).
      rewrite N2Z.id. apply ascii_N_embedding. }
    now rewrite He.
Qed.

(** ** Running computations step by step *)

Section Execution.

Context {P : Platform}.

Lemma bind_ret {A B} (a : A) (k : A -> IO B) w : bind (ret a) k w = k a w.
Proof. reflexivity. Qed.

Lemma bind_bind {A B C} (m : IO A) (f : A -> IO B) (g : B -> IO C) w :
  bind (bind m f) g w = bind m (fun x => bind (f x) g) w.
Proof. unfold bind. destruct (m w) as [[a|c|msg] w']; reflexivity. Qed.

Lemma bind_Print {B} s (k : unit -> IO B) w :
  bind (fmt_Print s) k w = k tt (say s w).
Proof. reflexivity. Qed.

Lemma bind_ReadString {B} (k : string -> IO B) w :
  bind ReadString k w
  = k (next_line w) (set_stdin (snd (read_line "" (stdin w))) w).
Proof. reflexivity. Qed.

Lemma bind_LookPath {B} file (k : bool -> IO B) w :
  bind (exec_LookPath file) k w
  = k (on_path file (machine w)) (log (LookPath file) w).
Proof. reflexivity. Qed.

Lemma bind_Run {B} c (k : ProcResult -> IO B) w :
  bind (cmd_Run c) k w
  = k (fst (child c (machine w)))
      (set_machine (snd (child c (machine w))) (log (Start c) w)).
Proof. reflexivity. Qed.

Lemma bind_Getwd {B} (k : string * option error -> IO B) w :
  bind os_Getwd k w = k (getwd (machine w)) (log Getwd w).
Proof. reflexivity. Qed.

Lemma bind_MkdirAll {B} path perm (k : option error -> IO B) w :
  bind (os_MkdirAll path perm) k w
  = k (fst (mkdir_all (machine w) path perm))
      (set_machine (snd (mkdir_all (machine w) path perm))
                   (log (MkdirAll path perm) w)).
Proof. reflexivity. Qed.

Lemma bind_ReadFile {B} path (k : string * option error -> IO B) w :
  bind (os_ReadFile path) k w
  = k (read_file (machine w) path) (log (ReadFile path) w).
Proof. reflexivity. Qed.

Lemma bind_WriteFile {B} path data perm (k : option error -> IO B) w :
  bind (os_WriteFile path data perm) k w
  = k (fst (write_file (machine w) path data perm))
      (set_machine (snd (write_file (machine w) path data perm))
                   (log (WriteFile path data perm) w)).
Proof. reflexivity. Qed.

Lemma bind_Stat {B} path (k : option error -> IO B) w :
  bind (os_Stat path) k w = k (stat (machine w) path) (log (Stat path) w).
Proof. reflexivity. Qed.

Lemma run_ret {A} (a : A) w : ret a w = (Done a, w).
Proof. reflexivity. Qed.

Lemma run_Print s w : fmt_Print s w = (Done tt, say s w).
Proof. reflexivity. Qed.

Lemma run_if {A} (b : bool) (m1 m2 : IO A) w :
  (if b then m1 else m2) w = if b then m1 w else m2 w.
Proof. now destruct b. Qed.

Lemma next_line_say s w : next_line (say s w) = next_line w.
Proof. reflexivity. Qed.

Lemma next_line_log e w : next_line (log e w) = next_line w.
Proof. reflexivity. Qed.

Lemma next_line_set_machine m w : next_line (set_machine m w) = next_line w.
Proof. reflexivity. Qed.

End Execution.

(** One step of a computation applied to a world. *)
Ltac io_step :=
  first
    [ rewrite bind_bind | rewrite bind_ret | rewrite bind_Print
    | rewrite bind_ReadString | rewrite bind_LookPath | rewrite bind_Run
    | rewrite bind_Getwd | rewrite bind_MkdirAll | rewrite bind_ReadFile
    | rewrite bind_WriteFile | rewrite bind_Stat
    | rewrite run_ret | rewrite run_Print ].

Ltac io_prints :=
  unfold printStatus, printSuccess, printWarning, printError, fmt_Println,
    commandExists, runCommand, runCommandOutput, brewPackageInstalled.

Ltac world_simpl :=
  cbn [machine stdin stdout trace log say set_stdin set_machine fst snd].

(** All the steps up to the next choice; projections of the world are
    computed, strings are left alone. *)
Ltac io_run :=
  io_prints;
  repeat first
    [ io_step
    | progress cbv beta iota
    | progress rewrite ?next_line_say, ?next_line_log, ?next_line_set_machine
    | progress cbn [machine stdin stdout trace log say set_stdin set_machine fst snd] ].

(** ** UTF-8: decoding what was encoded *)

(** Bits that do not overlap add up. *)
Lemma lor_add K m x :
  0 <= m -> Z.land K (Z.ones m) = 0 -> 0 <= x < 2 ^ m -> Z.lor K x = K + x.
Proof.
  intros Hm HK Hx.
  assert (Hz : Z.land K x = 0).
  { rewrite <- (Z.mod_small x (2 ^ m)) by lia.
    rewrite <- Z.land_ones by lia.
    now rewrite (Z.land_comm x), Z.land_assoc, HK, Z.land_0_l. }
  pose proof (Z.add_lor_land K x) as H. rewrite Hz in H. lia.
Qed.

Lemma land_add K m x :
  0 <= m -> Z.land K (Z.ones m) = 0 -> 0 <= x < 2 ^ m ->
  Z.land (K + x) (Z.ones m) = x.
Proof.
  intros Hm HK Hx. rewrite <- (lor_add K m x Hm HK Hx).
  rewrite Z.land_lor_distr_l, HK, Z.lor_0_l, Z.land_ones by lia.
  apply Z.mod_small. lia.
Qed.

Lemma shiftl_low a m : 0 <= m -> Z.land (Z.shiftl a m) (Z.ones m) = 0.
Proof.
  intros Hm. rewrite Z.land_ones, Z.shiftl_mul_pow2 by lia.
  apply Z_mod_mult.
Qed.

(** A leading byte and a continuation byte, by value. *)
Lemma lead_byte K m x :
  0 <= m -> Z.land K (Z.ones m) = 0 -> 0 <= x < 2 ^ m -> 0 <= K -> K + 2 ^ m <= 256 ->
  byte (chr (Z.lor K x)) = K + x.
Proof.
  intros Hm HK Hx H0 H256. rewrite (lor_add K m x Hm HK Hx).
  apply byte_chr_small. lia.
Qed.

Lemma six_bits r : 0 <= Z.land r 63 < 2 ^ 6.
Proof.
  change 63 with (Z.ones 6). rewrite Z.land_ones by lia.
  apply Z.mod_pos_bound. lia.
Qed.

Lemma cont_byte x :
  byte (chr (Z.lor 128 (Z.land x 63))) = 128 + Z.land x 63.
Proof. apply (lead_byte 128 6); try reflexivity; try lia. apply six_bits. Qed.

Lemma cont_bits x :
  Z.land (128 + Z.land x 63) 63 = Z.land x 63.
Proof. apply (land_add 128 6); try reflexivity; try lia. apply six_bits. Qed.

Lemma cont_cont x : utf8.cont (128 + Z.land x 63) = true.
Proof.
  pose proof (six_bits x) as H. change (2 ^ 6) with 64 in H.
  unfold utf8.cont. apply andb_true_iff. split; apply Z.leb_le; lia.
Qed.

(** Putting a number together again from its low six bits and the
    rest. *)
Lemma join_six a d :
  0 <= d < 2 ^ 6 -> Z.lor (Z.shiftl a 6) d = a * 64 + d.
Proof.
  intros Hd. rewrite (lor_add (Z.shiftl a 6) 6 d); try lia.
  - now rewrite Z.shiftl_mul_pow2 by lia.
  - apply shiftl_low. lia.
Qed.

Lemma split_six r : (r / 64) * 64 + Z.land r 63 = r.
Proof.
  change 63 with (Z.ones 6). rewrite Z.land_ones by lia.
  change (2 ^ 6) with 64. pose proof (Z.div_mod r 64). lia.
Qed.

Lemma land_63 r : Z.land r 63 = r mod 64.
Proof. change 63 with (Z.ones 6). now rewrite Z.land_ones by lia. Qed.

Lemma lor_mul k m x :
  0 <= m -> 0 <= x < 2 ^ m -> Z.lor (k * 2 ^ m) x = k * 2 ^ m + x.
Proof.
  intros Hm Hx. apply (lor_add _ m); try assumption.
  rewrite Z.land_ones by lia. apply Z_mod_mult.
Qed.

(** Settles the comparisons of the goal that linear arithmetic
    decides. *)
Ltac settle :=
  repeat match goal with
         | |- context [?a <=? ?b] =>
           first [ replace (a <=? b) with true by (symmetry; apply Z.leb_le; lia)
                 | replace (a <=? b) with false by (symmetry; apply Z.leb_gt; lia) ]
         | |- context [?a <? ?b] =>
           first [ replace (a <? b) with true by (symmetry; apply Z.ltb_lt; lia)
                 | replace (a <? b) with false by (symmetry; apply Z.ltb_ge; lia) ]
         | |- context [?a =? ?b] =>
           first [ replace (a =? b) with true by (symmetry; apply Z.eqb_eq; lia)
                 | replace (a =? b) with false by (symmetry; apply Z.eqb_neq; lia) ]
         end;
  cbn [andb orb negb].

Lemma valid_rune_range r :
  valid_rune r = true -> 0 <= r <= 1114111 /\ (r < 55296 \/ 57343 < r).
Proof.
  unfold valid_rune, utf8.MaxRune, utf8.between. intros Hv.
  apply andb_true_iff in Hv as [Hv Hs]. apply andb_true_iff in Hv as [H0 Hmax].
  apply Z.leb_le in H0. apply Z.leb_le in Hmax.
  apply negb_true_iff, andb_false_iff in Hs.
  split; [lia|]. destruct Hs as [H|H]; apply Z.leb_gt in H; lia.
Qed.

Lemma decode_encode r rest :
  valid_rune r = true ->
  utf8.DecodeRuneInString (utf8.EncodeRune r +:+ rest)
  = (r, String.length (utf8.EncodeRune r)).
Proof.
  intros Hv. apply valid_rune_range in Hv as [[H0 Hmax] Hsur].
  unfold utf8.EncodeRune, utf8.encode3, utf8.MaxRune, utf8.between.
  destruct (Z.leb_spec r 127) as [H1|H1].
  { settle. rewrite append_cons, append_nil.
    unfold utf8.DecodeRuneInString, utf8.RuneSelf.
    rewrite byte_chr_small by lia. now settle. }
  destruct (Z.leb_spec r 2047) as [H2|H2].
  { settle. rewrite !append_cons, append_nil. cbn [String.length].
    unfold utf8.DecodeRuneInString, utf8.RuneSelf, utf8.between, utf8.second_ok.
    rewrite Z.shiftr_div_pow2 by lia. change (2 ^ 6) with 64.
    assert (Ha : 2 <= r / 64 < 32)
      by (split; [apply Z.div_le_lower_bound|apply Z.div_lt_upper_bound]; lia).
    rewrite (lead_byte 192 5 (r / 64)) by (try reflexivity; lia).
    rewrite cont_byte. settle. rewrite cont_cont, cont_bits.
    change 31 with (Z.ones 5).
    rewrite (land_add 192 5 (r / 64)) by (try reflexivity; lia).
    rewrite join_six by apply six_bits. now rewrite split_six. }
  destruct (Z.leb_spec r 65535) as [H3|H3].
  { assert (Hnot : (55296 <=? r) && (r <=? 57343) = false)
      by (apply andb_false_iff; destruct Hsur; [left|right]; apply Z.leb_gt; lia).
    rewrite Hnot. settle. rewrite !append_cons, append_nil. cbn [String.length].
    unfold utf8.DecodeRuneInString, utf8.RuneSelf, utf8.between, utf8.second_ok.
    rewrite !Z.shiftr_div_pow2 by lia. change (2 ^ 6) with 64. change (2 ^ 12) with 4096.
    assert (Ha : 0 <= r / 4096 < 16)
      by (split; [apply Z.div_le_lower_bound|apply Z.div_lt_upper_bound]; lia).
    assert (Hb : 0 <= (r / 64) mod 64 < 64) by (apply Z.mod_pos_bound; lia).
    assert (Hc : 0 <= r mod 64 < 64) by (apply Z.mod_pos_bound; lia).
    assert (Hr : r = r / 4096 * 4096 + (r / 64) mod 64 * 64 + r mod 64)
      by (Z.to_euclidean_division_equations; lia).
    rewrite (lead_byte 224 4 (r / 4096)) by (try reflexivity; lia).
    rewrite !cont_byte, !cont_cont, !cont_bits.
    change 15 with (Z.ones 4).
    rewrite (land_add 224 4 (r / 4096)) by (try reflexivity; lia).
    rewrite !land_63.
    assert (Hlow : r / 4096 = 0 -> 32 <= (r / 64) mod 64)
      by (Z.to_euclidean_division_equations; lia).
    assert (Hhigh : r / 4096 = 13 -> (r / 64) mod 64 < 32)
      by (Z.to_euclidean_division_equations; lia).
    unfold utf8.between.
    destruct (Z.eqb_spec (224 + r / 4096) 224);
      [|destruct (Z.eqb_spec (224 + r / 4096) 237)]; settle.
    all: rewrite !Z.shiftl_mul_pow2 by lia.
    all: rewrite (lor_mul (r / 4096) 12) by (change (2 ^ 12) with 4096; change (2 ^ 6) with 64; lia).
    all: change (2 ^ 12) with 4096; change (2 ^ 6) with 64.
    all: replace (r / 4096 * 4096 + (r / 64) mod 64 * 64)
      with ((r / 4096 * 64 + (r / 64) mod 64) * 2 ^ 6) by (change (2 ^ 6) with 64; lia).
    all: rewrite lor_mul by (change (2 ^ 6) with 64; lia).
    all: f_equal; change (2 ^ 6) with 64; lia. }
  settle. rewrite !append_cons, append_nil. cbn [String.length].
  unfold utf8.DecodeRuneInString, utf8.RuneSelf, utf8.between, utf8.second_ok.
  rewrite !Z.shiftr_div_pow2 by lia.
  change (2 ^ 6) with 64. change (2 ^ 12) with 4096. change (2 ^ 18) with 262144.
  assert (Ha : 0 <= r / 262144 < 5)
    by (split; [apply Z.div_le_lower_bound|apply Z.div_lt_upper_bound]; lia).
  assert (Hb : 0 <= (r / 4096) mod 64 < 64) by (apply Z.mod_pos_bound; lia).
  assert (Hc : 0 <= (r / 64) mod 64 < 64) by (apply Z.mod_pos_bound; lia).
  assert (Hd : 0 <= r mod 64 < 64) by (apply Z.mod_pos_bound; lia).
  assert (Hr : r = r / 262144 * 262144 + (r / 4096) mod 64 * 4096
                   + (r / 64) mod 64 * 64 + r mod 64)
    by (Z.to_euclidean_division_equations; lia).
  rewrite (lead_byte 240 3 (r / 262144)) by (try reflexivity; lia).
  rewrite !cont_byte, !cont_cont, !cont_bits.
  change 7 with (Z.ones 3).
  rewrite (land_add 240 3 (r / 262144)) by (try reflexivity; lia).
  rewrite !land_63.
  assert (Hlow : r / 262144 = 0 -> 16 <= (r / 4096) mod 64)
    by (Z.to_euclidean_division_equations; lia).
  assert (Hhigh : r / 262144 = 4 -> (r / 4096) mod 64 < 16)
    by (Z.to_euclidean_division_equations; lia).
  unfold utf8.between.
  destruct (Z.eqb_spec (240 + r / 262144) 240);
    [|destruct (Z.eqb_spec (240 + r / 262144) 244)]; settle.
  all: rewrite !Z.shiftl_mul_pow2 by lia.
  all: rewrite (lor_mul (r / 262144) 18) by (change (2 ^ 18) with 262144; change (2 ^ 12) with 4096; change (2 ^ 6) with 64; lia).
  all: change (2 ^ 18) with 262144; change (2 ^ 12) with 4096; change (2 ^ 6) with 64.
  all: replace (r / 262144 * 262144 + (r / 4096) mod 64 * 4096)
    with ((r / 262144 * 64 + (r / 4096) mod 64) * 2 ^ 12)
    by (change (2 ^ 12) with 4096; lia).
  all: rewrite lor_mul by (change (2 ^ 12) with 4096; lia).
  all: change (2 ^ 12) with 4096.
  all: replace ((r / 262144 * 64 + (r / 4096) mod 64) * 4096 + (r / 64) mod 64 * 64)
    with (((r / 262144 * 64 + (r / 4096) mod 64) * 64 + (r / 64) mod 64) * 2 ^ 6)
    by (change (2 ^ 6) with 64; lia).
  all: rewrite lor_mul by (change (2 ^ 6) with 64; lia).
  all: f_equal; change (2 ^ 6) with 64; lia.
Qed.

(** ** Strings that [strings.Map] leaves as they are *)

Lemma Map_fixed f s : forall k,
  fixed_go f k s = true -> strings.Map_go f false (strings.Keep k) s = s.
Proof.
  induction s as [|b t IH]; intros k H; [reflexivity|].
  cbn [strings.Map_go]. destruct k as [|k].
  - cbn [fixed_go] in H.
    destruct (utf8.DecodeRuneInString (String b t)) as [c size].
    apply andb_true_iff in H as [H1 H2]. cbv zeta. rewrite H1.
    now rewrite (IH _ H2).
  - cbn [fixed_go] in H. now rewrite (IH _ H).
Qed.

Lemma fixed_skip f pre rest :
  fixed_go f (String.length pre) (pre +:+ rest) = fixed_go f 0 rest.
Proof.
  induction pre as [|c pre IH]; [now destruct rest|].
  rewrite append_cons. cbn [String.length fixed_go]. exact IH.
Qed.

Lemma EncodeRune_cons r : exists b tl, utf8.EncodeRune r = String b tl.
Proof.
  unfold utf8.EncodeRune, utf8.encode3.
  repeat match goal with |- context [if ?c then _ else _] => destruct c end;
    eexists _, _; reflexivity.
Qed.

Lemma valid_canon r : valid_rune (canon r) = true.
Proof. unfold canon. now destruct (valid_rune r) eqn:E. Qed.

Lemma EncodeRune_canon r : 0 <= r -> utf8.EncodeRune r = utf8.EncodeRune (canon r).
Proof.
  intros H0. unfold canon. destruct (valid_rune r) eqn:Hv; [reflexivity|].
  change (utf8.EncodeRune utf8.RuneError) with (utf8.encode3 utf8.RuneError).
  unfold valid_rune, utf8.MaxRune, utf8.between in Hv.
  unfold utf8.EncodeRune, utf8.MaxRune, utf8.between.
  destruct (Z.leb_spec r 1114111) as [Hm|Hm].
  - replace (0 <=? r) with true in * by (symmetry; apply Z.leb_le; lia).
    cbn [andb] in Hv. apply negb_false_iff in Hv. rewrite Hv.
    apply andb_true_iff in Hv as [Ha Hb]. apply Z.leb_le in Ha.
    now settle.
  - now settle.
Qed.

(** The encoding of a rune that is its own image passes the scan. *)
Lemma fixed_encode f r rest :
  0 <= r -> f (canon r) = canon r ->
  fixed_go f 0 (utf8.EncodeRune r +:+ rest) = fixed_go f 0 rest.
Proof.
  intros H0 Hf. rewrite (EncodeRune_canon r H0).
  pose proof (decode_encode (canon r) rest (valid_canon r)) as Hdec.
  destruct (EncodeRune_cons (canon r)) as (b & tl & E). rewrite E in *.
  rewrite append_cons in *. cbn [fixed_go]. rewrite Hdec.
  rewrite Hf, Z.eqb_refl. cbn [andb String.length Nat.sub].
  rewrite Nat.sub_0_r, fixed_skip.
  destruct (Z.eqb_spec (canon r) utf8.RuneError) as [Er|Er]; [|reflexivity].
  rewrite Er in E. vm_compute in E. now injection E as <- <-.
Qed.

(** A rune that was decoded from valid bytes depends on those bytes
    only. *)
Lemma decode_agree b t t' c size :
  utf8.DecodeRuneInString (String b t) = (c, size) ->
  (c =? utf8.RuneError) && Nat.eqb size 1 = false ->
  agree (size - 1) t t' ->
  utf8.DecodeRuneInString (String b t') = (c, size).
Proof.
  unfold utf8.DecodeRuneInString.
  assert (Hbad : forall X : Prop,
             (utf8.RuneError, 1%nat) = (c, size) ->
             (c =? utf8.RuneError) && Nat.eqb size 1 = false -> X).
  { intros X [= <- <-] Hs. discriminate Hs. }
  destruct (byte b <? utf8.RuneSelf); [now intros [= <- <-]|].
  destruct (utf8.between 194 223 (byte b)).
  { destruct t as [|c1 t1]; [(intros E1 E2; exact (Hbad _ E1 E2))|].
    destruct (utf8.second_ok (byte b) (byte c1)) eqn:H1; [|(intros E1 E2; exact (Hbad _ E1 E2))].
    intros [= <- <-] _ Ha. cbn [Nat.sub agree] in Ha.
    destruct t' as [|c1' t1']; [destruct Ha|]. destruct Ha as [<- _].
    now rewrite H1. }
  destruct (utf8.between 224 239 (byte b)).
  { destruct t as [|c1 [|c2 t2]]; try (intros E1 E2; exact (Hbad _ E1 E2)).
    destruct (utf8.second_ok (byte b) (byte c1) && utf8.cont (byte c2)) eqn:H1;
      [|(intros E1 E2; exact (Hbad _ E1 E2))].
    intros [= <- <-] _ Ha. cbn [Nat.sub agree] in Ha.
    destruct t' as [|c1' [|c2' t2']]; cbn [agree] in Ha; try tauto.
    destruct Ha as [<- [<- _]]. now rewrite H1. }
  destruct (utf8.between 240 244 (byte b)); [|(intros E1 E2; exact (Hbad _ E1 E2))].
  destruct t as [|c1 [|c2 [|c3 t3]]]; try (intros E1 E2; exact (Hbad _ E1 E2)).
  destruct (utf8.second_ok (byte b) (byte c1) && utf8.cont (byte c2)
            && utf8.cont (byte c3)) eqn:H1; [|(intros E1 E2; exact (Hbad _ E1 E2))].
  intros [= <- <-] _ Ha. cbn [Nat.sub agree] in Ha.
  destruct t' as [|c1' [|c2' [|c3' t3']]]; cbn [agree] in Ha; try tauto.
  destruct Ha as [<- [<- [<- _]]]. now rewrite H1.
Qed.

Lemma Keep_agree f changed t : forall k,
  agree k t (strings.Map_go f changed (strings.Keep k) t).
Proof.
  induction t as [|b t IH]; intros [|k]; cbn [agree strings.Map_go]; try exact I.
  split; [reflexivity|apply IH].
Qed.

(** What [strings.Map] returns passes the scan, when the image of a
    rune is its own image. *)
Lemma Map_go_fixed (f : Z -> Z) :
  (forall c, 0 <= f c -> f (canon (f c)) = canon (f c)) ->
  forall s,
    (forall k, fixed_go f 0 (strings.Map_go f true (strings.Drop k) s) = true) /\
    (forall k, fixed_go f k (strings.Map_go f false (strings.Keep k) s) = true).
Proof.
  intros Hf. induction s as [|b t [IHd IHk]]; [split; intros [|k]; reflexivity|].
  assert (Himage : forall c rest,
             fixed_go f 0 rest = true ->
             fixed_go f 0 ((if 0 <=? f c then utf8.EncodeRune (f c) else "") +:+ rest)
             = true).
  { intros c rest Hrest. destruct (Z.leb_spec 0 (f c)) as [H0|H0]; [|exact Hrest].
    rewrite fixed_encode; [exact Hrest|exact H0|now apply Hf]. }
  split; intros k.
  - cbn [strings.Map_go]. destruct k as [|k]; [|apply IHd].
    destruct (utf8.DecodeRuneInString (String b t)) as [c size]. cbv zeta.
    apply Himage, IHd.
  - cbn [strings.Map_go]. destruct k as [|k]; [|cbn [fixed_go]; apply IHk].
    destruct (utf8.DecodeRuneInString (String b t)) as [c size] eqn:Hdec. cbv zeta.
    destruct ((f c =? c) && negb ((c =? utf8.RuneError) && Nat.eqb size 1)) eqn:Hsame;
      [|apply Himage, IHd].
    cbn [fixed_go].
    apply andb_true_iff in Hsame as [Hfc Hok]. apply negb_true_iff in Hok.
    rewrite (decode_agree b t _ c size Hdec Hok (Keep_agree f false t (size - 1))).
    rewrite Hfc, Hok. cbn [negb andb]. apply IHk.
Qed.

(** ** Lower-casing twice *)

(** The case table lowers no rune twice, and leaves the replacement
    character alone. *)
Lemma ToLower_image (low : Z -> Z) :
  (forall r, 127 < r -> unicode.ToLower low (low r) = low r) ->
  low utf8.RuneError = utf8.RuneError ->
  forall c, 0 <= unicode.ToLower low c ->
            unicode.ToLower low (canon (unicode.ToLower low c))
            = canon (unicode.ToLower low c).
Proof.
  intros Hidem Hrep c H0. unfold canon.
  destruct (valid_rune (unicode.ToLower low c)) eqn:Hv; [|exact Hrep].
  unfold unicode.ToLower in *.
  destruct (Z.leb_spec c 127) as [Hc|Hc].
  - destruct ((65 <=? c) && (c <=? 90)) eqn:Hcap.
    + apply andb_true_iff in Hcap as [Ha Hb].
      apply Z.leb_le in Ha. apply Z.leb_le in Hb. now settle.
    + rewrite Hcap. now settle.
  - apply (Hidem c Hc).
Qed.

Lemma table_no_capital (low : Z -> Z) :
  (forall r, 127 < r -> unicode.ToLower low (low r) = low r) ->
  forall x, 127 < x -> ~ (65 <= low x <= 90).
Proof.
  intros Hidem x Hx Hcap. specialize (Hidem x Hx). unfold unicode.ToLower in Hidem.
  revert Hidem. settle. lia.
Qed.

Lemma fixed_lower_bytes (low : Z -> Z) l :
  forallb (fun c => byte c <? utf8.RuneSelf) l = true ->
  fixed_go (unicode.ToLower low) 0 (of_bytes (map strings.lower_byte l)) = true.
Proof.
  induction l as [|b l IH]; [reflexivity|].
  cbn [forallb map]. intros H. apply andb_true_iff in H as [Hb Hl].
  apply Z.ltb_lt in Hb. unfold utf8.RuneSelf in Hb.
  change (of_bytes (strings.lower_byte b :: map strings.lower_byte l))
    with (String (strings.lower_byte b) (of_bytes (map strings.lower_byte l))).
  cbn [fixed_go]. unfold utf8.DecodeRuneInString, utf8.RuneSelf.
  pose proof (byte_range b) as Hr.
  assert (Hlow : byte (strings.lower_byte b) < 128 /\
                 ~ (65 <= byte (strings.lower_byte b) <= 90)).
  { split; [|apply lower_byte_not_upper]. unfold strings.lower_byte.
    destruct ((65 <=? byte b) && (byte b <=? 90)) eqn:Hcap; [|exact Hb].
    apply andb_true_iff in Hcap as [Ha Hc].
    apply Z.leb_le in Ha. apply Z.leb_le in Hc. rewrite byte_chr_small; lia. }
  destruct Hlow as [Hlt Hnc]. pose proof (byte_range (strings.lower_byte b)) as Hr'.
  replace (byte (strings.lower_byte b) <? 128) with true
    by (symmetry; apply Z.ltb_lt; lia).
  unfold unicode.ToLower, utf8.RuneError.
  replace (byte (strings.lower_byte b) <=? 127) with true
    by (symmetry; apply Z.leb_le; lia).
  assert (Hcap : (65 <=? byte (strings.lower_byte b))
                 && (byte (strings.lower_byte b) <=? 90) = false).
  { apply andb_false_iff.
    destruct (Z.leb_spec 65 (byte (strings.lower_byte b))); [right|now left].
    apply Z.leb_gt. lia. }
  rewrite Hcap, Z.eqb_refl.
  replace (byte (strings.lower_byte b) =? 65533) with false
    by (symmetry; apply Z.eqb_neq; lia).
  cbn [andb negb Nat.sub]. now apply IH.
Qed.

(** What [strings.ToLower] returns passes the scan of a second
    [strings.ToLower]. *)
Lemma ToLower_fixed (low : Z -> Z) s :
  (forall r, 127 < r -> unicode.ToLower low (low r) = low r) ->
  low utf8.RuneError = utf8.RuneError ->
  fixed_go (unicode.ToLower low) 0 (strings.ToLower low s) = true.
Proof.
  intros Hidem Hrep. unfold strings.ToLower.
  destruct (strings.isASCII s) eqn:Ha.
  - now apply fixed_lower_bytes.
  - apply (Map_go_fixed _ (ToLower_image low Hidem Hrep) s).
Qed.

(** A string that passes the scan is its own lower case. *)
Lemma fixed_ToLower (low : Z -> Z) s :
  fixed_go (unicode.ToLower low) 0 s = true -> strings.ToLower low s = s.
Proof.
  intros H. unfold strings.ToLower. destruct (strings.isASCII s) eqn:Ha.
  - rewrite <- (of_bytes_bytes s) at 2. f_equal.
    unfold strings.isASCII in Ha. revert H Ha.
    induction s as [|b t IH]; [reflexivity|].
    change (bytes (String b t)) with (b :: bytes t). cbn [forallb map fixed_go].
    unfold utf8.DecodeRuneInString. intros H Ha.
    apply andb_true_iff in Ha as [Hb Ht]. rewrite Hb in H.
    apply andb_true_iff in H as [H Hrest]. apply andb_true_iff in H as [Hsame _].
    apply Z.eqb_eq in Hsame. apply Z.ltb_lt in Hb. unfold utf8.RuneSelf in Hb.
    f_equal; [|now apply IH].
    unfold strings.lower_byte.
    destruct ((65 <=? byte b) && (byte b <=? 90)) eqn:Hcap; [|reflexivity].
    exfalso. unfold unicode.ToLower in Hsame. rewrite Hcap in Hsame.
    revert Hsame. settle. lia.
  - now apply Map_fixed.
Qed.

(** ** Dashes for spaces, rune by rune *)

Lemma dash_high c : 128 <= byte c -> dash c = c.
Proof.
  intros H. unfold dash. destruct (Ascii.eqb_spec " " c) as [<-|]; [|reflexivity].
  vm_compute in H. now contradict H.
Qed.

Lemma byte_dash c : byte (dash c) = dash_rune (byte c).
Proof.
  unfold dash, dash_rune. destruct (Ascii.eqb_spec " " c) as [<-|Hc]; [reflexivity|].
  destruct (Z.eqb_spec (byte c) 32) as [E|]; [|reflexivity].
  exfalso. apply Hc. unfold byte in E.
  rewrite <- (ascii_N_embedding c).
  replace (N_of_ascii c) with 32%N by lia. reflexivity.
Qed.

Lemma second_ok_dash b0 c : utf8.second_ok b0 (byte (dash c)) = utf8.second_ok b0 (byte c).
Proof.
  unfold dash. destruct (Ascii.eqb_spec " " c) as [<-|]; [|reflexivity].
  unfold utf8.second_ok.
  repeat match goal with |- context [if ?x then _ else _] => destruct x end;
    reflexivity.
Qed.

Lemma cont_dash c : utf8.cont (byte (dash c)) = utf8.cont (byte c).
Proof.
  unfold dash. now destruct (Ascii.eqb_spec " " c) as [<-|].
Qed.

Lemma cont_keeps c : utf8.cont (byte c) = true -> dash c = c.
Proof. intros H. apply dash_high. now apply cont_high. Qed.

Lemma second_keeps b0 c : utf8.second_ok b0 (byte c) = true -> dash c = c.
Proof. intros H. apply dash_high. now apply (second_ok_high b0). Qed.

(** [s] with a dash for each space. *)
Lemma dashed_cons b t :
  of_bytes (map dash (bytes (String b t)))
  = String (dash b) (of_bytes (map dash (bytes t))).
Proof. reflexivity. Qed.

Lemma decode_dash b t :
  utf8.DecodeRuneInString (of_bytes (map dash (bytes (String b t))))
  = (if byte b <? 128 then dash_rune (byte b)
     else fst (utf8.DecodeRuneInString (String b t)),
     snd (utf8.DecodeRuneInString (String b t))).
Proof.
  rewrite dashed_cons. unfold utf8.DecodeRuneInString, utf8.RuneSelf.
  rewrite byte_dash.
  destruct (Z.ltb_spec (byte b) 128) as [Hb|Hb].
  { unfold dash_rune. destruct (byte b =? 32); [reflexivity|].
    now replace (byte b <? 128) with true by (symmetry; apply Z.ltb_lt; lia). }
  assert (Hd : dash_rune (byte b) = byte b)
    by (unfold dash_rune; now replace (byte b =? 32) with false
          by (symmetry; apply Z.eqb_neq; lia)).
  rewrite Hd. replace (byte b <? 128) with false by (symmetry; apply Z.ltb_ge; lia).
  destruct (utf8.between 194 223 (byte b)).
  { destruct t as [|c1 t1]; [reflexivity|]. rewrite dashed_cons, second_ok_dash.
    destruct (utf8.second_ok (byte b) (byte c1)) eqn:H1; [|reflexivity].
    now rewrite (second_keeps _ _ H1). }
  destruct (utf8.between 224 239 (byte b)).
  { destruct t as [|c1 [|c2 t2]]; try reflexivity.
    rewrite !dashed_cons, second_ok_dash, cont_dash.
    destruct (utf8.second_ok (byte b) (byte c1)) eqn:H1; [|reflexivity].
    destruct (utf8.cont (byte c2)) eqn:H2; [|reflexivity].
    now rewrite (second_keeps _ _ H1), (cont_keeps _ H2). }
  destruct (utf8.between 240 244 (byte b)); [|reflexivity].
  destruct t as [|c1 [|c2 [|c3 t3]]]; try reflexivity.
  rewrite !dashed_cons, second_ok_dash, !cont_dash.
  destruct (utf8.second_ok (byte b) (byte c1)) eqn:H1; [|reflexivity].
  destruct (utf8.cont (byte c2)) eqn:H2; [|reflexivity].
  destruct (utf8.cont (byte c3)) eqn:H3; [|reflexivity].
  now rewrite (second_keeps _ _ H1), (cont_keeps _ H2), (cont_keeps _ H3).
Qed.

(** A string that passes the scan still passes it with dashes for its
    spaces, the dash being its own image. *)
Lemma fixed_dash (f : Z -> Z) s : forall k,
  f 45 = 45 ->
  fixed_go f k s = true ->
  fixed_go f k (of_bytes (map dash (bytes s))) = true.
Proof.
  induction s as [|b t IH]; intros k H45 H; [reflexivity|].
  destruct k as [|k].
  - pose proof (decode_dash b t) as Hd. rewrite dashed_cons in *.
    cbn [fixed_go] in *. rewrite Hd. clear Hd.
    destruct (utf8.DecodeRuneInString (String b t)) as [c size] eqn:Hdec.
    cbn [fst snd].
    apply andb_true_iff in H as [H Hrest]. apply andb_true_iff in H as [Hsame Hok].
    rewrite (IH _ H45 Hrest), andb_true_r.
    destruct (Z.ltb_spec (byte b) 128) as [Hb|Hb]; [|now rewrite Hsame, Hok].
    unfold utf8.DecodeRuneInString, utf8.RuneSelf in Hdec.
    replace (byte b <? 128) with true in Hdec by (symmetry; apply Z.ltb_lt; lia).
    injection Hdec as <- <-. pose proof (byte_range b) as Hr.
    unfold dash_rune, utf8.RuneError.
    destruct (Z.eqb_spec (byte b) 32) as [E|E].
    + now rewrite H45.
    + rewrite Hsame.
      now replace (byte b =? 65533) with false by (symmetry; apply Z.eqb_neq; lia).
  - rewrite dashed_cons. cbn [fixed_go] in *. now apply IH.
Qed.

(** ** The project name (claim C1) *)

Section ProjectName.

Context {P : Platform}.

Lemma projectNameOf_None line :
  projectNameOf line = None <-> strings.TrimSpace line = "".
Proof.
  unfold projectNameOf.
  destruct (String.eqb_spec (strings.TrimSpace line) ""); split; congruence.
Qed.

Lemma projectNameOf_blank line : blank line -> projectNameOf line = None.
Proof. intros H. now apply projectNameOf_None, TrimSpace_blank. Qed.

Lemma projectNameOf_shape line name :
  (forall x, 127 < x -> ~ (65 <= lower x <= 90)) ->
  projectNameOf line = Some name -> no_capital name /\ no_space name.
Proof.
  intros Hlow. unfold projectNameOf.
  destruct (String.eqb _ ""); [discriminate|].
  intros [= <-]. split.
  - apply Replace_go_bytes.
    + repeat constructor. unfold byte. simpl. lia.
    + now apply ToLower_no_capital.
  - apply dash_for_space_no_space.
Qed.

Lemma projectNameOf_dashes line name :
  projectNameOf line = Some name ->
  name = of_bytes (map dash (bytes (strings.ToLower lower (strings.TrimSpace line)))).
Proof.
  unfold projectNameOf. destruct (String.eqb _ ""); [discriminate|].
  intros [= <-]. apply Replace_go_dash.
Qed.

Lemma projectNameOf_my_site :
  projectNameOf "  My Site  " = Some "my-site" /\
  projectNameOf ("  My Site  " +:+ LF) = Some "my-site".
Proof. split; reflexivity. Qed.

(** The directory name is its own lower case. *)
Lemma projectNameOf_lower line name :
  (forall r, 127 < r -> unicode.ToLower lower (lower r) = lower r) ->
  lower utf8.RuneError = utf8.RuneError ->
  projectNameOf line = Some name -> lower_case name.
Proof.
  intros Hidem Hrep H. unfold lower_case. rewrite (projectNameOf_dashes line name H).
  apply fixed_ToLower, fixed_dash; [reflexivity|]. now apply ToLower_fixed.
Qed.

(** A capital letter beyond ASCII is lowered as the case table says. *)
Lemma projectNameOf_ecole :
  lower 201 = 233 -> projectNameOf "ÉCOLE Site" = Some "école-site".
Proof.
  intros H. unfold projectNameOf.
  change (strings.TrimSpace "ÉCOLE Site") with "ÉCOLE Site".
  cbn [String.eqb]. unfold strings.ToLower.
  change (strings.isASCII "ÉCOLE Site") with false. cbv iota.
  unfold strings.Map. set (f := unicode.ToLower lower).
  assert (Hf : f 201 = 233) by exact H.
  cbn [strings.Map_go].
  change (utf8.DecodeRuneInString "ÉCOLE Site") with (201, 2%nat).
  cbv zeta iota beta. rewrite Hf. subst f. vm_compute. reflexivity.
Qed.

Lemma initDrupalProject_rejects (w : World) :
  projectNameOf (next_line w) = None ->
  exists e w',
    initDrupalProject w = (Done ("", Some e), w') /\
    trace w' = trace w /\ machine w' = machine w.
Proof.
  intros H. unfold initDrupalProject. io_run. rewrite H. io_run.
  eexists _, _. repeat split.
Qed.

Lemma initDrupalProject_accepts (w : World) name :
  projectNameOf (next_line w) = Some name ->
  exists r w',
    initDrupalProject w = (Done r, w') /\
    (is_nil (snd r) = true ->
     fst r = filepath.Join [cwd (machine w); name] /\
     trace w' = (trace w ++ [Getwd; Start (composer_create (fst r))])%list).
Proof.
  intros H. unfold initDrupalProject. io_run. rewrite H. io_run.
  unfold getwd. destruct (refused Getwd (machine w)) as [msg|]; io_run.
  - eexists _, _. split; [reflexivity|]. discriminate.
  - match goal with
    | |- context [pr_err ?r] => destruct (pr_err r) as [e|]
    end; io_run.
    + eexists _, _. split; [reflexivity|]. discriminate.
    + eexists _, _. split; [reflexivity|]. intros _. world_simpl.
      split; [reflexivity|]. now rewrite <- app_assoc.
Qed.

(** A rejected line: the error, and what was printed. *)
Lemma initDrupalProject_empty (w : World) :
  projectNameOf (next_line w) = None ->
  exists w',
    initDrupalProject w = (Done ("", Some (mkError "empty project name" false)), w') /\
    trace w' = trace w /\ machine w' = machine w /\
    stdout w'
    = (stdout w ++ [info_line "Initializing Drupal project..."; "" +:+ LF;
                    "Enter your Drupal project name (e.g., 'my-drupal-site'): ";
                    error_line "Project name cannot be empty"])%list.
Proof.
  intros H. unfold initDrupalProject. io_run. rewrite H. io_run.
  eexists. split; [reflexivity|]. world_simpl. repeat split.
  now rewrite <- !app_assoc.
Qed.

(** An accepted line: the working directory is asked for, the scaffold
    command runs on the project path, and its error is the error
    returned. *)
Lemma initDrupalProject_runs (w : World) name :
  projectNameOf (next_line w) = Some name ->
  let asked := [info_line "Initializing Drupal project..."; "" +:+ LF;
                "Enter your Drupal project name (e.g., 'my-drupal-site'): "] in
  (forall msg,
      refused Getwd (machine w) = Some msg ->
      exists w',
        initDrupalProject w = (Done ("", Some (mkError msg false)), w') /\
        trace w' = (trace w ++ [Getwd])%list /\
        machine w' = machine w /\
        stdout w' = (stdout w ++ asked
                     ++ [error_line "Failed to get current directory"])%list) /\
  (refused Getwd (machine w) = None ->
   let projectPath := filepath.Join [cwd (machine w); name] in
   let r := child (composer_create projectPath) (machine w) in
   exists w',
     initDrupalProject w
     = (Done (match pr_err (fst r) with
              | Some err => ("", Some err)
              | None => (projectPath, None)
              end), w') /\
     trace w' = (trace w ++ [Getwd; Start (composer_create projectPath)])%list /\
     machine w' = snd r /\
     stdout w'
     = (stdout w ++ asked
        ++ [info_line ("Creating Drupal project: " +:+ name);
            match pr_err (fst r) with
            | Some _ => error_line "Failed to create Drupal project"
            | None => success_line ("✓ Drupal project '" +:+ name +:+ "' initialized")
            end])%list).
Proof.
  intros H asked. split.
  - intros msg Hr. unfold initDrupalProject. io_run. rewrite H. io_run.
    unfold getwd. rewrite Hr. io_run.
    eexists. split; [reflexivity|]. world_simpl.
    repeat split. subst asked. now rewrite <- !app_assoc.
  - intros Hr projectPath r. unfold initDrupalProject. io_run. rewrite H. io_run.
    unfold getwd. rewrite Hr. io_run. fold projectPath.
    fold (composer_create projectPath). fold r.
    destruct (pr_err (fst r)) as [e|]; io_run;
      (eexists; split; [reflexivity|]; world_simpl;
       split; [now rewrite <- app_assoc|]; split; [reflexivity|];
       subst asked; now rewrite <- !app_assoc).
Qed.

End ProjectName.

(** ** Functions that return *)

Section Returns.

Context {P : Platform}.

Lemma returns_ret {A} (a : A) : returns (ret a).
Proof. intros w. now exists a, w. Qed.

Lemma returns_bind {A B} (m : IO A) (k : A -> IO B) :
  returns m -> (forall a, returns (k a)) -> returns (bind m k).
Proof.
  intros Hm Hk w. destruct (Hm w) as (a & w1 & E).
  destruct (Hk a w1) as (b & w2 & E2).
  exists b, w2. unfold bind. now rewrite E.
Qed.

Lemma returns_Print s : returns (fmt_Print s).
Proof. intros w. now eexists _, _. Qed.

Lemma returns_ReadString : returns ReadString.
Proof. intros w. now eexists _, _. Qed.

Lemma returns_LookPath file : returns (exec_LookPath file).
Proof. intros w. now eexists _, _. Qed.

Lemma returns_Run c : returns (cmd_Run c).
Proof. intros w. now eexists _, _. Qed.

Lemma returns_Getwd : returns os_Getwd.
Proof. intros w. now eexists _, _. Qed.

Lemma returns_MkdirAll path perm : returns (os_MkdirAll path perm).
Proof. intros w. now eexists _, _. Qed.

Lemma returns_ReadFile path : returns (os_ReadFile path).
Proof. intros w. now eexists _, _. Qed.

Lemma returns_WriteFile path data perm : returns (os_WriteFile path data perm).
Proof. intros w. now eexists _, _. Qed.

Lemma returns_Stat path : returns (os_Stat path).
Proof. intros w. now eexists _, _. Qed.

End Returns.

(** Decides [returns m] for a computation built from the primitives,
    [bind], [if] and [match]. *)
Ltac returns_step :=
  first
    [ apply returns_ret | apply returns_Print | apply returns_ReadString
    | apply returns_LookPath | apply returns_Run | apply returns_Getwd
    | apply returns_MkdirAll | apply returns_ReadFile | apply returns_WriteFile
    | apply returns_Stat
    | apply returns_bind; [|intros ?]
    | match goal with
      | |- returns (if ?b then _ else _) => destruct b
      | |- returns (match ?e with _ => _ end) => destruct e
      end ].

Ltac returns_auto := io_prints; repeat returns_step.

Section FunctionsReturn.

Context {P : Platform}.

Lemma checkHomebrew_returns : returns checkHomebrew.
Proof. unfold checkHomebrew. returns_auto. Qed.

Lemma installDocker_returns : returns installDocker.
Proof. unfold installDocker. returns_auto. Qed.

Lemma checkDockerRunning_returns : returns checkDockerRunning.
Proof. unfold checkDockerRunning. returns_auto. Qed.

Lemma installColima_returns : returns installColima.
Proof. unfold installColima. returns_auto. Qed.

Lemma checkColimaRunning_returns : returns checkColimaRunning.
Proof. unfold checkColimaRunning. returns_auto. Qed.

Lemma startColima_returns : returns startColima.
Proof. unfold startColima. returns_auto. Qed.

Lemma installDDEV_returns : returns installDDEV.
Proof. unfold installDDEV. returns_auto. Qed.

Lemma checkDDEVVersion_returns : returns checkDDEVVersion.
Proof. unfold checkDDEVVersion. returns_auto. Qed.

Lemma checkPrerequisites_returns prov : returns (checkPrerequisites prov).
Proof. unfold checkPrerequisites. returns_auto. Qed.

Lemma initDrupalProject_returns : returns initDrupalProject.
Proof. unfold initDrupalProject. returns_auto. Qed.

Lemma setupDrupalSettings_returns p : returns (setupDrupalSettings p).
Proof. unfold setupDrupalSettings. returns_auto. Qed.

Lemma initDDEVProject_returns p : returns (initDDEVProject p).
Proof. unfold initDDEVProject. returns_auto. Qed.

Lemma startDDEV_returns p : returns (startDDEV p).
Proof. unfold startDDEV. returns_auto. Qed.

Lemma installPackages_returns p pkgs : returns (installPackages p pkgs).
Proof.
  induction pkgs as [|pkg rest IH]; cbn [installPackages].
  - returns_auto.
  - io_prints. apply returns_bind; [apply returns_Run|intros r].
    destruct (pr_err r); [returns_auto|exact IH].
Qed.

Lemma installDrupalDependencies_returns p : returns (installDrupalDependencies p).
Proof.
  unfold installDrupalDependencies. io_prints.
  apply returns_bind; [apply returns_Print|intros _].
  apply returns_bind; [apply installPackages_returns|intros e].
  returns_auto.
Qed.

Lemma installDrupalSite_returns p : returns (installDrupalSite p).
Proof. unfold installDrupalSite. returns_auto. Qed.

Lemma enableDrupalModules_returns p : returns (enableDrupalModules p).
Proof. unfold enableDrupalModules. returns_auto. Qed.

Lemma importDrupalConfig_returns p : returns (importDrupalConfig p).
Proof. unfold importDrupalConfig. returns_auto. Qed.

Lemma generateDrupalContent_returns p : returns (generateDrupalContent p).
Proof. unfold generateDrupalContent. returns_auto. Qed.

Lemma displayFinalInstructions_returns url : returns (displayFinalInstructions url).
Proof. unfold displayFinalInstructions. returns_auto. Qed.

Lemma selectDockerProvider_returns : returns selectDockerProvider.
Proof. unfold selectDockerProvider. returns_auto. Qed.

(** The index expression [raw[0]] is guarded by [len(raw) > 0]. *)
Lemma getSiteURL_returns p : returns (getSiteURL p).
Proof.
  unfold getSiteURL. io_prints.
  apply returns_bind; [apply returns_Print|intros _].
  apply returns_bind; [apply returns_Run|intros r].
  destruct (negb (is_nil (pr_err r))); [returns_auto|].
  destruct (json.Unmarshal float64_ok (pr_out r)) as [result|]; [|returns_auto].
  destruct (as_slice (result !! "raw")) as [raw ok].
  apply returns_bind; [|intros [url|]; returns_auto].
  destruct ok; cbn [andb]; [|returns_auto].
  destruct raw as [|first rest]; cbn [length]; [returns_auto|].
  replace (0 <? Z.of_nat (S (length rest))) with true
    by (symmetry; apply Z.ltb_lt; lia).
  unfold go_index. cbn [lookup list_lookup].
  apply returns_bind; [apply returns_ret|intros v].
  destruct (as_map (Some v)) as [project [|]]; [|returns_auto].
  destruct (as_string (project !! "https_url")) as [u [|]]; returns_auto.
Qed.

End FunctionsReturn.

(** ** [main] is the pipeline of its fatal steps *)

Section Pipeline.

Context {P : Platform}.

Lemma bind_cong {A B} (m : IO A) (k1 k2 : A -> IO B) w :
  (forall a w', k1 a w' = k2 a w') -> bind m k1 w = bind m k2 w.
Proof.
  intros H. unfold bind. destruct (m w) as [[a|c|msg] w']; [apply H|reflexivity..].
Qed.

Lemma bind_Exit {A B} c (k : A -> IO B) w : bind (os_Exit c) k w = (Exited c, w).
Proof. reflexivity. Qed.

Lemma bind_Done {A B} (m : IO A) (k : A -> IO B) w a w' :
  m w = (Done a, w') -> bind m k w = k a w'.
Proof. intros E. unfold bind. now rewrite E. Qed.

Lemma main_is_pipeline w : main w = main_pipeline w.
Proof.
  unfold main, main_pipeline, prologue, fatal_steps, pipeline, epilogue, finish,
    stepHomebrew, stepBackend, stepDDEV, stepScaffold, checked, ensureBackend, exit_if.
  repeat (repeat first [ rewrite bind_bind | rewrite bind_ret | rewrite bind_Exit
                       | progress cbv beta iota ];
          first [ reflexivity | apply bind_cong; intros
                | match goal with
                  | |- context [if negb (is_nil ?e) then _ else _] =>
                    destruct e; cbn [is_nil negb]
                  | |- context [if negb ?b then _ else _] =>
                    destruct b; cbn [negb]
                  | |- context [if String.eqb ?a ?b then _ else _] =>
                    destruct (String.eqb a b)
                  end ]).
Qed.

Lemma pipeline_goes_on pre post ctx w p wk :
  pipeline pre ctx w = (Done p, wk) ->
  pipeline (pre ++ post) ctx w = pipeline post p wk.
Proof.
  revert ctx w. induction pre as [|s pre IH]; intros ctx w; cbn [pipeline app].
  - now intros [= -> ->].
  - unfold bind. destruct (s ctx w) as [[[q|]|c|msg] w1]; try discriminate.
    apply IH.
Qed.

Lemma pipeline_stops pre s post ctx w p wk wf :
  pipeline pre ctx w = (Done p, wk) ->
  s p wk = (Done None, wf) ->
  pipeline (pre ++ s :: post) ctx w = (Exited 1, wf).
Proof.
  intros Hpre Hs. rewrite (pipeline_goes_on _ _ _ _ _ _ Hpre).
  cbn [pipeline]. now rewrite (bind_Done _ _ _ _ _ Hs).
Qed.

(** A pipeline of steps that return either runs to its end or stops at
    its first failing step with status 1. *)
Lemma pipeline_result steps ctx w :
  Forall (fun s : Step => forall p, returns (s p)) steps ->
  (exists p w', pipeline steps ctx w = (Done p, w')) \/
  (exists pre s post p wk wf,
      steps = (pre ++ s :: post)%list /\
      pipeline pre ctx w = (Done p, wk) /\
      s p wk = (Done None, wf) /\
      pipeline steps ctx w = (Exited 1, wf)).
Proof.
  intros Hall. revert ctx w.
  induction Hall as [|s rest Hs _ IH]; intros ctx w.
  - left. now exists ctx, w.
  - destruct (Hs ctx w) as ([q|] & w1 & E).
    + destruct (IH q w1) as [(p & w' & E')|(pre & s' & post & p & wk & wf & -> & E1 & E2 & E3)].
      * left. exists p, w'. cbn [pipeline]. now rewrite (bind_Done _ _ _ _ _ E).
      * right. exists (s :: pre), s', post, p, wk, wf.
        repeat split; try assumption.
        -- cbn [pipeline]. now rewrite (bind_Done _ _ _ _ _ E).
        -- cbn [pipeline app]. now rewrite (bind_Done _ _ _ _ _ E).
    + right. exists [], s, rest, ctx, w, w1.
      repeat split; try assumption.
      cbn [pipeline]. now rewrite (bind_Done _ _ _ _ _ E).
Qed.

Lemma checked_returns f :
  (forall p, returns (f p)) -> forall p, returns (checked f p).
Proof.
  intros Hf p. unfold checked.
  apply returns_bind; [apply Hf|intros e; apply returns_ret].
Qed.

Lemma ensureBackend_returns prov : returns (ensureBackend prov).
Proof.
  unfold ensureBackend. io_prints.
  apply returns_bind; [apply returns_Print|intros _].
  destruct (String.eqb prov "docker").
  - apply returns_bind; [apply installDocker_returns|intros _].
    apply returns_bind; [apply checkDockerRunning_returns|intros b].
    destruct b; cbn [negb]; returns_auto.
  - apply returns_bind; [apply installColima_returns|intros _].
    apply returns_bind; [apply checkColimaRunning_returns|intros b].
    destruct b; cbn [negb]; [returns_auto|].
    apply returns_bind; [apply startColima_returns|intros _].
    apply returns_bind; [apply checkColimaRunning_returns|intros b].
    destruct b; cbn [negb]; returns_auto.
Qed.

Lemma fatal_steps_return prov :
  Forall (fun s : Step => forall p, returns (s p)) (fatal_steps prov).
Proof.
  unfold fatal_steps. repeat constructor.
  - apply checked_returns. intros _. apply checkHomebrew_returns.
  - intros p. unfold stepBackend.
    apply returns_bind; [apply ensureBackend_returns|intros b; apply returns_ret].
  - intros p. unfold stepDDEV.
    apply returns_bind; [apply installDDEV_returns|intros b; apply returns_ret].
  - intros p. unfold stepScaffold.
    apply returns_bind; [apply checkDDEVVersion_returns|intros _].
    apply returns_bind; [apply initDrupalProject_returns|intros r; apply returns_ret].
  - apply checked_returns, initDDEVProject_returns.
  - apply checked_returns, startDDEV_returns.
  - apply checked_returns, installDrupalDependencies_returns.
  - apply checked_returns, setupDrupalSettings_returns.
  - apply checked_returns, installDrupalSite_returns.
  - apply checked_returns, enableDrupalModules_returns.
  - apply checked_returns, importDrupalConfig_returns.
Qed.

Lemma prologue_returns : returns prologue.
Proof.
  unfold prologue. io_prints.
  repeat (apply returns_bind; [apply returns_Print|intros _]).
  apply returns_bind; [apply selectDockerProvider_returns|intros prov].
  apply returns_bind; [apply returns_Print|intros _].
  apply returns_bind; [apply checkPrerequisites_returns|intros _].
  apply returns_ret.
Qed.

Lemma finish_returns p err : returns (finish p err).
Proof.
  unfold finish.
  apply returns_bind; [destruct (negb (is_nil err)); returns_auto|intros _].
  apply returns_bind; [apply getSiteURL_returns|intros url].
  apply displayFinalInstructions_returns.
Qed.

Lemma epilogue_returns p : returns (epilogue p).
Proof.
  unfold epilogue.
  apply returns_bind; [apply generateDrupalContent_returns|intros e].
  apply finish_returns.
Qed.

(** How [main] ends, from where the fatal steps begin. *)
Lemma main_from_prologue w prov w0 :
  prologue w = (Done prov, w0) ->
  main w = bind (pipeline (fatal_steps prov) "") epilogue w0.
Proof.
  intros E. rewrite main_is_pipeline. unfold main_pipeline.
  now rewrite (bind_Done _ _ _ _ _ E).
Qed.

Lemma main_stops w prov w0 pre s post p wk wf :
  prologue w = (Done prov, w0) ->
  fatal_steps prov = (pre ++ s :: post)%list ->
  pipeline pre "" w0 = (Done p, wk) ->
  s p wk = (Done None, wf) ->
  main w = (Exited 1, wf).
Proof.
  intros E Hsplit Hpre Hs. rewrite (main_from_prologue _ _ _ E), Hsplit.
  unfold bind at 1. now rewrite (pipeline_stops _ _ _ _ _ _ _ _ Hpre Hs).
Qed.

Lemma main_completes w prov w0 p w1 :
  prologue w = (Done prov, w0) ->
  pipeline (fatal_steps prov) "" w0 = (Done p, w1) ->
  main w = epilogue p w1 /\ exists w', main w = (Done tt, w').
Proof.
  intros E Hall. rewrite (main_from_prologue _ _ _ E).
  rewrite (bind_Done _ _ _ _ _ Hall). split; [reflexivity|].
  destruct (epilogue_returns p w1) as ([] & w' & E'). now exists w'.
Qed.

End Pipeline.

(** ** The install steps (claims C6, C8, C10) *)

Section InstallSteps.

Context {P : Platform}.

Lemma installDocker_present (w : World) :
  pr_err (fst (child (brew_list "docker") (machine w))) = None ->
  installDocker w
  = (Done true,
     say (success_line "Docker Desktop is already installed")
       (set_machine (snd (child (brew_list "docker") (machine w)))
          (log (Start (brew_list "docker"))
             (say (info_line "Checking Docker Desktop installation...") w)))).
Proof.
  intros H. unfold installDocker. io_run.
  fold (brew_list "docker"). rewrite H. cbn [is_nil]. now io_run.
Qed.

Lemma installColima_present (w : World) :
  on_path "colima" (machine w) = true ->
  installColima w
  = (Done true,
     say (success_line "Colima is already installed")
       (log (LookPath "colima")
          (say (info_line "Checking Colima installation...") w))).
Proof.
  intros H. unfold installColima. io_run. rewrite H. now io_run.
Qed.

Lemma installDDEV_present (w : World) :
  on_path "ddev" (machine w) = true ->
  installDDEV w
  = (Done true,
     say (success_line "DDEV is already installed")
       (log (LookPath "ddev")
          (say (info_line "Checking DDEV installation...") w))).
Proof.
  intros H. unfold installDDEV. io_run. rewrite H. now io_run.
Qed.

Lemma installDDEV_fresh (w : World) :
  on_path "ddev" (machine w) = false ->
  pr_err (fst (child (brew_install "ddev/ddev/ddev") (machine w))) = None ->
  installDDEV w
  = (Done false,
     say (success_line "DDEV installed")
       (set_machine (snd (child (brew_install "ddev/ddev/ddev") (machine w)))
          (log (Start (brew_install "ddev/ddev/ddev"))
             (say (info_line "DDEV not found. Installing via Homebrew...")
                (log (LookPath "ddev")
                   (say (info_line "Checking DDEV installation...") w)))))).
Proof.
  intros H1 H2. unfold installDDEV. io_run. rewrite H1. io_run.
  fold (brew_install "ddev/ddev/ddev"). rewrite H2. cbn [is_nil negb]. now io_run.
Qed.

Lemma installDDEV_true (w w' : World) :
  installDDEV w = (Done true, w') -> on_path "ddev" (machine w) = true.
Proof.
  unfold installDDEV. io_run.
  destruct (on_path "ddev" (machine w)); [reflexivity|]. io_run.
  match goal with
  | |- context [negb (is_nil ?e)] => destruct (negb (is_nil e))
  end; io_run; discriminate.
Qed.

Lemma checkDockerRunning_spec (w : World) :
  checkDockerRunning w
  = (Done (is_nil (pr_err (fst (child docker_info (machine w))))),
     say (if is_nil (pr_err (fst (child docker_info (machine w))))
          then success_line "Docker is running"
          else warning_line "Docker is not running. Please start Docker Desktop.")
       (set_machine (snd (child docker_info (machine w)))
          (log (Start docker_info) w))).
Proof.
  unfold checkDockerRunning. io_run. fold docker_info.
  destruct (is_nil _); now io_run.
Qed.

(** The Docker Desktop branch: what [installDocker] returned plays no
    part. *)
Lemma ensureBackend_docker (w : World) :
  ensureBackend "docker" w
  = let w2 := snd (installDocker (say ("" +:+ LF) w)) in
    let running := is_nil (pr_err (fst (child docker_info (machine w2)))) in
    let w3 := snd (checkDockerRunning w2) in
    (Done running,
     if running then w3
     else say (error_line "Please start Docker Desktop and run this script again.") w3).
Proof.
  unfold ensureBackend. io_run. cbn [String.eqb Ascii.eqb Bool.eqb].
  destruct (installDocker_returns (say ("" +:+ LF) w)) as (b & w2 & E).
  rewrite (bind_Done _ _ _ _ _ E). rewrite E. cbn [snd].
  rewrite (bind_Done _ _ _ _ _ (checkDockerRunning_spec w2)).
  rewrite checkDockerRunning_spec. cbn [snd].
  destruct (is_nil _); cbn [negb]; now io_run.
Qed.

End InstallSteps.

(** ** Prompts (claims C5, C7) *)

Section Prompts.

Context {P : Platform}.

Lemma selectDockerProvider_spec (w : World) :
  selectDockerProvider w
  = (Done (if String.eqb (strings.TrimSpace (next_line w)) "2"
           then "colima" else "docker"),
     set_stdin (snd (read_line "" (stdin w)))
       (say "Enter your choice (1 or 2): "
          (say ("2. Colima" +:+ LF)
             (say ("1. Docker Desktop" +:+ LF)
                (say ("Which Docker provider would you like to use?" +:+ LF) w))))).
Proof.
  unfold selectDockerProvider. io_run.
  destruct (String.eqb _ "2"); now io_run.
Qed.

Lemma lower_byte_blank c :
  strings.asciiSpace (byte c) = true -> strings.lower_byte c = c.
Proof.
  intros H. unfold strings.lower_byte.
  replace ((65 <=? byte c) && (byte c <=? 90)) with false; [reflexivity|].
  symmetry. apply andb_false_iff. left. apply Z.leb_gt.
  unfold strings.asciiSpace in H.
  repeat (apply orb_true_iff in H as [H|H]); apply Z.eqb_eq in H; lia.
Qed.



Lemma generateDrupalContent_runs p (w : World) :
  strings.TrimSpace (strings.ToLower lower (next_line w)) = "y" ->
  exists e w' rest,
    generateDrupalContent p w = (Done e, w') /\
    trace w' = (trace w ++ Start (in_dir p genu) :: rest)%list.
Proof.
  intros H. unfold generateDrupalContent. io_run. rewrite H.
  cbn [String.eqb Ascii.eqb Bool.eqb negb]. io_run.
  match goal with
  | |- context [pr_err ?r] => destruct (pr_err r) as [e|]
  end; io_run.
  - eexists _, _, []. split; [reflexivity|]. world_simpl. reflexivity.
  - match goal with
    | |- context [match pr_err ?r with _ => _ end] => destruct (pr_err r) as [e|]
    end; io_run.
    + eexists _, _, [_]. split; [reflexivity|]. world_simpl.
      now rewrite <- app_assoc.
    + eexists _, _, [_]. split; [reflexivity|]. world_simpl.
      now rewrite <- app_assoc.
Qed.


End Prompts.


(** ** The file tree (claim C9) *)

Section FileTree.

Context {P : Platform}.

Lemma foldr_mkdir (t : gmap string node) (dirs : list string) (p : string) :
  In p dirs ->
  foldr (fun q m => <[q := Dir]> m) t dirs !! p = Some Dir.
Proof.
  induction dirs as [|d ds IH]; intros Hin; [destruct Hin|].
  cbn [foldr]. destruct (decide (d = p)) as [->|Hne].
  - apply lookup_insert_eq.
  - rewrite lookup_insert_ne by exact Hne.
    destruct Hin as [E|Hin]; [contradiction|now apply IH].
Qed.

Lemma fs_mkdir_all_dir (t t' : gmap string node) (p : string) :
  fs.mkdir_all t p = Some t' -> t' !! p = Some Dir.
Proof.
  unfold fs.mkdir_all. destruct (existsb _ _); [discriminate|].
  intros [= <-]. apply foldr_mkdir. apply in_or_app. right. now left.
Qed.

Lemma fs_write_file_keeps_dir (t t' : gmap string node) (q data p : string) :
  fs.write_file t q data = inl t' -> t !! p = Some Dir -> t' !! p = Some Dir.
Proof.
  unfold fs.write_file. intros Hw Hp.
  assert (Hne : t !! q <> Some Dir -> q <> p) by (intros Hq ->; contradiction).
  destruct (t !! q) as [[|c]|] eqn:Hq; [discriminate| |];
    (destruct (last (fs.ancestors q)) as [d|];
     [destruct (t !! d) as [[|c']|]; try discriminate|];
     injection Hw as <-;
     rewrite lookup_insert_ne by (apply Hne; discriminate); exact Hp).
Qed.

Lemma mkdir_all_dir (m : Machine Ext) (p : string) (perm : Z) :
  fst (mkdir_all m p perm) = None ->
  files (snd (mkdir_all m p perm)) !! p = Some Dir.
Proof.
  unfold mkdir_all. destruct (refused _ m); [discriminate|].
  destruct (fs.mkdir_all (files m) p) as [t|] eqn:E; [|discriminate].
  intros _. cbn [snd files]. now apply (fs_mkdir_all_dir _ _ _ E).
Qed.

Lemma write_file_keeps_dir (m : Machine Ext) (q data p : string) (perm : Z) :
  files m !! p = Some Dir ->
  files (snd (write_file m q data perm)) !! p = Some Dir.
Proof.
  intros Hp. unfold write_file. destruct (refused _ m); [exact Hp|].
  destruct (fs.write_file (files m) q data) as [t|e] eqn:E; [|exact Hp].
  cbn [snd files]. now apply (fs_write_file_keeps_dir _ _ _ _ _ E).
Qed.

Lemma stat_dir (m : Machine Ext) (p : string) :
  files m !! p = Some Dir -> os_IsNotExist (stat m p) = false.
Proof.
  intros Hp. unfold stat. destruct (refused _ m); [reflexivity|].
  unfold fs.stat. now rewrite Hp.
Qed.

End FileTree.

Ltac not_in_lines :=
  cbn [In]; intros Hin;
  repeat (destruct Hin as [Hin|Hin]; [vm_compute in Hin; discriminate Hin|]);
  exact Hin.

Ltac not_in_calls :=
  cbn [In]; intros Hin;
  repeat (destruct Hin as [Hin|Hin]; [discriminate Hin|]);
  destruct Hin.

(** Closes a branch of [setupDrupalSettings] that returns before the
    last check. *)
Ltac early_return :=
  split; [reflexivity|]; world_simpl;
  split; [now rewrite <- ?app_assoc|];
  split; [now rewrite <- ?app_assoc|];
  split; [not_in_lines|not_in_calls].

Section SettingsCheck.

Context {P : Platform}.

Lemma setupDrupalSettings_check (p : string) (w : World) :
  exists r w' out calls,
    setupDrupalSettings p w = (Done r, w') /\
    stdout w' = (stdout w ++ out)%list /\
    trace w' = (trace w ++ calls)%list /\
    ~ In (error_line "Config directory not found at config/sync. Skipping config import.") out /\
    (In (Stat (filepath.Join [p; "config"; "sync"])) calls ->
     r = None /\ In (success_line "✓ Drupal settings setup completed") out).
Proof.
  unfold setupDrupalSettings. io_run.
  set (cfg := filepath.Join [p; "config"; "sync"]).
  set (w1 := say _ w).
  pose proof (mkdir_all_dir (machine w) cfg 493) as Hdir.
  destruct (fst (mkdir_all (machine w) cfg 493)) as [e|]; io_run.
  { eexists _, _, [_; _], [_]. subst w1. early_return. }
  specialize (Hdir eq_refl).
  set (m1 := snd (mkdir_all (machine w) cfg 493)) in *.
  destruct (read_file m1 _) as [content [e|]]; io_run.
  { eexists _, _, [_; _], [_; _]. subst w1. early_return. }
  match goal with
  | |- context [write_file m1 ?q ?d ?perm] =>
    pose proof (write_file_keeps_dir m1 q d cfg perm Hdir) as Hdir2;
    set (m2 := snd (write_file m1 q d perm)) in *;
    destruct (fst (write_file m1 q d perm)) as [e|]
  end; io_run.
  { eexists _, _, [_; _], [_; _; _]. subst w1. early_return. }
  match goal with
  | |- context [write_file m2 ?q ?d ?perm] =>
    pose proof (write_file_keeps_dir m2 q d cfg perm Hdir2) as Hdir3;
    set (m3 := snd (write_file m2 q d perm)) in *;
    destruct (fst (write_file m2 q d perm)) as [e|]
  end; io_run.
  { eexists _, _, [_; _], [_; _; _; _]. subst w1. early_return. }
  match goal with
  | |- context [write_file m3 ?q ?d ?perm] =>
    pose proof (write_file_keeps_dir m3 q d cfg perm Hdir3) as Hdir4;
    set (m4 := snd (write_file m3 q d perm)) in *;
    destruct (fst (write_file m3 q d perm)) as [e|]
  end; io_run.
  { eexists _, _, [_; _], [_; _; _; _; _]. subst w1. early_return. }
  rewrite (stat_dir m4 cfg Hdir4). io_run.
  eexists _, _, [_; _], [_; _; _; _; _; _]. subst w1.
  split; [reflexivity|]. world_simpl.
  split; [now rewrite <- ?app_assoc|].
  split; [now rewrite <- ?app_assoc|].
  split; [not_in_lines|].
  intros _. split; [reflexivity|]. right. now left.
Qed.

End SettingsCheck.

(** ** The settings rewrite (claim C2) *)

Lemma HasPrefix_true s old :
  strings.HasPrefix s old = true <-> exists rest, s = old +:+ rest.
Proof.
  revert s. induction old as [|o old IH]; intros s; cbn [strings.HasPrefix].
  - split; [intros _; now exists s|reflexivity].
  - destruct s as [|c s].
    + split; [discriminate|]. intros [rest E]. rewrite append_cons in E. discriminate.
    + destruct (Ascii.eqb_spec o c) as [->|Hne].
      * rewrite IH. split; intros [rest E]; exists rest.
        -- rewrite append_cons. now f_equal.
        -- rewrite append_cons in E. now injection E.
      * split; [discriminate|]. intros [rest E].
        rewrite append_cons in E. injection E as E1 _. congruence.
Qed.

Lemma Replace_go_skip old new a b :
  strings.Replace_go old new (String.length a) (a +:+ b)
  = strings.Replace_go old new 0 b.
Proof.
  induction a as [|c a IH]; [reflexivity|].
  rewrite append_cons. cbn [String.length strings.Replace_go]. exact IH.
Qed.

Lemma Replace_go_absent old new s :
  ~ occurs old s -> strings.Replace_go old new 0 s = s.
Proof.
  induction s as [|c s IH]; intros Hno; cbn [strings.Replace_go]; [reflexivity|].
  destruct (strings.HasPrefix (String c s) old) eqn:Hp.
  - exfalso. apply Hno. apply HasPrefix_true in Hp as [rest E].
    exists "", rest. exact E.
  - f_equal. apply IH. intros (a & b & E). apply Hno.
    exists (String c a), b. rewrite append_cons. now rewrite E.
Qed.

Lemma Replace_go_leftmost old new s pre post :
  old <> "" -> leftmost old s pre post ->
  strings.Replace_go old new 0 s
  = pre +:+ new +:+ strings.Replace_go old new 0 post.
Proof.
  intros Hold. revert s. induction pre as [|c pre IH]; intros s [-> Hleft].
  - destruct old as [|o old]; [contradiction|].
    rewrite !append_nil, append_cons. cbn [strings.Replace_go].
    replace (strings.HasPrefix (String o (old +:+ post)) (String o old)) with true
      by (symmetry; apply HasPrefix_true; now exists post).
    cbn [String.length].
    replace (S (String.length old) - 1)%nat with (String.length old) by lia.
    now rewrite Replace_go_skip.
  - rewrite !append_cons. cbn [strings.Replace_go].
    destruct (strings.HasPrefix _ old) eqn:Hp.
    + apply HasPrefix_true in Hp as [rest E].
      specialize (Hleft "" rest). rewrite append_nil, append_cons in Hleft.
      specialize (Hleft E). cbn [String.length] in Hleft. lia.
    + f_equal. apply IH. split; [reflexivity|].
      intros a b E. specialize (Hleft (String c a) b).
      rewrite !append_cons, E in Hleft. specialize (Hleft eq_refl).
      cbn [String.length] in Hleft. lia.
Qed.

Lemma Replace_go_once old new s pre post :
  old <> "" -> leftmost old s pre post -> ~ occurs old post ->
  strings.Replace_go old new 0 s = pre +:+ new +:+ post.
Proof.
  intros Hold Hleft Hno.
  rewrite (Replace_go_leftmost old new s pre post Hold Hleft).
  now rewrite (Replace_go_absent old new post Hno).
Qed.

Lemma ReplaceAll_sync content :
  strings.ReplaceAll content "sites/default/files/sync" "../config/sync"
  = strings.Replace_go "sites/default/files/sync" "../config/sync" 0 content.
Proof. reflexivity. Qed.

Section SettingsRewrite.

Context {P : Platform}.

Lemma setupDrupalSettings_writes (p : string) (w : World) (content : string) :
  let cfg := filepath.Join [p; "config"; "sync"] in
  let settingsPath :=
    filepath.Join [p; "web"; "sites"; "default"; "settings.ddev.php"] in
  fst (mkdir_all (machine w) cfg 493) = None ->
  read_file (snd (mkdir_all (machine w) cfg 493)) settingsPath = (content, None) ->
  exists r w' rest,
    setupDrupalSettings p w = (Done r, w') /\
    trace w' =
      (trace w ++
       MkdirAll cfg 493 :: ReadFile settingsPath ::
       WriteFile settingsPath
         (strings.ReplaceAll content "sites/default/files/sync" "../config/sync")
         420 :: rest)%list.
Proof.
  intros cfg settingsPath Hmk Hrd.
  destruct (setupDrupalSettings_returns p w) as (r & w' & E).
  exists r, w'. rewrite E.
  revert E. unfold setupDrupalSettings. io_run.
  fold cfg. fold settingsPath. rewrite Hmk. io_run. rewrite Hrd. io_run.
  repeat match goal with
         | |- context [match ?e with Some _ => _ | None => _ end] =>
           destruct e; io_run
         | |- context [if ?b then _ else _] => destruct b; io_run
         end;
    intros [= <- <-]; world_simpl; eexists; (split; [reflexivity|]);
    rewrite <- ?app_assoc; cbn [app]; reflexivity.
Qed.

End SettingsRewrite.

(** ** The site URL (claim C3) *)

Section SiteURL.

Context {P : Platform}.





End SiteURL.

(** * The claims *)

Section Claims.

Context {P : Platform}.

(** C1.  Lower case is read as Go computes it: a string is in lower
    case when [strings.ToLower] returns it as it is.  Provided the
    Unicode case table lowers no rune twice and leaves U+FFFD alone:
    the directory name derived from any line is in lower case, has no
    ASCII capital letter and no space, being the trimmed, lower-cased
    line with a dash for each space; capital letters beyond ASCII are
    lowered as the table says, so that "ÉCOLE Site" gives "école-site"
    with a table that lowers U+00C9; an empty line, a line of ASCII
    white space and a line of Unicode white space are rejected, and on
    a rejected line [initDrupalProject] returns the error "empty
    project name" after the line "Project name cannot be empty",
    without any system call, and leaves the machine as it was; on an
    accepted line
    it asks for the working directory and, unless that fails, runs the
    [composer] scaffold command on the path [cwd/name] and nothing
    else, returning that path when the command succeeds and the error
    of the command when it fails; and "  My Site  " gives "my-site",
    the scaffold command being run on [cwd/my-site]. *)
Theorem project_name_normalized :
  (forall r, 127 < r -> unicode.ToLower lower (lower r) = lower r) ->
  lower utf8.RuneError = utf8.RuneError ->
  (forall line name,
      projectNameOf line = Some name ->
      lower_case name /\ no_capital name /\ no_space name /\
      name = of_bytes (map dash (bytes (strings.ToLower lower
                                          (strings.TrimSpace line))))) /\
  (lower 201 = 233 -> projectNameOf "ÉCOLE Site" = Some "école-site") /\
  (forall line, blank line \/ white line -> projectNameOf line = None) /\
  (forall line, projectNameOf line = None <-> strings.TrimSpace line = "") /\
  (forall w : World,
      projectNameOf (next_line w) = None ->
      exists w',
        initDrupalProject w
        = (Done ("", Some (mkError "empty project name" false)), w') /\
        trace w' = trace w /\ machine w' = machine w /\
        stdout w'
        = (stdout w ++ [info_line "Initializing Drupal project..."; "" +:+ LF;
                        "Enter your Drupal project name (e.g., 'my-drupal-site'): ";
                        error_line "Project name cannot be empty"])%list) /\
  (forall (w : World) name,
      projectNameOf (next_line w) = Some name ->
      let asked := [info_line "Initializing Drupal project..."; "" +:+ LF;
                    "Enter your Drupal project name (e.g., 'my-drupal-site'): "] in
      (forall msg,
          refused Getwd (machine w) = Some msg ->
          exists w',
            initDrupalProject w = (Done ("", Some (mkError msg false)), w') /\
            trace w' = (trace w ++ [Getwd])%list /\
            machine w' = machine w /\
            stdout w' = (stdout w ++ asked
                         ++ [error_line "Failed to get current directory"])%list) /\
      (refused Getwd (machine w) = None ->
       let projectPath := filepath.Join [cwd (machine w); name] in
       let r := child (composer_create projectPath) (machine w) in
       exists w',
         initDrupalProject w
         = (Done (match pr_err (fst r) with
                  | Some err => ("", Some err)
                  | None => (projectPath, None)
                  end), w') /\
         trace w' = (trace w ++ [Getwd; Start (composer_create projectPath)])%list /\
         machine w' = snd r /\
         stdout w'
         = (stdout w ++ asked
            ++ [info_line ("Creating Drupal project: " +:+ name);
                match pr_err (fst r) with
                | Some _ => error_line "Failed to create Drupal project"
                | None =>
                  success_line ("✓ Drupal project '" +:+ name +:+ "' initialized")
                end])%list)) /\
  projectNameOf "  My Site  " = Some "my-site" /\
  projectNameOf ("  My Site  " +:+ LF) = Some "my-site" /\
  (forall w : World,
      next_line w = "  My Site  " +:+ LF ->
      refused Getwd (machine w) = None ->
      trace (snd (initDrupalProject w))
      = (trace w ++ [Getwd;
                     Start (composer_create
                              (filepath.Join [cwd (machine w); "my-site"]))])%list).
Proof.
  intros Hidem Hrep.
  pose proof (table_no_capital lower Hidem) as Hlow.
  split; [|split; [|split; [|split; [|split; [|split; [|split; [|split]]]]]]].
  - intros line name H. split; [|split; [|split]].
    + now apply (projectNameOf_lower line name Hidem Hrep).
    + now apply (projectNameOf_shape line name Hlow).
    + now apply (projectNameOf_shape line name Hlow).
    + now apply projectNameOf_dashes.
  - apply projectNameOf_ecole.
  - intros line [Hb|Hw]; apply projectNameOf_None;
      [now apply TrimSpace_blank|now apply TrimSpace_white].
  - intros line. apply projectNameOf_None.
  - apply initDrupalProject_empty.
  - apply initDrupalProject_runs.
  - apply projectNameOf_my_site.
  - apply projectNameOf_my_site.
  - intros w Hline Hr.
    assert (Hname : projectNameOf (next_line w) = Some "my-site")
      by (rewrite Hline; apply projectNameOf_my_site).
    destruct (proj2 (initDrupalProject_runs w "my-site" Hname) Hr) as (w' & E & Ht & _).
    now rewrite E.
Qed.

(** C2 (amended).  [setupDrupalSettings] writes back the settings file
    with every occurrence of "sites/default/files/sync" replaced by
    "../config/sync", scanning from the left and resuming after each
    replaced occurrence, all other bytes kept: a content without the
    fragment is written back as it is; a content is rewritten up to and
    including its leftmost occurrence and then the rest likewise; and a
    content in which the fragment occurs exactly once has it replaced
    exactly once and is otherwise byte-identical. *)
Theorem settings_rewrite_replaces_all :
  let old := "sites/default/files/sync" in
  let new := "../config/sync" in
  (forall (p : string) (w : World) (content : string),
      let cfg := filepath.Join [p; "config"; "sync"] in
      let settingsPath :=
        filepath.Join [p; "web"; "sites"; "default"; "settings.ddev.php"] in
      fst (mkdir_all (machine w) cfg 493) = None ->
      read_file (snd (mkdir_all (machine w) cfg 493)) settingsPath = (content, None) ->
      exists r w' rest,
        setupDrupalSettings p w = (Done r, w') /\
        trace w' =
          (trace w ++
           MkdirAll cfg 493 :: ReadFile settingsPath ::
           WriteFile settingsPath (strings.ReplaceAll content old new) 420 :: rest)%list) /\
  (forall content,
      ~ occurs old content -> strings.ReplaceAll content old new = content) /\
  (forall content pre post,
      leftmost old content pre post ->
      strings.ReplaceAll content old new
      = pre +:+ new +:+ strings.ReplaceAll post old new) /\
  (forall content pre post,
      content = pre +:+ old +:+ post ->
      (forall a b, content = a +:+ old +:+ b -> a = pre) ->
      strings.ReplaceAll content old new = pre +:+ new +:+ post /\
      replaced_once old new content (strings.ReplaceAll content old new)).
Proof.
  intros old new. split; [|split; [|split]].
  - intros p w content. apply setupDrupalSettings_writes.
  - intros content Hno. rewrite ReplaceAll_sync. now apply Replace_go_absent.
  - intros content pre post Hleft. rewrite !ReplaceAll_sync.
    now apply Replace_go_leftmost.
  - intros content pre post Hsplit Huniq.
    assert (E : strings.ReplaceAll content old new = pre +:+ new +:+ post).
    { rewrite ReplaceAll_sync. apply Replace_go_once; [discriminate| |].
      - split; [exact Hsplit|]. intros a b Hab. now rewrite (Huniq a b Hab).
      - intros (a & b & Hpost).
        assert (Hab : content = (pre +:+ old +:+ a) +:+ old +:+ b).
        { rewrite Hsplit, Hpost. now rewrite !append_assoc. }
        apply Huniq in Hab. apply (f_equal String.length) in Hab.
        rewrite !append_length in Hab. cbn [String.length old] in Hab. lia. }
    split; [exact E|]. exists pre, post. now split.
Qed.




(** C6.  When the tool is already there (Homebrew lists [docker]; [colima]
    or [ddev] is on the search path) the install step returns [true], its
    only system call is the check itself, and it prints its status line
    and the "already installed" line: no install command is run. *)
Theorem ensure_installed_idempotent (w : World) :
  (pr_err (fst (child (brew_list "docker") (machine w))) = None ->
   exists w',
     installDocker w = (Done true, w') /\
     trace w' = (trace w ++ [Start (brew_list "docker")])%list /\
     machine w' = snd (child (brew_list "docker") (machine w)) /\
     stdout w' = (stdout w ++ [info_line "Checking Docker Desktop installation...";
                               success_line "Docker Desktop is already installed"])%list)
  /\
  (on_path "colima" (machine w) = true ->
   exists w',
     installColima w = (Done true, w') /\
     trace w' = (trace w ++ [LookPath "colima"])%list /\
     machine w' = machine w /\
     stdout w' = (stdout w ++ [info_line "Checking Colima installation...";
                               success_line "Colima is already installed"])%list)
  /\
  (on_path "ddev" (machine w) = true ->
   exists w',
     installDDEV w = (Done true, w') /\
     trace w' = (trace w ++ [LookPath "ddev"])%list /\
     machine w' = machine w /\
     stdout w' = (stdout w ++ [info_line "Checking DDEV installation...";
                               success_line "DDEV is already installed"])%list).
Proof.
  repeat split; intros H.
  - rewrite (installDocker_present w H). eexists. split; [reflexivity|].
    world_simpl. repeat split. now rewrite <- app_assoc.
  - rewrite (installColima_present w H). eexists. split; [reflexivity|].
    world_simpl. repeat split. now rewrite <- app_assoc.
  - rewrite (installDDEV_present w H). eexists. split; [reflexivity|].
    world_simpl. repeat split. now rewrite <- app_assoc.
Qed.

(** C7.  At the back-end prompt, the line read, once trimmed, selects
    Colima when it is exactly "2" and Docker Desktop in every other case,
    the empty line and the line of white space included; the prompt makes
    no system call. *)
Theorem backend_selection (w : World) :
  exists prov w',
    selectDockerProvider w = (Done prov, w') /\
    (strings.TrimSpace (next_line w) = "2" -> prov = "colima") /\
    (strings.TrimSpace (next_line w) <> "2" -> prov = "docker") /\
    (white (next_line w) -> prov = "docker") /\
    trace w' = trace w /\ machine w' = machine w.
Proof.
  rewrite selectDockerProvider_spec. eexists _, _. split; [reflexivity|].
  destruct (String.eqb_spec (strings.TrimSpace (next_line w)) "2") as [E|N].
  - repeat split; try reflexivity; try contradiction.
    intros Hw. rewrite (TrimSpace_white _ Hw) in E. discriminate.
  - repeat split; try reflexivity. intros E. contradiction.
Qed.

(** C8.  [installDDEV] returns [false] after a successful fresh install
    and [true] only when [ddev] was on the search path already; so when
    [main] reaches the step in a world [w] without [ddev] and the install
    succeeds, the process exits with status 1 in the world the install
    left. *)
Theorem fresh_ddev_install_exits (w : World) :
  (on_path "ddev" (machine w) = false ->
   pr_err (fst (child (brew_install "ddev/ddev/ddev") (machine w))) = None ->
   exists w',
     installDDEV w = (Done false, w') /\
     trace w' = (trace w ++ [LookPath "ddev";
                             Start (brew_install "ddev/ddev/ddev")])%list)
  /\
  (forall w', installDDEV w = (Done true, w') -> on_path "ddev" (machine w) = true)
  /\
  (forall w_start prov w0 p,
     prologue w_start = (Done prov, w0) ->
     pipeline [stepHomebrew; stepBackend prov] "" w0 = (Done p, w) ->
     on_path "ddev" (machine w) = false ->
     pr_err (fst (child (brew_install "ddev/ddev/ddev") (machine w))) = None ->
     main w_start = (Exited 1, snd (installDDEV w)) /\
     exit_code (fst (main w_start)) = 1).
Proof.
  split; [|split].
  - intros H1 H2. rewrite (installDDEV_fresh w H1 H2).
    eexists. split; [reflexivity|]. world_simpl. now rewrite <- app_assoc.
  - intros w'. apply installDDEV_true.
  - intros w_start prov w0 p Hpro Hpre H1 H2.
    assert (E : main w_start = (Exited 1, snd (installDDEV w))).
    { apply (main_stops w_start prov w0 [stepHomebrew; stepBackend prov] stepDDEV
               (skipn 3 (fatal_steps prov)) p w _ Hpro eq_refl Hpre).
      unfold stepDDEV. rewrite (bind_Done _ _ _ _ _ (installDDEV_fresh w H1 H2)).
      rewrite (installDDEV_fresh w H1 H2). reflexivity. }
    split; [exact E|]. now rewrite E.
Qed.

(** C9.  The last check of [setupDrupalSettings] never takes its error
    branch: the line "Config directory not found ..." is never printed,
    and whenever the check is reached (the [Stat] call on [config/sync]
    is made) the function returns no error and prints its success line.
    The directory made by [MkdirAll] is still there: the calls in between
    only read and write files. *)
Theorem config_dir_check_unreachable (p : string) (w : World) :
  exists r w' out calls,
    setupDrupalSettings p w = (Done r, w') /\
    stdout w' = (stdout w ++ out)%list /\
    trace w' = (trace w ++ calls)%list /\
    ~ In (error_line "Config directory not found at config/sync. Skipping config import.") out /\
    (In (Stat (filepath.Join [p; "config"; "sync"])) calls ->
     r = None /\ In (success_line "✓ Drupal settings setup completed") out).
Proof. apply setupDrupalSettings_check. Qed.

(** C10.  In the Docker Desktop branch, from the world [w1] in which the
    Homebrew check succeeded: the result of [installDocker] is dropped,
    and the run exits with status 1 in this branch exactly when
    [docker info], run after [installDocker], fails; when it succeeds the
    run goes on with the DDEV install step whatever [installDocker]
    returned. *)
Theorem docker_branch_exit (w_start w0 w1 : World) (p : string) :
  prologue w_start = (Done "docker", w0) ->
  pipeline [stepHomebrew] "" w0 = (Done p, w1) ->
  let w2 := snd (installDocker (say ("" +:+ LF) w1)) in
  let running := is_nil (pr_err (fst (child docker_info (machine w2)))) in
  let w3 := snd (checkDockerRunning w2) in
  (running = false ->
   main w_start
   = (Exited 1,
      say (error_line "Please start Docker Desktop and run this script again.") w3))
  /\
  (running = true ->
   main w_start
   = bind (pipeline (skipn 2 (fatal_steps "docker")) p) epilogue w3).
Proof.
  intros Hpro Hpre w2 running w3.
  pose proof (ensureBackend_docker w1) as Hb. cbv zeta in Hb.
  fold w2 in Hb. fold running in Hb. fold w3 in Hb.
  split; intros Hr; rewrite Hr in Hb.
  - apply (main_stops w_start "docker" w0 [stepHomebrew] (stepBackend "docker")
             (skipn 2 (fatal_steps "docker")) p w1 _ Hpro eq_refl Hpre).
    unfold stepBackend. now rewrite (bind_Done _ _ _ _ _ Hb).
  - rewrite (main_from_prologue _ _ _ Hpro).
    unfold bind at 1.
    change (fatal_steps "docker")
      with ([stepHomebrew] ++ stepBackend "docker" :: skipn 2 (fatal_steps "docker"))%list.
    rewrite (pipeline_goes_on _ _ _ _ _ _ Hpre).
    cbn [pipeline]. unfold stepBackend at 1.
    rewrite bind_bind. rewrite (bind_Done _ _ _ _ _ Hb). rewrite bind_ret.
    reflexivity.
Qed.

End Claims.


(** * The claims on examples *)

(** C1 with the case table of the example machine, on the lines
    "  My Site  " and "ÉCOLE Site". *)
Lemma project_name_normalized_witness :
  (@lower_case Demo.platform "my-site" /\ no_capital "my-site" /\ no_space "my-site") /\
  @projectNameOf Demo.platform "ÉCOLE Site" = Some "école-site" /\
  trace (snd (initDrupalProject (Demo.world Demo.ready [Demo.line "  My Site  "])))
  = [Getwd; Start (composer_create "/Users/dev/my-site")].
Proof.
  assert (Hidem : forall r, 127 < r ->
             unicode.ToLower (@lower Demo.platform) (@lower Demo.platform r)
             = @lower Demo.platform r).
  { intros r Hr. exact (lower_table_twice r Hr). }
  assert (Hrep : @lower Demo.platform utf8.RuneError = utf8.RuneError)
    by (vm_compute; reflexivity).
  pose proof (@project_name_normalized Demo.platform Hidem Hrep)
    as (Hname & Hecole & _ & _ & _ & _ & _ & _ & Hrun).
  split; [|split].
  - destruct (Hname "  My Site  " "my-site" eq_refl) as (H1 & H2 & H3 & _).
    exact (conj H1 (conj H2 H3)).
  - apply Hecole. reflexivity.
  - exact (Hrun (Demo.world Demo.ready [Demo.line "  My Site  "]) eq_refl eq_refl).
Defined.

(** C2 fails as worded: a settings file that names the sync directory
    twice is written back with both occurrences replaced, which is no
    replacement of a single occurrence. *)
Lemma settings_rewrite_twice :
  occurs "sites/default/files/sync" Demo.two_syncs /\
  exists data,
    nth_error (trace (snd (setupDrupalSettings "/p" (Demo.site Demo.two_syncs)))) 2
    = Some (WriteFile "/p/web/sites/default/settings.ddev.php" data 420) /\
    ~ replaced_once "sites/default/files/sync" "../config/sync" Demo.two_syncs data.
Proof.
  split.
  - exists "$a = '", "'; $b = 'sites/default/files/sync';". reflexivity.
  - exists "$a = '../config/sync'; $b = '../config/sync';".
    split; [vm_compute; reflexivity|].
    intros (pre & post & E1 & E2).
    apply (f_equal String.length) in E1. apply (f_equal String.length) in E2.
    rewrite !append_length in E1, E2. unfold Demo.two_syncs in E1.
    cbn [String.length] in E1, E2. lia.
Qed.

(** C2 as amended, on the settings file DDEV generates. *)
Lemma settings_rewrite_replaces_all_witness :
  exists r w' rest,
    setupDrupalSettings "/p" (Demo.site Demo.settings_php) = (Done r, w') /\
    trace w' =
      MkdirAll "/p/config/sync" 493
      :: ReadFile "/p/web/sites/default/settings.ddev.php"
      :: WriteFile "/p/web/sites/default/settings.ddev.php"
           "$settings['config_sync_directory'] = '../config/sync';" 420
      :: rest.
Proof.
  apply (proj1 (@settings_rewrite_replaces_all Demo.platform)
           "/p" (Demo.site Demo.settings_php) Demo.settings_php);
    vm_compute; reflexivity.
Defined.




(** C6 on a machine that has DDEV. *)
Lemma ensure_installed_idempotent_witness :
  exists w',
    installDDEV (Demo.world Demo.ready []) = (Done true, w') /\
    trace w' = [LookPath "ddev"] /\
    machine w' = mkMachine ∅ Demo.ready /\
    stdout w' = [info_line "Checking DDEV installation...";
                 success_line "DDEV is already installed"].
Proof.
  apply (proj2 (proj2 (@ensure_installed_idempotent Demo.platform
                         (Demo.world Demo.ready [])))).
  reflexivity.
Defined.

(** C7 on the answer "2". *)
Lemma backend_selection_witness :
  fst (selectDockerProvider (Demo.world Demo.ready [Demo.line "2"])) = Done "colima".
Proof.
  destruct (@backend_selection Demo.platform (Demo.world Demo.ready [Demo.line "2"]))
    as (prov & w' & E & Hcolima & _).
  rewrite E. cbn [fst]. f_equal. apply Hcolima. vm_compute. reflexivity.
Defined.

(** C8 on a machine without DDEV: the install succeeds and the run ends
    with status 1. *)
Lemma fresh_ddev_install_exits_witness :
  let w_start := Demo.world Demo.no_ddev [Demo.line "1"] in
  let w0 := snd (prologue w_start) in
  let w := snd (pipeline [stepHomebrew; stepBackend "docker"] "" w0) in
  main w_start = (Exited 1, snd (installDDEV w)) /\
  exit_code (fst (main w_start)) = 1.
Proof.
  intros w_start w0 w.
  assert (Hpro : prologue w_start = (Done "docker", w0)) by (vm_compute; reflexivity).
  assert (Hpre : pipeline [stepHomebrew; stepBackend "docker"] "" w0 = (Done "", w))
    by (vm_compute; reflexivity).
  assert (Hpath : on_path "ddev" (machine w) = false) by (vm_compute; reflexivity).
  assert (Hbrew : pr_err (fst (child (brew_install "ddev/ddev/ddev") (machine w))) = None)
    by (vm_compute; reflexivity).
  exact (proj2 (proj2 (@fresh_ddev_install_exits Demo.platform w))
           w_start "docker" w0 "" Hpro Hpre Hpath Hbrew).
Defined.

(** C9 on the settings file DDEV generates. *)
Lemma config_dir_check_unreachable_witness :
  ~ In (error_line "Config directory not found at config/sync. Skipping config import.")
       (stdout (snd (setupDrupalSettings "/p" (Demo.site Demo.settings_php)))).
Proof.
  destruct (@config_dir_check_unreachable Demo.platform "/p" (Demo.site Demo.settings_php))
    as (r & w' & out & calls & E & Hout & _ & Hno & _).
  rewrite E. cbn [snd]. rewrite Hout. exact Hno.
Defined.

(** C10 on a machine where Docker is installed and not running. *)
Lemma docker_branch_exit_witness :
  let w_start := Demo.world Demo.docker_down [Demo.line "1"] in
  let w0 := snd (prologue w_start) in
  let w1 := snd (pipeline [stepHomebrew] "" w0) in
  let w3 := snd (checkDockerRunning (snd (installDocker (say ("" +:+ LF) w1)))) in
  main w_start
  = (Exited 1,
     say (error_line "Please start Docker Desktop and run this script again.") w3).
Proof.
  intros w_start w0 w1 w3.
  assert (Hpro : prologue w_start = (Done "docker", w0)) by (vm_compute; reflexivity).
  assert (Hpre : pipeline [stepHomebrew] "" w0 = (Done "", w1))
    by (vm_compute; reflexivity).
  assert (Hdown : is_nil (pr_err (fst (child docker_info
                    (machine (snd (installDocker (say ("" +:+ LF) w1))))))) = false)
    by (vm_compute; reflexivity).
  exact (proj1 (@docker_branch_exit Demo.platform w_start w0 w1 "" Hpro Hpre) Hdown).
Defined.


(** * Further properties of the code: lemmas *)

(** ** Clean rooted paths *)

Lemma split_go_app l rest cur :
  forallb (fun c => negb (Ascii.eqb c filepath.slash)) l = true ->
  filepath.split_go (l ++ rest) cur = filepath.split_go rest (rev l ++ cur).
Proof.
  revert cur. induction l as [|c l IH]; intros cur H; [reflexivity|].
  cbn [forallb] in H. apply andb_true_iff in H as [Hc Hl].
  cbn [app filepath.split_go].
  destruct (Ascii.eqb c filepath.slash); [discriminate|].
  rewrite (IH _ Hl). cbn [rev]. now rewrite <- app_assoc.
Qed.

Lemma bytes_cons c s : bytes (String c s) = c :: bytes s.
Proof. reflexivity. Qed.

Lemma split_go_Join e es cur :
  Forall (fun x => no_slash x = true) (e :: es) ->
  filepath.split_go (bytes (strings.Join (e :: es) "/")) cur
  = of_bytes (rev cur ++ bytes e) :: es.
Proof.
  revert e cur. induction es as [|e' es IH]; intros e cur H.
  - cbn [strings.Join]. apply Forall_inv in H.
    rewrite <- (app_nil_r (bytes e)) at 1.
    rewrite (split_go_app _ _ _ H). cbn [filepath.split_go].
    now rewrite rev_app_distr, rev_involutive.
  - pose proof (Forall_inv H) as He. apply Forall_inv_tail in H.
    change (strings.Join (e :: e' :: es) "/")
      with (e +:+ "/" +:+ strings.Join (e' :: es) "/").
    rewrite bytes_app, append_cons, append_nil, bytes_cons.
    rewrite (split_go_app _ _ _ He). cbn [filepath.split_go].
    change (Ascii.eqb "/" filepath.slash) with true. cbv iota.
    rewrite rev_app_distr, rev_involutive. f_equal.
    rewrite (IH e' [] H). cbn [rev app]. now rewrite of_bytes_bytes.
Qed.

Lemma split_absolute comps :
  comps <> [] ->
  Forall (fun x => no_slash x = true) comps ->
  filepath.split (absolute comps) = "" :: comps.
Proof.
  intros Hne H. destruct comps as [|e es]; [contradiction|].
  unfold filepath.split, absolute. rewrite append_cons, append_nil, bytes_cons.
  cbn [filepath.split_go]. change (Ascii.eqb "/" filepath.slash) with true.
  cbv iota. cbn [rev of_bytes string_of_list_ascii]. f_equal.
  rewrite (split_go_Join e es [] H). cbn [rev app]. now rewrite of_bytes_bytes.
Qed.

Lemma is_normal_no_slash e : is_normal e = true -> no_slash e = true.
Proof. unfold is_normal. intros H. now apply andb_true_iff in H as [_ H]. Qed.

Lemma Forall_normal_no_slash comps :
  Forall (fun x => is_normal x = true) comps ->
  Forall (fun x => no_slash x = true) comps.
Proof.
  intros H. induction H as [|e es He _ IH]; constructor;
    [now apply is_normal_no_slash|exact IH].
Qed.

Lemma clean_step_normal rooted kept e :
  is_normal e = true -> filepath.clean_step rooted kept e = e :: kept.
Proof.
  unfold is_normal, filepath.clean_step. intros H.
  apply andb_true_iff in H as [H _]. apply andb_true_iff in H as [H H3].
  apply andb_true_iff in H as [H1 H2].
  destruct (String.eqb e ""); [discriminate|].
  destruct (String.eqb e "."); [discriminate|].
  destruct (String.eqb e ".."); [discriminate|]. reflexivity.
Qed.

Lemma fold_clean_normal rooted comps kept :
  Forall (fun x => is_normal x = true) comps ->
  fold_left (filepath.clean_step rooted) comps kept = (rev comps ++ kept)%list.
Proof.
  intros H. revert kept. induction H as [|e es He _ IH]; intros kept; [reflexivity|].
  cbn [fold_left rev]. rewrite (clean_step_normal _ _ _ He), IH.
  now rewrite <- app_assoc.
Qed.

Lemma absolute_cons comps :
  absolute comps = String "/" (strings.Join comps "/").
Proof. unfold absolute. now rewrite append_cons, append_nil. Qed.

Lemma Clean_rooted rest :
  filepath.Clean (String "/" rest)
  = "/" +:+ strings.Join
              (rev (fold_left (filepath.clean_step true)
                              (filepath.split (String "/" rest)) [])) "/".
Proof.
  unfold filepath.Clean. change (Ascii.eqb "/" filepath.slash) with true.
  cbv iota zeta. rewrite append_cons, append_nil. reflexivity.
Qed.

Lemma Clean_absolute comps :
  Forall (fun x => is_normal x = true) comps ->
  filepath.Clean (absolute comps) = absolute comps.
Proof.
  intros H. destruct comps as [|e es]; [reflexivity|].
  rewrite absolute_cons at 1. rewrite Clean_rooted. rewrite <- absolute_cons.
  rewrite split_absolute by (try discriminate; now apply Forall_normal_no_slash).
  change (fold_left (filepath.clean_step true) ("" :: e :: es) [])
    with (fold_left (filepath.clean_step true) (e :: es) []).
  rewrite (fold_clean_normal _ _ _ H), app_nil_r, rev_involutive.
  reflexivity.
Qed.

Lemma Join_app a b sep :
  a <> [] -> b <> [] ->
  strings.Join (a ++ b) sep = strings.Join a sep +:+ sep +:+ strings.Join b sep.
Proof.
  intros Ha Hb. induction a as [|x a IH]; [contradiction|].
  destruct a as [|y a].
  - destruct b as [|z b]; [contradiction|]. reflexivity.
  - change (strings.Join ((x :: y :: a) ++ b) sep)
      with (x +:+ sep +:+ strings.Join ((y :: a) ++ b) sep).
    rewrite IH by discriminate.
    change (strings.Join (x :: y :: a) sep)
      with (x +:+ sep +:+ strings.Join (y :: a) sep).
    now rewrite !append_assoc.
Qed.

Lemma absolute_app comps rel :
  comps <> [] -> rel <> [] ->
  absolute (comps ++ rel) = absolute comps +:+ "/" +:+ strings.Join rel "/".
Proof.
  intros Hc Hr. unfold absolute. rewrite (Join_app _ _ _ Hc Hr).
  now rewrite !append_assoc.
Qed.

(** [filepath.Join] of a clean rooted path and further elements.  *)
Lemma Join_absolute comps rel :
  Forall (fun x => is_normal x = true) comps ->
  Forall (fun x => is_normal x = true) rel ->
  rel <> [] ->
  filepath.Join (absolute comps :: rel) = absolute (comps ++ rel).
Proof.
  intros Hc Hr Hne. destruct rel as [|r rs]; [contradiction|].
  cbn [filepath.Join]. rewrite absolute_cons at 1.
  cbn [String.eqb]. 
  change (strings.Join (absolute comps :: r :: rs) "/")
    with (absolute comps +:+ "/" +:+ strings.Join (r :: rs) "/").
  destruct comps as [|c cs].
  - change (absolute []) with "/". rewrite !append_cons, !append_nil.
    rewrite Clean_rooted. cbn [app].
    unfold filepath.split. rewrite !bytes_cons.
    cbn [filepath.split_go]. change (Ascii.eqb "/" filepath.slash) with true.
    cbv iota. cbn [rev of_bytes string_of_list_ascii].
    rewrite (split_go_Join r rs []) by now apply Forall_normal_no_slash.
    cbn [rev app]. rewrite of_bytes_bytes.
    change (fold_left (filepath.clean_step true) ("" :: "" :: r :: rs) [])
      with (fold_left (filepath.clean_step true) (r :: rs) []).
    rewrite (fold_clean_normal _ _ _ Hr), app_nil_r, rev_involutive.
    reflexivity.
  - rewrite <- absolute_app by discriminate.
    apply Clean_absolute. now apply Forall_app.
Qed.

Lemma forallb_rev {A} (f : A -> bool) l : forallb f (rev l) = forallb f l.
Proof.
  induction l as [|x l IH]; [reflexivity|].
  cbn [rev forallb]. rewrite forallb_app, IH. cbn [forallb].
  rewrite andb_true_r. apply andb_comm.
Qed.

Lemma split_go_no_slash l cur :
  forallb (fun c => negb (Ascii.eqb c filepath.slash)) cur = true ->
  Forall (fun x => no_slash x = true) (filepath.split_go l cur).
Proof.
  revert cur. induction l as [|c l IH]; intros cur H; cbn [filepath.split_go].
  - constructor; [|constructor]. unfold no_slash.
    now rewrite bytes_of_bytes, forallb_rev.
  - destruct (Ascii.eqb c filepath.slash) eqn:E.
    + constructor; [|now apply IH]. unfold no_slash.
      now rewrite bytes_of_bytes, forallb_rev.
    + apply IH. cbn [forallb]. now rewrite E, H.
Qed.

Lemma clean_step_keeps_normal kept e :
  no_slash e = true ->
  Forall (fun x => is_normal x = true) kept ->
  Forall (fun x => is_normal x = true) (filepath.clean_step true kept e).
Proof.
  intros He Hk. unfold filepath.clean_step.
  destruct (String.eqb e "") eqn:E1; [exact Hk|].
  destruct (String.eqb e ".") eqn:E2; [exact Hk|]. cbn [orb].
  destruct (String.eqb e "..") eqn:E3.
  - destruct Hk as [|top below Ht Hb]; [constructor|].
    unfold is_normal in Ht.
    destruct (String.eqb top ".."); [|exact Hb].
    rewrite andb_false_r in Ht. discriminate.
  - constructor; [|exact Hk]. unfold is_normal. now rewrite E1, E2, E3, He.
Qed.

Lemma fold_clean_keeps_normal elems kept :
  Forall (fun x => no_slash x = true) elems ->
  Forall (fun x => is_normal x = true) kept ->
  Forall (fun x => is_normal x = true)
         (fold_left (filepath.clean_step true) elems kept).
Proof.
  intros H. revert kept. induction H as [|e es He _ IH]; intros kept Hk; [exact Hk|].
  cbn [fold_left]. apply IH. now apply clean_step_keeps_normal.
Qed.

(** Cleaning a rooted path gives a rooted path of normal elements. *)
Lemma Clean_rooted_absolute rest :
  exists comps,
    Forall (fun x => is_normal x = true) comps /\
    filepath.Clean (String "/" rest) = absolute comps.
Proof.
  rewrite Clean_rooted.
  exists (rev (fold_left (filepath.clean_step true)
                         (filepath.split (String "/" rest)) [])).
  split; [|reflexivity].
  apply Forall_rev. apply fold_clean_keeps_normal; [|constructor].
  now apply split_go_no_slash.
Qed.

Lemma Join_rooted rest name :
  exists comps,
    Forall (fun x => is_normal x = true) comps /\
    filepath.Join [String "/" rest; name] = absolute comps.
Proof.
  cbn [filepath.Join String.eqb].
  change (strings.Join [String "/" rest; name] "/")
    with (String "/" rest +:+ "/" +:+ name).
  rewrite append_cons. apply Clean_rooted_absolute.
Qed.

(** The parent directory: [..] removes the last element. *)
Lemma Join_parent comps d :
  Forall (fun x => is_normal x = true) (comps ++ [d]) ->
  filepath.Join [absolute (comps ++ [d]); ".."] = absolute comps.
Proof.
  intros H. cbn [filepath.Join]. rewrite absolute_cons at 1. cbn [String.eqb].
  change (strings.Join [absolute (comps ++ [d]); ".."] "/")
    with (absolute (comps ++ [d]) +:+ "/" +:+ strings.Join [".."] "/").
  rewrite <- absolute_app by (try discriminate; now destruct comps).
  rewrite absolute_cons, Clean_rooted, <- absolute_cons.
  rewrite split_absolute.
  - change (fold_left (filepath.clean_step true) ("" :: (comps ++ [d]) ++ [".."]) [])
      with (fold_left (filepath.clean_step true) ((comps ++ [d]) ++ [".."]) []).
    rewrite fold_left_app, (fold_clean_normal _ _ _ H), app_nil_r.
    rewrite rev_app_distr. cbn [rev app fold_left].
    unfold filepath.clean_step at 1. cbn [String.eqb Ascii.eqb Bool.eqb orb].
    apply Forall_app in H as [Hc Hd]. apply Forall_inv in Hd.
    unfold is_normal in Hd. destruct (String.eqb d "..").
    + rewrite andb_false_r in Hd. discriminate.
    + now rewrite rev_involutive.
  - now destruct comps.
  - apply Forall_app. split; [now apply Forall_normal_no_slash|].
    now repeat constructor.
Qed.

Lemma split_absolute_inj a b :
  a <> [] -> b <> [] ->
  Forall (fun x => no_slash x = true) a ->
  Forall (fun x => no_slash x = true) b ->
  absolute a = absolute b -> a = b.
Proof.
  intros Ha Hb Hsa Hsb E. apply (f_equal filepath.split) in E.
  rewrite !split_absolute in E by assumption. now injection E.
Qed.

(** ** The rewritten settings do not name the old directory *)

Lemma contains_occurs s sub : contains s sub = true <-> occurs sub s.
Proof.
  split.
  - induction s as [|c s IH]; cbn [contains]; intros H.
    + rewrite orb_false_r in H. apply HasPrefix_true in H as [rest E].
      exists "", rest. now rewrite append_nil.
    + apply orb_true_iff in H as [H|H].
      * apply HasPrefix_true in H as [rest E]. exists "", rest. now rewrite append_nil.
      * destruct (IH H) as (a & b & E). exists (String c a), b.
        rewrite append_cons. now f_equal.
  - intros (a & b & ->). induction a as [|c a IH].
    + rewrite append_nil.
      assert (H : strings.HasPrefix (sub +:+ b) sub = true)
        by (apply HasPrefix_true; now exists b).
      destruct (sub +:+ b); cbn [contains]; now rewrite H.
    + rewrite append_cons. cbn [contains]. rewrite IH. apply orb_true_r.
Qed.

Lemma Replace_go_match old new s :
  old <> "" -> strings.HasPrefix s old = true ->
  exists rest,
    s = old +:+ rest /\
    strings.Replace_go old new 0 s = new +:+ strings.Replace_go old new 0 rest.
Proof.
  intros Hold H. pose proof H as H'. apply HasPrefix_true in H' as [rest ->].
  exists rest. split; [reflexivity|].
  destruct old as [|o old]; [contradiction|].
  rewrite append_cons in *. cbn [strings.Replace_go]. rewrite H.
  cbn [String.length]. replace (S (String.length old) - 1)%nat
    with (String.length old) by lia.
  now rewrite Replace_go_skip.
Qed.

(** Up to its first replacement the output is the input: a prefix of the
    output that cannot reach into [new] is a prefix of the input. *)
Lemma Replace_go_prefix old n new u s :
  old <> "" -> ~ In n (bytes u) ->
  strings.HasPrefix (strings.Replace_go old (String n new) 0 s) u = true ->
  strings.HasPrefix s u = true.
Proof.
  intros Hold. revert s. induction u as [|a u IH]; intros s Hn H; [reflexivity|].
  destruct s as [|c t]; [exact H|].
  destruct (strings.HasPrefix (String c t) old) eqn:Hp.
  - destruct (Replace_go_match old (String n new) _ Hold Hp) as (rest & _ & E).
    rewrite E, append_cons in H. cbn [strings.HasPrefix] in H.
    destruct (Ascii.eqb_spec a n) as [->|_]; [|discriminate].
    exfalso. apply Hn. now left.
  - cbn [strings.Replace_go] in H. rewrite Hp in H.
    cbn [strings.HasPrefix] in H |- *.
    destruct (Ascii.eqb a c); [|discriminate].
    apply IH; [|exact H]. intros Hin. apply Hn. now right.
Qed.

Lemma contains_sync_after_new x :
  contains x "sites/default/files/sync" = false ->
  contains ("../config/sync" +:+ x) "sites/default/files/sync" = false.
Proof.
  intros H. rewrite !append_cons, append_nil.
  cbn [contains strings.HasPrefix Ascii.eqb Bool.eqb orb].
  destruct x as [|c x]; [reflexivity|].
  cbn [contains] in H |- *. exact H.
Qed.

(** The rewritten settings no longer name the old sync directory. *)
Lemma Replace_go_sync_gone s :
  contains (strings.Replace_go "sites/default/files/sync" "../config/sync" 0 s)
           "sites/default/files/sync" = false.
Proof.
  assert (Hn : forall n s, (String.length s <= n)%nat ->
    contains (strings.Replace_go "sites/default/files/sync" "../config/sync" 0 s)
             "sites/default/files/sync" = false).
  { clear s. induction n as [|n IH]; intros s Hlen.
    - destruct s; [reflexivity|cbn [String.length] in Hlen; lia].
    - destruct s as [|c t]; [reflexivity|].
      destruct (strings.HasPrefix (String c t) "sites/default/files/sync") eqn:Hp.
      + destruct (Replace_go_match "sites/default/files/sync" "../config/sync" _
                    ltac:(discriminate) Hp)
          as (rest & Es & E).
        rewrite E. apply contains_sync_after_new. apply IH.
        apply (f_equal String.length) in Es. rewrite append_length in Es.
        cbn [String.length] in Es, Hlen. lia.
      + assert (Hq : strings.HasPrefix
                       (String c (strings.Replace_go "sites/default/files/sync"
                                                     "../config/sync" 0 t))
                       "sites/default/files/sync" = false).
        { destruct (strings.HasPrefix (String c (strings.Replace_go _ _ 0 t)) _) eqn:Hq;
            [|reflexivity].
          rewrite <- Hp. symmetry.
          apply (Replace_go_prefix "sites/default/files/sync" "." "./config/sync").
          - discriminate.
          - cbn. intros Hin.
            repeat (destruct Hin as [Hin|Hin]; [discriminate Hin|]). exact Hin.
          - cbn [strings.Replace_go]. rewrite Hp. exact Hq. }
        cbn [strings.Replace_go]. rewrite Hp. cbn [contains].
        rewrite Hq, IH by (cbn [String.length] in Hlen; lia). reflexivity. }
  now apply (Hn (String.length s)).
Qed.

Lemma ReplaceAll_sync_gone content :
  ~ occurs "sites/default/files/sync"
      (strings.ReplaceAll content "sites/default/files/sync" "../config/sync").
Proof.
  rewrite ReplaceAll_sync. intros H. apply contains_occurs in H.
  now rewrite Replace_go_sync_gone in H.
Qed.

Lemma ReplaceAll_sync_idempotent content :
  let rewrite_sync s :=
    strings.ReplaceAll s "sites/default/files/sync" "../config/sync" in
  rewrite_sync (rewrite_sync content) = rewrite_sync content.
Proof.
  intros f. unfold f. rewrite (ReplaceAll_sync (strings.ReplaceAll _ _ _)).
  apply Replace_go_absent. apply ReplaceAll_sync_gone.
Qed.

(** ** The file tree, call by call *)

Section Files.

Context {P : Platform}.


Lemma foldr_mkdir_other (t : gmap string node) dirs q :
  ~ In q dirs -> foldr (fun d m => <[d := Dir]> m) t dirs !! q = t !! q.
Proof.
  induction dirs as [|d ds IH]; intros Hq; [reflexivity|].
  cbn [foldr]. rewrite lookup_insert_ne.
  - apply IH. intros Hin. apply Hq. now right.
  - intros ->. apply Hq. now left.
Qed.


Lemma mkdir_all_ext m path perm : ext (snd (mkdir_all m path perm)) = ext m.
Proof.
  unfold mkdir_all. destruct (refused _ m); [reflexivity|].
  now destruct (fs.mkdir_all (files m) path).
Qed.

Lemma write_file_ext m path data perm :
  ext (snd (write_file m path data perm)) = ext m.
Proof.
  unfold write_file. destruct (refused _ m); [reflexivity|].
  now destruct (fs.write_file (files m) path data).
Qed.

Lemma mkdir_all_frame m path perm q :
  ~ In q (fs.ancestors path ++ [path]) ->
  files (snd (mkdir_all m path perm)) !! q = files m !! q.
Proof.
  intros Hq. unfold mkdir_all. destruct (refused _ m); [reflexivity|].
  unfold fs.mkdir_all. destruct (existsb _ _); [reflexivity|].
  cbn [snd files]. now apply foldr_mkdir_other.
Qed.

Lemma mkdir_all_dirs m path perm d :
  fst (mkdir_all m path perm) = None ->
  In d (fs.ancestors path ++ [path]) ->
  files (snd (mkdir_all m path perm)) !! d = Some Dir.
Proof.
  unfold mkdir_all. destruct (refused _ m); [discriminate|].
  unfold fs.mkdir_all. destruct (existsb _ _); [discriminate|].
  intros _ Hd. cbn [snd files]. now apply foldr_mkdir.
Qed.

Lemma fs_write_file_inl (t t' : gmap string node) path data :
  fs.write_file t path data = inl t' -> t' = <[path := File data]> t.
Proof.
  unfold fs.write_file.
  destruct (t !! path) as [[|c]|]; try discriminate;
    (destruct (last (fs.ancestors path)) as [d|];
     [destruct (t !! d) as [[|c']|]; try discriminate|]; now intros [= <-]).
Qed.

Lemma write_file_frame m path data perm q :
  q <> path -> files (snd (write_file m path data perm)) !! q = files m !! q.
Proof.
  intros Hq. unfold write_file. destruct (refused _ m); [reflexivity|].
  destruct (fs.write_file (files m) path data) as [t|e] eqn:E; [|reflexivity].
  cbn [snd files]. rewrite (fs_write_file_inl _ _ _ _ E).
  now rewrite lookup_insert_ne by congruence.
Qed.

Lemma write_file_ok m path data perm :
  fst (write_file m path data perm) = None ->
  files (snd (write_file m path data perm)) = <[path := File data]> (files m).
Proof.
  unfold write_file. destruct (refused _ m); [discriminate|].
  destruct (fs.write_file (files m) path data) as [t|e] eqn:E; [|discriminate].
  intros _. cbn [snd files]. now apply fs_write_file_inl.
Qed.

Lemma write_file_written m path data perm :
  fst (write_file m path data perm) = None ->
  files (snd (write_file m path data perm)) !! path = Some (File data).
Proof. intros H. rewrite (write_file_ok _ _ _ _ H). apply lookup_insert_eq. Qed.



Lemma read_file_ok m path :
  snd (read_file m path) = None ->
  files m !! path = Some (File (fst (read_file m path))).
Proof.
  unfold read_file. destruct (refused _ m); [discriminate|].
  unfold fs.read_file. destruct (files m !! path) as [[|c]|]; try discriminate.
  reflexivity.
Qed.


(** How [setupDrupalSettings] ends, by the call that failed first: the
    error returned is the error of that call, and the machine is the one
    the calls before it left. *)
Lemma setupDrupalSettings_cases (p : string) (w : World) :
  let cfg := filepath.Join [p; "config"; "sync"] in
  let sp := filepath.Join [p; "web"; "sites"; "default"; "settings.ddev.php"] in
  let ip := filepath.Join [cfg; "environment_indicator.indicator.yml"] in
  let cp := filepath.Join [cfg; "environment_indicator.settings.yml"] in
  let mk := mkdir_all (machine w) cfg 493 in
  let rd := read_file (snd mk) sp in
  let data := strings.ReplaceAll (fst rd) "sites/default/files/sync" "../config/sync" in
  let w1 := write_file (snd mk) sp data 420 in
  let w2 := write_file (snd w1) ip configIndicatorYML 420 in
  let w3 := write_file (snd w2) cp configSettingsYML 420 in
  exists r w',
    setupDrupalSettings p w = (Done r, w') /\
    ((r <> None /\ r = fst mk /\ machine w' = snd mk) \/
     (fst mk = None /\ r <> None /\ r = snd rd /\ machine w' = snd mk) \/
     (fst mk = None /\ snd rd = None /\ r <> None /\ r = fst w1 /\
      machine w' = snd w1) \/
     (fst mk = None /\ snd rd = None /\ fst w1 = None /\ r <> None /\ r = fst w2 /\
      machine w' = snd w2) \/
     (fst mk = None /\ snd rd = None /\ fst w1 = None /\ fst w2 = None /\
      r <> None /\ r = fst w3 /\ machine w' = snd w3) \/
     (fst mk = None /\ snd rd = None /\ fst w1 = None /\ fst w2 = None /\
      fst w3 = None /\ r = None /\ machine w' = snd w3)).
Proof.
  intros cfg sp ip cp mk rd data w1 w2 w3.
  unfold setupDrupalSettings. io_run.
  fold cfg. fold mk.
  pose proof (mkdir_all_dir (machine w) cfg 493) as Hdir. fold mk in Hdir.
  destruct (fst mk) as [e|] eqn:Emk; io_run.
  { eexists _, _. split; [reflexivity|]. left. world_simpl. now repeat split. }
  fold sp. fold rd.
  destruct (snd rd) as [e|] eqn:Erd; io_run.
  { eexists _, _. split; [reflexivity|]. right. left. world_simpl. now repeat split. }
  fold data. fold w1.
  destruct (fst w1) as [e|] eqn:Ew1; io_run.
  { eexists _, _. split; [reflexivity|]. do 2 right. left. world_simpl.
    now repeat split. }
  fold ip. fold w2.
  destruct (fst w2) as [e|] eqn:Ew2; io_run.
  { eexists _, _. split; [reflexivity|]. do 3 right. left. world_simpl.
    now repeat split. }
  fold cp. fold w3.
  destruct (fst w3) as [e|] eqn:Ew3; io_run.
  { eexists _, _. split; [reflexivity|]. do 4 right. left. world_simpl.
    now repeat split. }
  assert (Hd : files (snd w3) !! cfg = Some Dir).
  { unfold w3, w2, w1. repeat apply write_file_keeps_dir. now apply Hdir. }
  rewrite (stat_dir _ _ Hd). io_run.
  eexists _, _. split; [reflexivity|]. do 5 right. world_simpl. now repeat split.
Qed.

End Files.

(** ** The paths of the settings step *)

Lemma Join_inside comps rel :
  Forall (fun x => is_normal x = true) comps ->
  Forall (fun x => is_normal x = true) rel ->
  rel <> [] ->
  filepath.Join (absolute comps :: rel) = inside comps rel.
Proof. apply Join_absolute. Qed.

Lemma Join_inside_inside comps rel more :
  Forall (fun x => is_normal x = true) comps ->
  Forall (fun x => is_normal x = true) rel ->
  Forall (fun x => is_normal x = true) more ->
  more <> [] ->
  filepath.Join (inside comps rel :: more) = inside comps (rel ++ more).
Proof.
  intros Hc Hr Hm Hne. unfold inside.
  rewrite Join_absolute; [now rewrite app_assoc| |assumption..].
  now apply Forall_app.
Qed.

Lemma inside_inj comps r1 r2 :
  Forall (fun x => is_normal x = true) comps ->
  Forall (fun x => is_normal x = true) r1 ->
  Forall (fun x => is_normal x = true) r2 ->
  r1 <> [] -> r2 <> [] ->
  inside comps r1 = inside comps r2 -> r1 = r2.
Proof.
  intros Hc H1 H2 N1 N2 E. unfold inside in E.
  apply split_absolute_inj in E.
  - now apply app_inv_head in E.
  - destruct comps; [exact N1|discriminate].
  - destruct comps; [exact N2|discriminate].
  - apply Forall_normal_no_slash. now apply Forall_app.
  - apply Forall_normal_no_slash. now apply Forall_app.
Qed.

Ltac normal_list := repeat constructor.

Section Settings.

Context {P : Platform}.

(** The four paths of [setupDrupalSettings] below a clean rooted project
    path. *)
Lemma settings_paths comps :
  Forall (fun x => is_normal x = true) comps ->
  let p := absolute comps in
  let cfg := filepath.Join [p; "config"; "sync"] in
  cfg = inside comps ["config"; "sync"] /\
  filepath.Join [p; "web"; "sites"; "default"; "settings.ddev.php"]
  = inside comps ["web"; "sites"; "default"; "settings.ddev.php"] /\
  filepath.Join [cfg; "environment_indicator.indicator.yml"]
  = inside comps ["config"; "sync"; "environment_indicator.indicator.yml"] /\
  filepath.Join [cfg; "environment_indicator.settings.yml"]
  = inside comps ["config"; "sync"; "environment_indicator.settings.yml"].
Proof.
  intros H p cfg.
  assert (E : cfg = inside comps ["config"; "sync"]).
  { apply Join_inside; [exact H|normal_list|discriminate]. }
  split; [exact E|]. split; [|split].
  - apply Join_inside; [exact H|normal_list|discriminate].
  - rewrite E. apply (Join_inside_inside comps ["config"; "sync"]);
      [exact H|normal_list|normal_list|discriminate].
  - rewrite E. apply (Join_inside_inside comps ["config"; "sync"]);
      [exact H|normal_list|normal_list|discriminate].
Qed.

End Settings.

Section SettingsTree.

Context {P : Platform}.

Lemma setup_success_tree (comps : list string) (w w' : World) :
  Forall (fun x => is_normal x = true) comps ->
  setupDrupalSettings (absolute comps) w = (Done None, w') ->
  (forall d,
      In d (fs.ancestors (inside comps ["config"; "sync"])
            ++ [inside comps ["config"; "sync"]]) ->
      files (machine w') !! d = Some Dir) /\
  (exists content,
      files (machine w) !! inside comps ["web"; "sites"; "default"; "settings.ddev.php"]
      = Some (File content) /\
      files (machine w') !! inside comps ["web"; "sites"; "default"; "settings.ddev.php"]
      = Some (File (strings.ReplaceAll content "sites/default/files/sync"
                                       "../config/sync"))) /\
  files (machine w') !! inside comps ["config"; "sync"; "environment_indicator.indicator.yml"]
  = Some (File configIndicatorYML) /\
  files (machine w') !! inside comps ["config"; "sync"; "environment_indicator.settings.yml"]
  = Some (File configSettingsYML) /\
  ext (machine w') = ext (machine w).
Proof.
  intros Hc Hrun.
  destruct (setupDrupalSettings_cases (absolute comps) w) as (r & w2 & E & Hcases).
  rewrite Hrun in E. injection E as <- <-. cbv zeta in Hcases.
  destruct (settings_paths comps Hc) as (Ecfg & Esp & Eip & Ecp). cbv zeta in *.
  rewrite Esp, Eip, Ecp, Ecfg in Hcases.
  set (cfg := inside comps ["config"; "sync"]) in *.
  set (sp := inside comps ["web"; "sites"; "default"; "settings.ddev.php"]) in *.
  set (ip := inside comps ["config"; "sync"; "environment_indicator.indicator.yml"]) in *.
  set (cp := inside comps ["config"; "sync"; "environment_indicator.settings.yml"]) in *.
  assert (Nsi : sp <> ip).
  { intros H. apply inside_inj in H; [discriminate|exact Hc|normal_list..|discriminate|discriminate]. }
  assert (Nsc : sp <> cp).
  { intros H. apply inside_inj in H; [discriminate|exact Hc|normal_list..|discriminate|discriminate]. }
  assert (Nic : ip <> cp).
  { intros H. apply inside_inj in H; [discriminate|exact Hc|normal_list..|discriminate|discriminate]. }
  destruct Hcases as [(N & _)|[(_ & N & _)|[(_ & _ & N & _)|[(_ & _ & _ & N & _)|
                     [(_ & _ & _ & _ & N & _)|(Emk & Erd & Ew1 & Ew2 & Ew3 & _ & Em)]]]]];
    try contradiction.
  set (m1 := snd (mkdir_all (machine w) cfg 493)) in *.
  set (content := fst (read_file m1 sp)) in *.
  set (data := strings.ReplaceAll content _ _) in *.
  set (m2 := snd (write_file m1 sp data 420)) in *.
  set (m3 := snd (write_file m2 ip configIndicatorYML 420)) in *.
  rewrite Em.
  split; [|split; [|split; [|split]]].
  - intros d Hd. repeat apply write_file_keeps_dir. now apply mkdir_all_dirs.
  - exists content. split.
    + pose proof (read_file_ok m1 sp Erd) as Hread. fold content in Hread.
      destruct (in_dec String.string_dec sp (fs.ancestors cfg ++ [cfg])) as [Hin|Hout].
      * pose proof (mkdir_all_dirs (machine w) cfg 493 sp Emk Hin) as Hd.
        fold m1 in Hd. congruence.
      * rewrite <- (mkdir_all_frame (machine w) cfg 493 sp Hout). exact Hread.
    + rewrite (write_file_frame m3 cp _ _ sp Nsc). unfold m3.
      rewrite (write_file_frame m2 ip _ _ sp Nsi). unfold m2.
      now apply write_file_written.
  - rewrite (write_file_frame m3 cp _ _ ip Nic). unfold m3.
    now apply write_file_written.
  - now apply write_file_written.
  - rewrite write_file_ext. unfold m3. rewrite write_file_ext. unfold m2.
    rewrite write_file_ext. unfold m1. apply mkdir_all_ext.
Qed.

End SettingsTree.

(** ** The package loop and the Colima branch *)

Section Steps.

Context {P : Platform}.

(** The loop over the packages: it runs the commands in order up to the
    first that fails.  Every command it ran succeeded, but for a last
    one whose error it returns. *)
Lemma installPackages_runs p pkgs (w : World) :
  exists n r w',
    installPackages p pkgs w = (Done r, w') /\
    (n <= length pkgs)%nat /\
    trace w' = (trace w ++ map (fun pkg => Start (ddev_in p pkg)) (firstn n pkgs))%list /\
    machine w' = machine_after (map (ddev_in p) (firstn n pkgs)) (machine w) /\
    (forall i pkg,
        (i < match r with None => n | Some _ => n - 1 end)%nat ->
        nth_error pkgs i = Some pkg ->
        pr_err (fst (child (ddev_in p pkg)
                       (machine_after (map (ddev_in p) (firstn i pkgs)) (machine w))))
        = None) /\
    match r with
    | None => n = length pkgs /\ stdout w' = stdout w
    | Some e =>
      exists pkg,
        (0 < n)%nat /\ nth_error pkgs (n - 1) = Some pkg /\
        pr_err (fst (child (ddev_in p pkg)
                       (machine_after (map (ddev_in p) (firstn (n - 1) pkgs)) (machine w))))
        = Some e /\
        stdout w' = (stdout w ++ [error_line ("Failed to install ["
                                              +:+ strings.Join pkg " " +:+ "]")])%list
    end.
Proof.
  revert w. induction pkgs as [|pkg rest IH]; intros w.
  - exists 0%nat, None, w. cbn [installPackages]. split; [reflexivity|].
    split; [reflexivity|]. cbn [firstn map]. rewrite app_nil_r.
    repeat split; try reflexivity. intros i pkg Hi. lia.
  - cbn [installPackages]. io_run. fold (ddev_in p pkg).
    destruct (pr_err (fst (child (ddev_in p pkg) (machine w)))) as [e|] eqn:Ee.
    + io_run. exists 1%nat, (Some e). eexists. split; [reflexivity|].
      world_simpl. cbn [length firstn map]. split; [lia|].
      split; [reflexivity|]. split; [reflexivity|].
      split; [intros i q Hi; lia|].
      exists pkg. cbn [Nat.sub nth_error firstn map machine_after fold_left].
      split; [lia|]. now repeat split.
    + set (w1 := set_machine _ _).
      destruct (IH w1) as (n & r & w' & E & Hn & Ht & Hm & Hok & Hr).
      exists (S n), r, w'. split; [exact E|].
      cbn [length firstn map]. split; [lia|].
      subst w1. revert Ht Hm Hok Hr. world_simpl. intros Ht Hm Hok Hr.
      split; [now rewrite Ht, <- app_assoc|].
      split; [exact Hm|].
      split.
      * intros i q Hi Hq. destruct i as [|i].
        -- cbn [nth_error] in Hq. injection Hq as <-. exact Ee.
        -- cbn [nth_error] in Hq. cbn [firstn map machine_after fold_left].
           apply (Hok i q); [|exact Hq].
           destruct r as [e|]; [destruct Hr as (_ & Hpos & _)|]; lia.
      * destruct r as [e|]; [|split; [now f_equal|apply Hr]].
        destruct Hr as (q & Hpos & Hq & He & Hout).
        exists q. split; [lia|].
        replace (S n - 1)%nat with (S (n - 1)) by lia.
        cbn [nth_error firstn map]. now repeat split.
Qed.

End Steps.

Section Backends.

Context {P : Platform}.

Lemma checkColimaRunning_spec (w : World) :
  checkColimaRunning w
  = (Done (is_nil (pr_err (fst (child colima_status (machine w))))),
     say (if is_nil (pr_err (fst (child colima_status (machine w))))
          then success_line "Colima is running"
          else warning_line "Colima is not running.")
       (set_machine (snd (child colima_status (machine w)))
          (log (Start colima_status) w))).
Proof.
  unfold checkColimaRunning. io_run. fold colima_status.
  destruct (is_nil _); now io_run.
Qed.

Lemma startColima_spec (w : World) :
  let r := child colima_status (machine w) in
  let w2 := set_machine (snd r) (log (Start colima_status)
                                   (say (info_line "Starting Colima...") w)) in
  let r2 := child colima_start (snd r) in
  startColima w
  = (Done tt,
     if is_nil (pr_err (fst r)) then say (success_line "Colima is already running") w2
     else say (if is_nil (pr_err (fst r2)) then success_line "Colima started"
               else error_line "Failed to start Colima")
            (set_machine (snd r2) (log (Start colima_start) w2))).
Proof.
  intros r w2 r2. unfold startColima. io_run. fold colima_status. fold r.
  destruct (is_nil (pr_err (fst r))); io_run; [reflexivity|].
  fold colima_start. fold r2. destruct (is_nil (pr_err (fst r2))); now io_run.
Qed.

(** The Colima branch: what [installColima] returned and whether
    [colima start] succeeded play no part. *)
Lemma ensureBackend_colima prov (w : World) :
  String.eqb prov "docker" = false ->
  ensureBackend prov w
  = let w2 := snd (installColima (say ("" +:+ LF) w)) in
    let up := is_nil (pr_err (fst (child colima_status (machine w2)))) in
    let w3 := snd (checkColimaRunning w2) in
    let w4 := snd (startColima w3) in
    let up' := is_nil (pr_err (fst (child colima_status (machine w4)))) in
    let w5 := snd (checkColimaRunning w4) in
    if up then (Done true, w3)
    else (Done up',
          if up' then w5
          else say (error_line
                      "Failed to start Colima. Please start it manually and run this script again.")
                 w5).
Proof.
  intros Hprov. unfold ensureBackend. io_run. rewrite Hprov.
  destruct (installColima_returns (say ("" +:+ LF) w)) as (b & w2 & E).
  rewrite (bind_Done _ _ _ _ _ E). rewrite E. cbn [snd]. cbv zeta.
  rewrite (bind_Done _ _ _ _ _ (checkColimaRunning_spec w2)).
  rewrite (checkColimaRunning_spec w2). cbn [snd].
  destruct (is_nil (pr_err (fst (child colima_status (machine w2))))); cbn [negb];
    [now io_run|].
  set (w3 := say _ _).
  destruct (startColima_returns w3) as ([] & w4 & E4).
  rewrite (bind_Done _ _ _ _ _ E4). rewrite E4. cbn [snd].
  rewrite (bind_Done _ _ _ _ _ (checkColimaRunning_spec w4)).
  rewrite (checkColimaRunning_spec w4). cbn [snd].
  destruct (is_nil (pr_err (fst (child colima_status (machine w4))))); cbn [negb];
    now io_run.
Qed.

End Backends.

(** ** The system calls of a run *)

Section Calls.

Context {P : Platform}.

Variable Q : syscall -> Prop.

Lemma run_only_same {A} (m : IO A) (w : World) :
  trace (snd (m w)) = trace w -> run_only Q m w.
Proof. intros E. exists []. split; [now rewrite app_nil_r|constructor]. Qed.

Lemma run_only_one {A} (m : IO A) (w : World) s :
  trace (snd (m w)) = (trace w ++ [s])%list -> Q s -> run_only Q m w.
Proof. intros E H. exists [s]. split; [exact E|now repeat constructor]. Qed.

Lemma run_only_bind {A B} (m : IO A) (k : A -> IO B) (w : World) :
  run_only Q m w ->
  (forall a w', m w = (Done a, w') -> run_only Q (k a) w') ->
  run_only Q (bind m k) w.
Proof.
  intros (c1 & E1 & H1) Hk. unfold run_only, bind.
  destruct (m w) as [[a|c|msg] w'] eqn:E; cbn [snd] in E1 |- *.
  - destruct (Hk a w' eq_refl) as (c2 & E2 & H2).
    exists (c1 ++ c2)%list. split; [now rewrite E2, E1, app_assoc|].
    now apply Forall_app.
  - now exists c1.
  - now exists c1.
Qed.

Lemma calls_only_bind {A B} (m : IO A) (k : A -> IO B) :
  calls_only Q m -> (forall a, calls_only Q (k a)) -> calls_only Q (bind m k).
Proof. intros Hm Hk w. apply run_only_bind; [apply Hm|intros a w' _; apply Hk]. Qed.

Lemma calls_only_ret {A} (a : A) : calls_only Q (ret a).
Proof. intros w. now apply run_only_same. Qed.

Lemma calls_only_Exit {A} c : calls_only Q (@os_Exit _ A c).
Proof. intros w. now apply run_only_same. Qed.

Lemma calls_only_panic {A} msg : calls_only Q (@panic _ A msg).
Proof. intros w. now apply run_only_same. Qed.

Lemma calls_only_Print s : calls_only Q (fmt_Print s).
Proof. intros w. now apply run_only_same. Qed.

Lemma calls_only_ReadString : calls_only Q ReadString.
Proof. intros w. now apply run_only_same. Qed.

Lemma calls_only_LookPath file : Q (LookPath file) -> calls_only Q (exec_LookPath file).
Proof. intros H w. now apply (run_only_one _ _ (LookPath file)). Qed.

Lemma calls_only_Run c : Q (Start c) -> calls_only Q (cmd_Run c).
Proof. intros H w. now apply (run_only_one _ _ (Start c)). Qed.

Lemma calls_only_Getwd : Q Getwd -> calls_only Q os_Getwd.
Proof. intros H w. now apply (run_only_one _ _ Getwd). Qed.

Lemma calls_only_MkdirAll path perm :
  Q (MkdirAll path perm) -> calls_only Q (os_MkdirAll path perm).
Proof. intros H w. now apply (run_only_one _ _ (MkdirAll path perm)). Qed.

Lemma calls_only_ReadFile path : Q (ReadFile path) -> calls_only Q (os_ReadFile path).
Proof. intros H w. now apply (run_only_one _ _ (ReadFile path)). Qed.

Lemma calls_only_WriteFile path data perm :
  Q (WriteFile path data perm) -> calls_only Q (os_WriteFile path data perm).
Proof. intros H w. now apply (run_only_one _ _ (WriteFile path data perm)). Qed.

Lemma calls_only_Stat path : Q (Stat path) -> calls_only Q (os_Stat path).
Proof. intros H w. now apply (run_only_one _ _ (Stat path)). Qed.

End Calls.

(** A system call of the installer against [at_project]. *)
Ltac project_call :=
  first
    [ exact I
    | left; reflexivity
    | right; left; split; reflexivity
    | right; right; left; reflexivity
    | right; right; right; split; [cbn [In cmd_name]; auto 6|reflexivity]
    | unfold at_project;
      match goal with
      | |- exists rel, _ /\ _ /\ inside _ ?r = _ =>
        exists r; split; [discriminate|split; [repeat constructor|reflexivity]]
      end ].

(** Decides [calls_only (at_project comps) m] for a computation built
    from the primitives, [bind], [if] and [match]. *)
Ltac calls_step :=
  first
    [ apply calls_only_ret | apply calls_only_Print | apply calls_only_ReadString
    | apply calls_only_Exit | apply calls_only_panic
    | apply calls_only_LookPath; project_call
    | apply calls_only_Run; project_call
    | apply calls_only_Getwd; project_call
    | apply calls_only_MkdirAll; project_call
    | apply calls_only_ReadFile; project_call
    | apply calls_only_WriteFile; project_call
    | apply calls_only_Stat; project_call
    | apply calls_only_bind; [|intros ?]
    | match goal with
      | |- calls_only _ (if ?b then _ else _) => destruct b
      | |- calls_only _ (match ?e with _ => _ end) => destruct e
      end ].

Ltac calls_auto := io_prints; repeat calls_step.

Section ProjectCalls.

Context {P : Platform}.

Variable comps : list string.

Lemma selectDockerProvider_calls : calls_only (at_project comps) selectDockerProvider.
Proof. unfold selectDockerProvider. calls_auto. Qed.

Lemma checkPrerequisites_calls prov :
  calls_only (at_project comps) (checkPrerequisites prov).
Proof. unfold checkPrerequisites. calls_auto. Qed.

Lemma prologue_calls : calls_only (at_project comps) prologue.
Proof.
  unfold prologue. io_prints.
  repeat (apply calls_only_bind; [apply calls_only_Print|intros _]).
  apply calls_only_bind; [apply selectDockerProvider_calls|intros prov].
  apply calls_only_bind; [apply calls_only_Print|intros _].
  apply calls_only_bind; [apply checkPrerequisites_calls|intros _].
  apply calls_only_ret.
Qed.

Lemma checkHomebrew_calls : calls_only (at_project comps) checkHomebrew.
Proof. unfold checkHomebrew. calls_auto. Qed.

Lemma ensureBackend_calls prov : calls_only (at_project comps) (ensureBackend prov).
Proof.
  unfold ensureBackend, installDocker, checkDockerRunning, installColima,
    checkColimaRunning, startColima.
  calls_auto.
Qed.

Lemma installDDEV_calls : calls_only (at_project comps) installDDEV.
Proof. unfold installDDEV. calls_auto. Qed.

Lemma checkDDEVVersion_calls : calls_only (at_project comps) checkDDEVVersion.
Proof. unfold checkDDEVVersion. calls_auto. Qed.

Hypothesis Hcomps : Forall (fun x => is_normal x = true) comps.

Lemma initDDEVProject_calls :
  calls_only (at_project comps) (initDDEVProject (absolute comps)).
Proof.
  unfold initDDEVProject. cbv zeta.
  rewrite (Join_inside comps [".ddev"] Hcomps) by (try discriminate; repeat constructor).
  calls_auto.
Qed.

Lemma startDDEV_calls : calls_only (at_project comps) (startDDEV (absolute comps)).
Proof. unfold startDDEV. calls_auto. Qed.

Lemma installPackages_calls pkgs :
  calls_only (at_project comps) (installPackages (absolute comps) pkgs).
Proof.
  induction pkgs as [|pkg rest IH]; cbn [installPackages].
  - calls_auto.
  - io_prints. apply calls_only_bind; [apply calls_only_Run; project_call|intros r].
    destruct (pr_err r); [calls_auto|exact IH].
Qed.

Lemma installDrupalDependencies_calls :
  calls_only (at_project comps) (installDrupalDependencies (absolute comps)).
Proof.
  unfold installDrupalDependencies. io_prints.
  apply calls_only_bind; [apply calls_only_Print|intros _].
  apply calls_only_bind; [apply installPackages_calls|intros e].
  calls_auto.
Qed.

Lemma setupDrupalSettings_calls :
  calls_only (at_project comps) (setupDrupalSettings (absolute comps)).
Proof.
  unfold setupDrupalSettings. cbv zeta.
  destruct (settings_paths comps Hcomps) as (Ecfg & Esp & Eip & Ecp). cbv zeta in *.
  rewrite Esp, Eip, Ecp, Ecfg.
  calls_auto.
Qed.

Lemma installDrupalSite_calls :
  calls_only (at_project comps) (installDrupalSite (absolute comps)).
Proof. unfold installDrupalSite. calls_auto. Qed.

Lemma enableDrupalModules_calls :
  calls_only (at_project comps) (enableDrupalModules (absolute comps)).
Proof. unfold enableDrupalModules. cbv zeta. calls_auto. Qed.

Lemma importDrupalConfig_calls :
  calls_only (at_project comps) (importDrupalConfig (absolute comps)).
Proof.
  unfold importDrupalConfig. cbv zeta.
  rewrite (Join_inside comps ["config"; "sync"] Hcomps)
    by (try discriminate; repeat constructor).
  calls_auto.
Qed.

Lemma generateDrupalContent_calls :
  calls_only (at_project comps) (generateDrupalContent (absolute comps)).
Proof. unfold generateDrupalContent. cbv zeta. calls_auto. Qed.

Lemma displayFinalInstructions_calls url :
  calls_only (at_project comps) (displayFinalInstructions url).
Proof. unfold displayFinalInstructions. calls_auto. Qed.

Lemma getSiteURL_calls :
  calls_only (at_project comps) (getSiteURL (absolute comps)).
Proof.
  unfold getSiteURL. io_prints.
  apply calls_only_bind; [apply calls_only_Print|intros _].
  apply calls_only_bind; [apply calls_only_Run; project_call|intros r].
  destruct (negb (is_nil (pr_err r))); [calls_auto|].
  destruct (json.Unmarshal float64_ok (pr_out r)) as [result|]; [|calls_auto].
  destruct (as_slice (result !! "raw")) as [raw ok].
  apply calls_only_bind; [|intros [url|]; calls_auto].
  destruct (ok && (0 <? Z.of_nat (length raw))); [|calls_auto].
  apply calls_only_bind; [unfold go_index; calls_auto|intros v].
  destruct (as_map (Some v)) as [project [|]]; [|calls_auto].
  destruct (as_string (project !! "https_url")) as [u [|]]; calls_auto.
Qed.

Lemma epilogue_calls : calls_only (at_project comps) (epilogue (absolute comps)).
Proof.
  unfold epilogue, finish.
  apply calls_only_bind; [apply generateDrupalContent_calls|intros e].
  apply calls_only_bind; [destruct (negb (is_nil e)); calls_auto|intros _].
  apply calls_only_bind; [apply getSiteURL_calls|intros url].
  apply displayFinalInstructions_calls.
Qed.

End ProjectCalls.

Section Confinement.

Context {P : Platform}.

Lemma pipeline_calls Q steps :
  Forall (fun s : Step => forall p, calls_only Q (s p)) steps ->
  forall ctx, calls_only Q (pipeline steps ctx).
Proof.
  intros H. induction H as [|s rest Hs _ IH]; intros ctx; cbn [pipeline].
  - apply calls_only_ret.
  - apply calls_only_bind; [apply Hs|intros [q|]];
      [apply IH|apply calls_only_Exit].
Qed.

Lemma pipeline_ends pre post ctx (w : World) o wk :
  pipeline pre ctx w = (o, wk) -> (forall p, o <> Done p) ->
  pipeline (pre ++ post) ctx w = (o, wk).
Proof.
  revert ctx w. induction pre as [|s pre IH]; intros ctx w; cbn [pipeline app].
  - intros [= <- <-] H. now contradiction (H ctx).
  - unfold bind. destruct (s ctx w) as [[[q|]|c|msg] w1]; try (intros E _; exact E).
    apply IH.
Qed.

(** Steps made with [checked] hand the project path on as it is. *)
Lemma pipeline_checked_run {A} Q fs ctx (k : string -> IO A) (w : World) :
  Forall (fun f : string -> IO (option error) => calls_only Q (f ctx)) fs ->
  calls_only Q (k ctx) ->
  run_only Q (bind (pipeline (map checked fs) ctx) k) w.
Proof.
  intros H Hk. revert w. induction H as [|f rest Hf _ IH]; intros w.
  - cbn [map pipeline]. unfold run_only. rewrite bind_ret. apply Hk.
  - cbn [map pipeline]. unfold run_only, checked. rewrite !bind_bind.
    apply (run_only_bind Q (f ctx)); [apply Hf|intros err w' _].
    unfold run_only. rewrite bind_ret.
    destruct (is_nil err); [apply IH|]. rewrite bind_Exit.
    now apply (run_only_same Q (@os_Exit _ unit 1)).
Qed.

(** The scaffold step settles the project path. *)
Lemma initDrupalProject_calls (w : World) :
  (exists rest, cwd (machine w) = String "/" rest) ->
  exists comps,
    Forall (fun x => is_normal x = true) comps /\
    run_only (at_project comps) initDrupalProject w /\
    forall r w',
      initDrupalProject w = (Done r, w') -> is_nil (snd r) = true ->
      fst r = absolute comps.
Proof.
  intros [rest Hcwd].
  destruct (projectNameOf (next_line w)) as [name|] eqn:Hname.
  - destruct (Join_rooted rest name) as (comps & Hc & Ej).
    exists comps. split; [exact Hc|].
    unfold run_only, initDrupalProject. io_run. rewrite Hname. io_run.
    unfold getwd. destruct (refused Getwd (machine w)) as [msg|]; io_run.
    + split; [|intros r w' [= <- <-]; discriminate]. exists [Getwd].
      split; [reflexivity|].
      now repeat constructor.
    + rewrite Hcwd, Ej. fold (composer_create (absolute comps)).
      destruct (pr_err (fst (child (composer_create (absolute comps)) (machine w))))
        as [e|]; io_run.
      * split; [|intros r w' [= <- <-]; discriminate].
        exists [Getwd; Start (composer_create (absolute comps))].
        split; [now rewrite <- app_assoc|]. repeat constructor.
      * split; [|now intros r w' [= <- <-]].
        exists [Getwd; Start (composer_create (absolute comps))].
        split; [now rewrite <- app_assoc|]. repeat constructor.
  - exists []. split; [constructor|].
    destruct (initDrupalProject_rejects w Hname) as (e & w' & E & Ht & _).
    split.
    + apply run_only_same. now rewrite E.
    + intros r w'' E'. rewrite E in E'. injection E' as <- <-. discriminate.
Qed.

End Confinement.

(** ** The standard input *)

Section Stdin.

Context {P : Platform}.

Lemma keeps_stdin_ret {A} (a : A) : keeps_stdin (ret a).
Proof. now intros w. Qed.

Lemma keeps_stdin_bind {A B} (m : IO A) (k : A -> IO B) :
  keeps_stdin m -> (forall a, keeps_stdin (k a)) -> keeps_stdin (bind m k).
Proof.
  intros Hm Hk w. unfold bind. specialize (Hm w).
  destruct (m w) as [[a|c|msg] w']; cbn [snd] in *; [|exact Hm..].
  now rewrite Hk.
Qed.

Lemma keeps_stdin_Print s : keeps_stdin (fmt_Print s).
Proof. now intros w. Qed.

Lemma keeps_stdin_LookPath file : keeps_stdin (exec_LookPath file).
Proof. now intros w. Qed.

Lemma keeps_stdin_Run c : keeps_stdin (cmd_Run c).
Proof. now intros w. Qed.

End Stdin.

Ltac keeps_step :=
  first
    [ apply keeps_stdin_ret | apply keeps_stdin_Print | apply keeps_stdin_LookPath
    | apply keeps_stdin_Run
    | apply keeps_stdin_bind; [|intros ?]
    | match goal with
      | |- keeps_stdin (if ?b then _ else _) => destruct b
      | |- keeps_stdin (match ?e with _ => _ end) => destruct e
      end ].

Ltac keeps_auto := io_prints; repeat keeps_step.

Section Piped.

Context {P : Platform}.

Lemma checkPrerequisites_keeps prov : keeps_stdin (checkPrerequisites prov).
Proof. unfold checkPrerequisites. keeps_auto. Qed.

Lemma checkHomebrew_keeps : keeps_stdin checkHomebrew.
Proof. unfold checkHomebrew. keeps_auto. Qed.

Lemma ensureBackend_keeps prov : keeps_stdin (ensureBackend prov).
Proof.
  unfold ensureBackend, installDocker, checkDockerRunning, installColima,
    checkColimaRunning, startColima.
  keeps_auto.
Qed.

Lemma installDDEV_keeps : keeps_stdin installDDEV.
Proof. unfold installDDEV. keeps_auto. Qed.

Lemma checkDDEVVersion_keeps : keeps_stdin checkDDEVVersion.
Proof. unfold checkDDEVVersion. keeps_auto. Qed.

Lemma pipeline_keeps steps :
  Forall (fun s : Step => forall p, keeps_stdin (s p)) steps ->
  forall ctx, keeps_stdin (pipeline steps ctx).
Proof.
  intros H. induction H as [|s rest Hs _ IH]; intros ctx; cbn [pipeline].
  - apply keeps_stdin_ret.
  - apply keeps_stdin_bind; [apply Hs|intros [q|]]; [apply IH|now intros w].
Qed.

Lemma pipeline_done_split pre post ctx (w : World) p w' :
  pipeline (pre ++ post) ctx w = (Done p, w') ->
  exists q wk, pipeline pre ctx w = (Done q, wk) /\ pipeline post q wk = (Done p, w').
Proof.
  revert ctx w. induction pre as [|s pre IH]; intros ctx w; cbn [pipeline app].
  - intros E. now exists ctx, w.
  - unfold bind. destruct (s ctx w) as [[[q|]|c|msg] w1]; try discriminate.
    apply IH.
Qed.

(** One read, or none, empties the standard input. *)
Lemma read_line_one (l : list string) :
  (length l <= 1)%nat -> snd (read_line "" l) = [].
Proof.
  destruct l as [|ch [|ch2 l]]; cbn [length]; intros H; [reflexivity| |lia].
  cbn [read_line]. destruct (String.eqb ch ""); [reflexivity|].
  now destruct (cut_line (bytes ch)).
Qed.

Lemma prologue_stdin (w : World) prov w0 :
  prologue w = (Done prov, w0) -> stdin w0 = snd (read_line "" (stdin w)).
Proof.
  unfold prologue. io_run.
  match goal with
  | |- context [bind selectDockerProvider ?k ?w1] =>
    rewrite (bind_Done _ k w1 _ _ (selectDockerProvider_spec w1))
  end.
  io_run.
  match goal with
  | |- context [bind (checkPrerequisites ?prov) ?k ?w1] =>
    destruct (checkPrerequisites_returns prov w1) as ([] & w2 & E);
    rewrite (bind_Done _ k w1 _ _ E);
    pose proof (checkPrerequisites_keeps prov w1) as Hk; rewrite E in Hk
  end.
  io_run. intros [= _ <-]. exact Hk.
Qed.

End Piped.

(** ** The last line before an exit *)

(** Runs a function that returns an error through all its branches: the
    branches that return [nil] are discarded, the others have just
    printed an error line. *)
Ltac error_branches :=
  repeat match goal with
         | |- context [match ?e with Some _ => _ | None => _ end] =>
           destruct e eqn:?; io_run
         | |- context [if ?b then _ else _] => destruct b eqn:?; io_run
         end;
  intros E; injection E as E1 E2; subst;
  first [ discriminate
        | eexists; world_simpl; apply last_snoc ].

Section ExitMessages.

Context {P : Platform}.

Lemma checked_fails f p (w wf : World) :
  checked f p w = (Done None, wf) -> exists e, f p w = (Done (Some e), wf).
Proof.
  unfold checked, bind.
  destruct (f p w) as [[[e|]|c|msg] w1]; try discriminate.
  intros [= <-]. now exists e.
Qed.

Lemma initDDEVProject_error p (w wf : World) e :
  initDDEVProject p w = (Done (Some e), wf) -> ends_in_error wf.
Proof. unfold initDDEVProject. io_run. error_branches. Qed.

Lemma startDDEV_error p (w wf : World) e :
  startDDEV p w = (Done (Some e), wf) -> ends_in_error wf.
Proof. unfold startDDEV. io_run. error_branches. Qed.

Lemma installDrupalDependencies_error p (w wf : World) e :
  installDrupalDependencies p w = (Done (Some e), wf) -> ends_in_error wf.
Proof.
  unfold installDrupalDependencies. io_run.
  match goal with
  | |- context [bind (installPackages p packages) ?k ?w1] =>
    destruct (installPackages_runs p packages w1) as (n & r & w' & E & _ & _ & _ & _ & Hr);
    rewrite (bind_Done _ k w1 _ _ E)
  end.
  destruct r as [e'|]; io_run; [|discriminate].
  intros [= <- <-]. destruct Hr as (pkg & _ & _ & _ & Hout).
  eexists. rewrite Hout. apply last_snoc.
Qed.

Lemma setupDrupalSettings_error p (w wf : World) e :
  setupDrupalSettings p w = (Done (Some e), wf) -> ends_in_error wf.
Proof. unfold setupDrupalSettings. io_run. error_branches. Qed.

Lemma installDrupalSite_error p (w wf : World) e :
  installDrupalSite p w = (Done (Some e), wf) -> ends_in_error wf.
Proof. unfold installDrupalSite. io_run. error_branches. Qed.

Lemma enableDrupalModules_error p (w wf : World) e :
  enableDrupalModules p w = (Done (Some e), wf) -> ends_in_error wf.
Proof. unfold enableDrupalModules. io_run. error_branches. Qed.

Lemma importDrupalConfig_error p (w wf : World) e :
  importDrupalConfig p w = (Done (Some e), wf) -> ends_in_error wf.
Proof. unfold importDrupalConfig. io_run. error_branches. Qed.

Lemma initDrupalProject_error (w wf : World) r :
  initDrupalProject w = (Done r, wf) -> is_nil (snd r) = false -> ends_in_error wf.
Proof.
  unfold initDrupalProject. io_run.
  destruct (projectNameOf (next_line w)) as [name|]; io_run.
  - destruct (snd (getwd (machine w))) as [e|]; io_run.
    + intros [= <- <-] _. eexists. world_simpl. apply last_snoc.
    + match goal with
      | |- context [pr_err ?r] => destruct (pr_err r) as [e|]
      end; io_run.
      * intros [= <- <-] _. eexists. world_simpl. apply last_snoc.
      * intros [= <- <-]. discriminate.
  - intros [= <- <-] _. eexists. world_simpl. apply last_snoc.
Qed.

Lemma ensureBackend_error prov (w wf : World) :
  ensureBackend prov w = (Done false, wf) -> ends_in_error wf.
Proof.
  destruct (String.eqb prov "docker") eqn:Hprov.
  - apply String.eqb_eq in Hprov. subst prov. rewrite ensureBackend_docker.
    cbv zeta. destruct (is_nil _); [discriminate|].
    intros [= <-]. eexists. world_simpl. apply last_snoc.
  - rewrite (ensureBackend_colima prov w Hprov). cbv zeta.
    destruct (is_nil _); [discriminate|].
    destruct (is_nil _); [discriminate|].
    intros [= <-]. eexists. world_simpl. apply last_snoc.
Qed.

Lemma installDDEV_false (w wf : World) :
  installDDEV w = (Done false, wf) ->
  ends_in_error wf \/ last (stdout wf) = Some (success_line "DDEV installed").
Proof.
  unfold installDDEV. io_run.
  destruct (on_path "ddev" (machine w)); io_run; [discriminate|].
  match goal with |- context [negb (is_nil ?e)] => destruct (negb (is_nil e)) end;
    io_run; intros [= <-]; [left; eexists|right]; world_simpl; apply last_snoc.
Qed.

Lemma checkHomebrew_error (w wf : World) e :
  checkHomebrew w = (Done (Some e), wf) ->
  exists out,
    stdout wf
    = (out ++ [error_line "Homebrew is not installed. Please install Homebrew first:";
               "See https://docs.brew.sh/Installation for instructions." +:+ LF])%list.
Proof.
  unfold checkHomebrew. io_run.
  destruct (on_path "brew" (machine w)); cbn [negb]; io_run; [discriminate|].
  intros [= _ <-]. world_simpl. exists (stdout w). now rewrite <- app_assoc.
Qed.

End ExitMessages.

(** ** Answers between white space *)

Lemma append_nil_r s : s +:+ "" = s.
Proof. induction s as [|c s IH]; [reflexivity|]. now rewrite append_cons, IH. Qed.

Lemma of_bytes_app l1 l2 : of_bytes (l1 ++ l2) = of_bytes l1 +:+ of_bytes l2.
Proof.
  induction l1 as [|c l1 IH]; [now rewrite append_nil|].
  cbn [app of_bytes string_of_list_ascii]. fold (of_bytes (l1 ++ l2)).
  fold (of_bytes l1). now rewrite IH, append_cons.
Qed.

Lemma skip_spaces_app_blank a l :
  Forall (fun c => strings.asciiSpace (byte c) = true) a ->
  strings.skip_spaces (a ++ l) = strings.skip_spaces l.
Proof.
  induction 1 as [|c a Hc _ IH]; [reflexivity|].
  cbn [app strings.skip_spaces]. now rewrite (blank_bytes_ascii c Hc), Hc.
Qed.

Lemma skip_spaces_plain c l :
  plain c = true -> strings.skip_spaces (c :: l) = strings.Stop (c :: l).
Proof.
  unfold plain. intros H. apply andb_true_iff in H as [H1 H2].
  cbn [strings.skip_spaces].
  replace (utf8.RuneSelf <=? byte c) with false
    by (symmetry; apply Z.leb_gt; now apply Z.ltb_lt).
  now destruct (strings.asciiSpace (byte c)).
Qed.

(** White space around a trimmed string is all [strings.TrimSpace]
    removes. *)
Lemma TrimSpace_padded a s b :
  blank a -> blank b -> trimmed s = true ->
  strings.TrimSpace (a +:+ s +:+ b) = s.
Proof.
  unfold blank, trimmed. intros Ha Hb Hs.
  unfold strings.TrimSpace. rewrite !bytes_app.
  rewrite (skip_spaces_app_blank _ _ Ha).
  destruct (bytes s) as [|c t] eqn:Es; [discriminate|].
  destruct (rev (c :: t)) as [|d t'] eqn:Er; [discriminate|].
  apply andb_true_iff in Hs as [Hc Hd].
  cbn [app]. rewrite (skip_spaces_plain c _ Hc).
  change (c :: (t ++ bytes b)%list) with ((c :: t) ++ bytes b)%list.
  rewrite rev_app_distr, Er.
  rewrite skip_spaces_app_blank by now apply Forall_rev.
  rewrite (skip_spaces_plain d _ Hd). rewrite <- Er, rev_involutive, <- Es.
  apply of_bytes_bytes.
Qed.

Lemma TrimSpace_trimmed s : trimmed s = true -> strings.TrimSpace s = s.
Proof.
  intros H. rewrite <- (TrimSpace_padded "" s "") at 2;
    [|constructor|constructor|exact H].
  now rewrite append_nil, append_nil_r.
Qed.

Lemma isASCII_blank s : blank s -> strings.isASCII s = true.
Proof.
  unfold blank, strings.isASCII. induction 1 as [|c l Hc _ IH]; [reflexivity|].
  cbn [forallb]. rewrite IH, andb_true_r. apply Z.ltb_lt.
  pose proof (blank_bytes_ascii c Hc) as H. now apply Z.leb_gt in H.
Qed.

Lemma map_lower_byte_blank l :
  Forall (fun c => strings.asciiSpace (byte c) = true) l ->
  map strings.lower_byte l = l.
Proof.
  induction 1 as [|c l Hc _ IH]; [reflexivity|].
  cbn [map]. now rewrite (lower_byte_blank c Hc), IH.
Qed.

(** Lower-casing an ASCII answer between white space. *)
Lemma ToLower_padded (low : Z -> Z) a s b :
  blank a -> blank b -> strings.isASCII s = true ->
  strings.ToLower low (a +:+ s +:+ b)
  = a +:+ of_bytes (map strings.lower_byte (bytes s)) +:+ b.
Proof.
  intros Ha Hb Hs. unfold strings.ToLower.
  replace (strings.isASCII (a +:+ s +:+ b)) with true.
  - rewrite !bytes_app, !map_app.
    rewrite (map_lower_byte_blank _ Ha), (map_lower_byte_blank _ Hb).
    now rewrite !of_bytes_app, !of_bytes_bytes.
  - symmetry. unfold strings.isASCII in *. rewrite !bytes_app, !forallb_app.
    rewrite Hs. fold (strings.isASCII a). fold (strings.isASCII b).
    now rewrite (isASCII_blank a Ha), (isASCII_blank b Hb).
Qed.

(** ** What a step that succeeded has done *)

Section Done.

Context {P : Platform}.

Lemma grows_trace {A} (m : IO A) (w : World) :
  calls_only any_call m -> exists calls, trace (snd (m w)) = (trace w ++ calls)%list.
Proof. intros H. destruct (H w) as (calls & E & _). now exists calls. Qed.

Lemma prologue_grows : calls_only any_call prologue.
Proof.
  unfold prologue, selectDockerProvider, checkPrerequisites. calls_auto.
Qed.

Lemma stepHomebrew_grows p : calls_only any_call (stepHomebrew p).
Proof. unfold stepHomebrew, checked, checkHomebrew. calls_auto. Qed.

Lemma stepBackend_grows prov p : calls_only any_call (stepBackend prov p).
Proof.
  unfold stepBackend, ensureBackend, installDocker, checkDockerRunning, installColima,
    checkColimaRunning, startColima.
  calls_auto.
Qed.

Lemma stepDDEV_grows p : calls_only any_call (stepDDEV p).
Proof. unfold stepDDEV, installDDEV. calls_auto. Qed.

Lemma checkDDEVVersion_grows : calls_only any_call checkDDEVVersion.
Proof. unfold checkDDEVVersion. calls_auto. Qed.

Lemma initDDEVProject_grows p : calls_only any_call (initDDEVProject p).
Proof. unfold initDDEVProject. calls_auto. Qed.

Lemma importDrupalConfig_grows p : calls_only any_call (importDrupalConfig p).
Proof. unfold importDrupalConfig. calls_auto. Qed.

Lemma generateDrupalContent_grows p : calls_only any_call (generateDrupalContent p).
Proof. unfold generateDrupalContent. calls_auto. Qed.

Lemma displayFinalInstructions_grows url :
  calls_only any_call (displayFinalInstructions url).
Proof. unfold displayFinalInstructions. calls_auto. Qed.

Lemma getSiteURL_grows p : calls_only any_call (getSiteURL p).
Proof.
  unfold getSiteURL. io_prints.
  apply calls_only_bind; [apply calls_only_Print|intros _].
  apply calls_only_bind; [apply calls_only_Run; exact I|intros r].
  destruct (negb (is_nil (pr_err r))); [calls_auto|].
  destruct (json.Unmarshal float64_ok (pr_out r)) as [result|]; [|calls_auto].
  destruct (as_slice (result !! "raw")) as [raw ok].
  apply calls_only_bind; [|intros [url|]; calls_auto].
  destruct (ok && (0 <? Z.of_nat (length raw))); [|calls_auto].
  apply calls_only_bind; [unfold go_index; calls_auto|intros v].
  destruct (as_map (Some v)) as [project [|]]; [|calls_auto].
  destruct (as_string (project !! "https_url")) as [u [|]]; calls_auto.
Qed.

Lemma epilogue_grows p : calls_only any_call (epilogue p).
Proof.
  unfold epilogue, finish.
  apply calls_only_bind; [apply generateDrupalContent_grows|intros e].
  apply calls_only_bind; [destruct (negb (is_nil e)); calls_auto|intros _].
  apply calls_only_bind; [apply getSiteURL_grows|intros url].
  apply displayFinalInstructions_grows.
Qed.

(** What a step that succeeded has added to the trace. *)
Lemma pipeline_cons_done s rest ctx (w : World) p w' :
  pipeline (s :: rest) ctx w = (Done p, w') ->
  exists q w1, s ctx w = (Done (Some q), w1) /\ pipeline rest q w1 = (Done p, w').
Proof.
  cbn [pipeline]. unfold bind.
  destruct (s ctx w) as [[[q|]|c|msg] w1]; try discriminate.
  intros E. now exists q, w1.
Qed.

Lemma checked_done f p (w : World) q w1 :
  checked f p w = (Done (Some q), w1) -> f p w = (Done None, w1) /\ q = p.
Proof.
  unfold checked, bind.
  destruct (f p w) as [[[e|]|c|msg] w2]; try discriminate.
  now intros [= <- <-].
Qed.

Lemma run_grows {A} (m : IO A) (w : World) a w1 :
  calls_only any_call m -> m w = (Done a, w1) ->
  exists calls, trace w1 = (trace w ++ calls)%list.
Proof.
  intros H E. destruct (grows_trace _ w H) as (calls & Ec).
  rewrite E in Ec. now exists calls.
Qed.

Lemma stepScaffold_done ctx (w : World) p w1 :
  stepScaffold ctx w = (Done (Some p), w1) ->
  exists calls, trace w1 = (trace w ++ calls ++ [Start (composer_create p)])%list.
Proof.
  unfold stepScaffold.
  destruct (checkDDEVVersion_returns w) as ([] & wv & Ever).
  rewrite (bind_Done _ _ _ _ _ Ever).
  destruct (grows_trace _ w checkDDEVVersion_grows) as (c1 & E1).
  rewrite Ever in E1. cbn [snd] in E1.
  unfold initDrupalProject. io_run.
  destruct (projectNameOf (next_line wv)) as [name|]; io_run; [|discriminate].
  destruct (snd (getwd (machine wv))) as [e|]; io_run; [discriminate|].
  match goal with
  | |- context [pr_err ?r] => destruct (pr_err r) as [e|]
  end; io_run; [discriminate|].
  cbn [is_nil]. intros [= <- <-]. world_simpl.
  exists (c1 ++ [Getwd])%list. rewrite E1.
  now rewrite <- !app_assoc.
Qed.

Lemma startDDEV_done p (w w1 : World) :
  startDDEV p w = (Done None, w1) -> trace w1 = (trace w ++ [Start (ddev_start p)])%list.
Proof.
  unfold startDDEV. io_run. fold (ddev_start p).
  destruct (pr_err _); io_run; [discriminate|]. now intros [= <-].
Qed.

Lemma installDrupalDependencies_done p (w w1 : World) :
  installDrupalDependencies p w = (Done None, w1) ->
  trace w1 = (trace w ++ map (fun pkg => Start (ddev_in p pkg)) packages)%list.
Proof.
  unfold installDrupalDependencies. io_run.
  match goal with
  | |- context [bind (installPackages p packages) ?k ?w0] =>
    destruct (installPackages_runs p packages w0) as (n & r & w' & E & _ & Ht & _ & _ & Hr);
    rewrite (bind_Done _ k w0 _ _ E)
  end.
  destruct r as [e|]; io_run; [discriminate|].
  intros [= <-]. world_simpl. destruct Hr as [-> _]. rewrite Ht.
  now rewrite firstn_all.
Qed.

Lemma installDrupalSite_done p (w w1 : World) :
  installDrupalSite p w = (Done None, w1) ->
  trace w1 = (trace w ++ [Start (site_install p)])%list.
Proof.
  unfold installDrupalSite. io_run. fold (site_install p).
  destruct (pr_err _); io_run; [discriminate|]. now intros [= <-].
Qed.

Lemma enableDrupalModules_done p (w w1 : World) :
  enableDrupalModules p w = (Done None, w1) ->
  trace w1 = (trace w ++ [Start (enable_modules p)])%list.
Proof.
  unfold enableDrupalModules. io_run. fold (enable_modules p).
  destruct (pr_err _); io_run; [discriminate|]. now intros [= <-].
Qed.

Lemma setupDrupalSettings_done p (w w1 : World) :
  let cfg := filepath.Join [p; "config"; "sync"] in
  let sp := filepath.Join [p; "web"; "sites"; "default"; "settings.ddev.php"] in
  setupDrupalSettings p w = (Done None, w1) ->
  exists data,
    trace w1
    = (trace w ++
       [MkdirAll cfg 493; ReadFile sp; WriteFile sp data 420;
        WriteFile (filepath.Join [cfg; "environment_indicator.indicator.yml"])
                  configIndicatorYML 420;
        WriteFile (filepath.Join [cfg; "environment_indicator.settings.yml"])
                  configSettingsYML 420;
        Stat cfg])%list.
Proof.
  intros cfg sp. unfold setupDrupalSettings. io_run. fold cfg. fold sp.
  repeat match goal with
         | |- context [match ?e with Some _ => _ | None => _ end] =>
           destruct e; io_run; [discriminate|]
         end.
  match goal with
  | |- context [os_IsNotExist ?e] => destruct e as [er|]
  end; cbn [os_IsNotExist]; [destruct (err_not_exist er)|]; io_run;
    try discriminate;
    (intros [= <-]; eexists; world_simpl; now rewrite <- !app_assoc).
Qed.

Lemma bind_done_inv {A B} (m : IO A) (k : A -> IO B) (w : World) b w' :
  bind m k w = (Done b, w') -> exists a w1, m w = (Done a, w1) /\ k a w1 = (Done b, w').
Proof.
  unfold bind. destruct (m w) as [[a|c|msg] w1]; try discriminate.
  intros E. now exists a, w1.
Qed.

End Done.

(** ** A derived name is stable *)

Ltac each_byte c :=
  destruct c as [[|] [|] [|] [|] [|] [|] [|] [|]]; vm_compute; try reflexivity;
  try discriminate.

Lemma name_byte_plain c : plain c = true -> plain (name_byte c) = true.
Proof. each_byte c. Qed.

Lemma name_byte_ascii c :
  (byte c <? utf8.RuneSelf) = true -> (byte (name_byte c) <? utf8.RuneSelf) = true.
Proof. each_byte c. Qed.

Lemma name_byte_lower c : strings.lower_byte (name_byte c) = name_byte c.
Proof. each_byte c. Qed.

Lemma name_byte_dash c : dash (name_byte c) = name_byte c.
Proof. each_byte c. Qed.

Lemma plain_not_space c : plain c = true -> strings.asciiSpace (byte c) = false.
Proof.
  unfold plain. intros H. apply andb_true_iff in H as [_ H].
  now destruct (strings.asciiSpace (byte c)).
Qed.

(** The first loop of [strings.TrimSpace] on ASCII bytes: it passes
    white space and stops at the end or at a plain byte. *)
Lemma skip_spaces_ascii l :
  forallb (fun c => byte c <? utf8.RuneSelf) l = true ->
  exists pre rest,
    l = (pre ++ rest)%list /\
    Forall (fun c => strings.asciiSpace (byte c) = true) pre /\
    strings.skip_spaces l = strings.Stop rest /\
    match rest with [] => True | c :: _ => plain c = true end.
Proof.
  induction l as [|c l IH]; intros H.
  - exists [], []. now repeat split.
  - cbn [forallb] in H. apply andb_true_iff in H as [Hc Hl].
    cbn [strings.skip_spaces].
    replace (utf8.RuneSelf <=? byte c) with false
      by (symmetry; apply Z.leb_gt; now apply Z.ltb_lt).
    destruct (strings.asciiSpace (byte c)) eqn:Hs.
    + destruct (IH Hl) as (pre & rest & -> & Hpre & E & Hrest).
      exists (c :: pre), rest. repeat split; try assumption. now constructor.
    + exists [], (c :: l). repeat split; [constructor|].
      unfold plain. now rewrite Hc, Hs.
Qed.

Lemma forallb_app_r {A} (f : A -> bool) l1 l2 :
  forallb f (l1 ++ l2) = true -> forallb f l2 = true.
Proof. rewrite forallb_app. intros H. now apply andb_true_iff in H as [_ H]. Qed.

Lemma forallb_app_l {A} (f : A -> bool) l1 l2 :
  forallb f (l1 ++ l2) = true -> forallb f l1 = true.
Proof. rewrite forallb_app. intros H. now apply andb_true_iff in H as [H _]. Qed.

(** [strings.TrimSpace] of an ASCII string is empty or begins and ends
    with a plain byte. *)
Lemma TrimSpace_ascii s :
  strings.isASCII s = true ->
  strings.TrimSpace s = "" \/
  (trimmed (strings.TrimSpace s) = true /\ strings.isASCII (strings.TrimSpace s) = true).
Proof.
  unfold strings.isASCII. intros Hs. unfold strings.TrimSpace.
  destruct (skip_spaces_ascii _ Hs) as (pre & rest & El & _ & E & Hrest).
  rewrite E.
  assert (Hr : forallb (fun c => byte c <? utf8.RuneSelf) rest = true).
  { rewrite El in Hs. now apply forallb_app_r in Hs. }
  assert (Hrr : forallb (fun c => byte c <? utf8.RuneSelf) (rev rest) = true)
    by now rewrite forallb_rev.
  destruct (skip_spaces_ascii _ Hrr) as (pre2 & rrest & El2 & Hpre2 & E2 & Hrrest).
  rewrite E2.
  destruct rest as [|c t]; [left; destruct rrest; [reflexivity|]|].
  { destruct pre2; discriminate. }
  right.
  destruct rrest as [|d r'].
  - exfalso. rewrite app_nil_r in El2.
    assert (Hin : In c pre2).
    { rewrite <- El2. apply in_rev. rewrite rev_involutive. now left. }
    apply plain_not_space in Hrest.
    pose proof (proj1 (List.Forall_forall _ _) Hpre2 c Hin) as Hsp.
    cbv beta in Hsp. rewrite Hsp in Hrest. discriminate.
  - assert (Hrev : (c :: t) = (rev (d :: r') ++ rev pre2)%list).
    { rewrite <- rev_app_distr, <- El2. now rewrite rev_involutive. }
    unfold trimmed, strings.isASCII. rewrite bytes_of_bytes, rev_involutive.
    split.
    + destruct (rev (d :: r')) as [|x xs] eqn:Ex.
      * apply (f_equal (@length ascii)) in Ex. rewrite length_rev in Ex. discriminate.
      * cbn [app] in Hrev. injection Hrev as <- _. now rewrite Hrest, Hrrest.
    + rewrite Hrev in Hr. now apply forallb_app_l in Hr.
Qed.

Lemma trimmed_map (f : ascii -> ascii) s :
  (forall c, plain c = true -> plain (f c) = true) ->
  trimmed s = true -> trimmed (of_bytes (map f (bytes s))) = true.
Proof.
  intros Hf. unfold trimmed. rewrite bytes_of_bytes, <- map_rev.
  destruct (bytes s) as [|c t]; [discriminate|].
  destruct (rev (c :: t)) as [|d t']; [discriminate|].
  cbn [map]. intros H. apply andb_true_iff in H as [Hc Hd].
  now rewrite (Hf c Hc), (Hf d Hd).
Qed.

Lemma isASCII_name_bytes l :
  forallb (fun c => byte c <? utf8.RuneSelf) l = true ->
  forallb (fun c => byte c <? utf8.RuneSelf) (map name_byte l) = true.
Proof.
  induction l as [|c l IH]; [reflexivity|]. cbn [map forallb]. intros H.
  apply andb_true_iff in H as [Hc Hl]. now rewrite (name_byte_ascii c Hc), (IH Hl).
Qed.

Lemma trimmed_not_empty s : trimmed s = true -> s <> "".
Proof. intros H ->. discriminate. Qed.

Section StableName.

Context {P : Platform}.

Lemma projectNameOf_ascii s :
  strings.isASCII s = true -> trimmed s = true ->
  projectNameOf s = Some (of_bytes (map name_byte (bytes s))).
Proof.
  intros Ha Ht. unfold projectNameOf. rewrite (TrimSpace_trimmed s Ht).
  destruct (String.eqb_spec s "") as [E|_]; [now apply trimmed_not_empty in Ht|].
  f_equal. unfold strings.ToLower. rewrite Ha.
  change (strings.ReplaceAll ?x " " "-") with (strings.Replace_go " " "-" 0 x).
  rewrite Replace_go_dash, bytes_of_bytes, map_map. reflexivity.
Qed.

End StableName.


(** * Further properties of the code *)

Section FurtherProperties.

Context {P : Platform}.

(** X1.  [checkHomebrew] returns an error exactly when [brew] is not on
    the search path; its only system call is that lookup.  When [main]
    reaches it without [brew], the process exits with status 1 right
    there: nothing is installed and no process is started after the
    lookup. *)
Theorem homebrew_missing_stops :
  (forall w : World,
      exists w',
        checkHomebrew w
        = (Done (if on_path "brew" (machine w) then None
                 else Some (mkError "homebrew not installed" false)), w') /\
        trace w' = (trace w ++ [LookPath "brew"])%list /\
        machine w' = machine w) /\
  (forall (w_start : World) prov w0,
      prologue w_start = (Done prov, w0) ->
      on_path "brew" (machine w0) = false ->
      exists w1,
        main w_start = (Exited 1, w1) /\
        trace w1 = (trace w0 ++ [LookPath "brew"])%list /\
        machine w1 = machine w0 /\
        stdout w1
        = (stdout w0 ++ [error_line "Homebrew is not installed. Please install Homebrew first:";
                         "See https://docs.brew.sh/Installation for instructions." +:+ LF])%list).
Proof.
  split.
  - intros w. unfold checkHomebrew. io_run.
    destruct (on_path "brew" (machine w)); cbn [negb]; io_run;
      (eexists; split; [reflexivity|]; world_simpl; now split).
  - intros w_start prov w0 Hpro Hb. eexists. split.
    + apply (main_stops w_start prov w0 [] stepHomebrew (skipn 1 (fatal_steps prov))
               "" w0 _ Hpro eq_refl eq_refl).
      unfold stepHomebrew, checked, checkHomebrew. io_run. rewrite Hb. cbn [negb].
      io_run. cbn [is_nil]. reflexivity.
    + world_simpl. repeat split. now rewrite <- app_assoc.
Qed.

(** X2.  [installDocker] and [installColima] return [true] only when the
    tool was there already.  When it was not they run exactly one
    [brew install] and return [false], whether that command succeeds or
    fails. *)
Theorem install_attempt_reports_false (w : World) :
  (pr_err (fst (child (brew_list "docker") (machine w))) <> None ->
   exists w',
     installDocker w = (Done false, w') /\
     trace w' = (trace w ++ [Start (brew_list "docker");
                             Start (brew_install "docker")])%list)
  /\
  (on_path "colima" (machine w) = false ->
   exists w',
     installColima w = (Done false, w') /\
     trace w' = (trace w ++ [LookPath "colima"; Start (brew_install "colima")])%list)
  /\
  (forall w', installDocker w = (Done true, w') ->
              pr_err (fst (child (brew_list "docker") (machine w))) = None)
  /\
  (forall w', installColima w = (Done true, w') -> on_path "colima" (machine w) = true).
Proof.
  split; [|split; [|split]].
  - intros H. unfold installDocker. io_run. fold (brew_list "docker").
    destruct (pr_err (fst (child (brew_list "docker") (machine w)))) as [e|];
      [|contradiction].
    cbn [is_nil]. io_run. fold (brew_install "docker").
    match goal with |- context [negb (is_nil ?e)] => destruct (negb (is_nil e)) end;
      io_run; (eexists; split; [reflexivity|]; world_simpl; now rewrite <- app_assoc).
  - intros H. unfold installColima. io_run. rewrite H. io_run.
    fold (brew_install "colima").
    match goal with |- context [negb (is_nil ?e)] => destruct (negb (is_nil e)) end;
      io_run; (eexists; split; [reflexivity|]; world_simpl; now rewrite <- app_assoc).
  - intros w'. unfold installDocker. io_run. fold (brew_list "docker").
    destruct (pr_err (fst (child (brew_list "docker") (machine w)))) as [e|];
      [|reflexivity].
    cbn [is_nil]. io_run.
    match goal with |- context [negb (is_nil ?e)] => destruct (negb (is_nil e)) end;
      io_run; discriminate.
  - intros w'. unfold installColima. io_run.
    destruct (on_path "colima" (machine w)); [reflexivity|]. io_run.
    match goal with |- context [negb (is_nil ?e)] => destruct (negb (is_nil e)) end;
      io_run; discriminate.
Qed.

(** X3.  The Colima branch of [main], from the world [w1] in which the
    Homebrew check succeeded.  When [colima status] succeeds after
    [installColima], the run goes on with the DDEV install step.
    Otherwise [startColima] runs and [colima status] is asked again:
    the run goes on when it succeeds and exits with status 1 when it
    fails.  What [installColima] returned and whether [colima start]
    succeeded play no part.  [startColima] asks [colima status] itself
    and runs [colima start] only when that fails. *)
Theorem colima_branch_exit (w_start w0 w1 : World) (prov p : string) :
  prologue w_start = (Done prov, w0) ->
  String.eqb prov "docker" = false ->
  pipeline [stepHomebrew] "" w0 = (Done p, w1) ->
  let w2 := snd (installColima (say ("" +:+ LF) w1)) in
  let up := is_nil (pr_err (fst (child colima_status (machine w2)))) in
  let w3 := snd (checkColimaRunning w2) in
  let w4 := snd (startColima w3) in
  let up' := is_nil (pr_err (fst (child colima_status (machine w4)))) in
  let w5 := snd (checkColimaRunning w4) in
  (up = true ->
   main w_start = bind (pipeline (skipn 2 (fatal_steps prov)) p) epilogue w3) /\
  (up = false -> up' = true ->
   main w_start = bind (pipeline (skipn 2 (fatal_steps prov)) p) epilogue w5) /\
  (up = false -> up' = false ->
   main w_start
   = (Exited 1,
      say (error_line
             "Failed to start Colima. Please start it manually and run this script again.")
          w5)) /\
  trace w4
  = (trace w3 ++ Start colima_status ::
     (if is_nil (pr_err (fst (child colima_status (machine w3)))) then []
      else [Start colima_start]))%list.
Proof.
  intros Hpro Hprov Hpre w2 up w3 w4 up' w5.
  pose proof (ensureBackend_colima prov w1 Hprov) as Hb. cbv zeta in Hb.
  fold w2 in Hb. fold up in Hb. fold w3 in Hb. fold w4 in Hb. fold up' in Hb.
  fold w5 in Hb.
  assert (Hgo : forall wk,
             ensureBackend prov w1 = (Done true, wk) ->
             main w_start = bind (pipeline (skipn 2 (fatal_steps prov)) p) epilogue wk).
  { intros wk Hk. rewrite (main_from_prologue _ _ _ Hpro).
    unfold bind at 1.
    change (fatal_steps prov)
      with ([stepHomebrew] ++ stepBackend prov :: skipn 2 (fatal_steps prov))%list.
    rewrite (pipeline_goes_on _ _ _ _ _ _ Hpre).
    cbn [pipeline]. unfold stepBackend at 1.
    rewrite bind_bind. rewrite (bind_Done _ _ _ _ _ Hk). rewrite bind_ret.
    reflexivity. }
  split; [|split; [|split]].
  - intros Hu. rewrite Hu in Hb. now apply Hgo.
  - intros Hu Hu'. rewrite Hu, Hu' in Hb. now apply Hgo.
  - intros Hu Hu'. rewrite Hu, Hu' in Hb.
    apply (main_stops w_start prov w0 [stepHomebrew] (stepBackend prov)
             (skipn 2 (fatal_steps prov)) p w1 _ Hpro eq_refl Hpre).
    unfold stepBackend. now rewrite (bind_Done _ _ _ _ _ Hb).
  - unfold w4. rewrite startColima_spec. cbv zeta. cbn [snd].
    destruct (is_nil (pr_err (fst (child colima_status (machine w3)))));
      world_simpl; now rewrite <- ?app_assoc.
Qed.

(** X4.  With Docker Desktop chosen, [brew] and [ddev] on the search
    path, Homebrew listing [docker] and [docker info] succeeding (none of
    these checks changing the machine), [main] installs nothing: up to
    the scaffold step its system calls are the checks alone, the machine
    is as it was, and the run goes on with the scaffold step. *)
Theorem all_present_no_install (w : World) :
  let m := machine w in
  strings.TrimSpace (next_line w) <> "2" ->
  on_path "brew" m = true ->
  on_path "ddev" m = true ->
  pr_err (fst (child (brew_list "docker") m)) = None ->
  snd (child (brew_list "docker") m) = m ->
  pr_err (fst (child docker_info m)) = None ->
  snd (child docker_info m) = m ->
  exists w4,
    main w = bind (pipeline (skipn 3 (fatal_steps "docker")) "") epilogue w4 /\
    machine w4 = m /\
    trace w4 = (trace w ++ [LookPath "brew"; Start (brew_list "docker"); LookPath "ddev";
                            LookPath "brew";
                            Start (brew_list "docker"); Start docker_info;
                            LookPath "ddev"])%list.
Proof.
  intros m Hsel Hbrew Hddev Hl1 Hl2 Hi1 Hi2.
  assert (Hprov : String.eqb (strings.TrimSpace (next_line w)) "2" = false).
  { destruct (String.eqb_spec (strings.TrimSpace (next_line w)) "2");
      [contradiction|reflexivity]. }
  rewrite main_is_pipeline. unfold main_pipeline, prologue. io_run.
  match goal with
  | |- context [bind selectDockerProvider ?k ?w1] =>
    rewrite (bind_Done _ k w1 _ _ (selectDockerProvider_spec w1))
  end.
  io_run. rewrite Hprov.
  unfold checkPrerequisites. io_run. fold m. rewrite Hbrew. io_run.
  cbn [String.eqb Ascii.eqb Bool.eqb]. io_run. fold (brew_list "docker"). fold m.
  rewrite Hl1, Hl2. cbn [is_nil]. io_run. rewrite Hddev. io_run.
  change (fatal_steps "docker")
    with ([stepHomebrew; stepBackend "docker"; stepDDEV]
            ++ skipn 3 (fatal_steps "docker"))%list.
  match goal with
  | |- context [bind (pipeline (?pre ++ ?post) ?ctx) ?k ?w1] =>
    assert (Hpre : exists w4,
               pipeline pre ctx w1 = (Done "", w4) /\
               machine w4 = m /\
               trace w4 = (trace w ++ [LookPath "brew"; Start (brew_list "docker");
                                       LookPath "ddev"; LookPath "brew";
                                       Start (brew_list "docker"); Start docker_info;
                                       LookPath "ddev"])%list)
  end.
  { cbn [pipeline]. unfold stepHomebrew, checked, checkHomebrew. io_run.
    rewrite Hbrew. cbn [negb]. io_run. cbn [is_nil]. io_run.
    unfold stepBackend. io_run.
    match goal with
    | |- context [bind (ensureBackend "docker") ?k ?w1] =>
      rewrite (bind_Done _ k w1 _ _ (ensureBackend_docker w1))
    end.
    cbv zeta.
    match goal with
    | |- context [installDocker ?w1] =>
      rewrite (installDocker_present w1) by (world_simpl; fold m; exact Hl1)
    end.
    world_simpl. fold m. rewrite Hl2.
    rewrite checkDockerRunning_spec. world_simpl. rewrite Hi1, Hi2. cbn [is_nil].
    io_run. unfold stepDDEV. io_run.
    match goal with
    | |- context [bind installDDEV ?k ?w1] =>
      rewrite (bind_Done _ k w1 _ _ (installDDEV_present w1 Hddev))
    end.
    io_run. eexists. split; [reflexivity|]. world_simpl. split; [reflexivity|].
    now rewrite <- !app_assoc. }
  destruct Hpre as (w4 & Hpre & Hm & Ht).
  exists w4. split; [|now split].
  unfold bind at 1. now rewrite (pipeline_goes_on _ _ _ _ _ _ Hpre).
Qed.

(** X5.  The project path.  With the working directory a clean rooted
    path, a project name that is a plain path element gives the path of
    that element in the working directory.  The name is not checked for
    path elements: for the name [..] the project path is the parent of
    the working directory.  Whatever the name, below a rooted working
    directory the project path is a clean rooted path. *)
Theorem project_path_shape (w : World) (name : string) :
  projectNameOf (next_line w) = Some name ->
  forall r w',
    initDrupalProject w = (Done r, w') ->
    is_nil (snd r) = true ->
    (forall comps,
        Forall (fun x => is_normal x = true) comps ->
        cwd (machine w) = absolute comps ->
        is_normal name = true ->
        fst r = inside comps [name] /\
        (comps <> [] -> fst r = cwd (machine w) +:+ "/" +:+ name)) /\
    (forall comps d,
        Forall (fun x => is_normal x = true) (comps ++ [d]) ->
        cwd (machine w) = absolute (comps ++ [d]) ->
        name = ".." ->
        fst r = absolute comps) /\
    (forall rest,
        cwd (machine w) = String "/" rest ->
        exists comps,
          Forall (fun x => is_normal x = true) comps /\ fst r = absolute comps).
Proof.
  intros Hname r w' Hrun Hok.
  destruct (initDrupalProject_accepts w name Hname) as (r0 & w0 & E & Hr).
  rewrite Hrun in E. injection E as <- <-.
  destruct (Hr Hok) as [Hpath _]. rewrite Hpath.
  split; [|split].
  - intros comps Hc Hcwd Hn. rewrite Hcwd.
    assert (E : filepath.Join [absolute comps; name] = inside comps [name]).
    { apply Join_inside; [exact Hc|now repeat constructor|discriminate]. }
    split; [exact E|]. intros Hne. rewrite E. unfold inside.
    now rewrite absolute_app by (try discriminate; exact Hne).
  - intros comps d Hc Hcwd ->. rewrite Hcwd. now apply Join_parent.
  - intros rest Hcwd. rewrite Hcwd. apply Join_rooted.
Qed.

(** X6.  A directory name the installer derived from an ASCII line is
    stable: entered again as the project name it gives itself. *)
Theorem project_name_stable (line name : string) :
  strings.isASCII line = true ->
  projectNameOf line = Some name ->
  projectNameOf name = Some name /\
  trimmed name = true /\ strings.isASCII name = true.
Proof.
  intros Ha Hname.
  assert (Hn : trimmed (strings.TrimSpace line) = true /\
               strings.isASCII (strings.TrimSpace line) = true /\
               name = of_bytes (map name_byte (bytes (strings.TrimSpace line)))).
  { revert Hname. unfold projectNameOf.
    destruct (String.eqb_spec (strings.TrimSpace line) "") as [E|N]; [discriminate|].
    intros [= <-].
    destruct (TrimSpace_ascii line Ha) as [E|[Ht Hasc]]; [contradiction|].
    split; [exact Ht|]. split; [exact Hasc|].
    unfold strings.ToLower. rewrite Hasc.
    change (strings.ReplaceAll ?x " " "-") with (strings.Replace_go " " "-" 0 x).
    rewrite Replace_go_dash, bytes_of_bytes, map_map. reflexivity. }
  destruct Hn as (Ht & Hasc & ->).
  set (t := strings.TrimSpace line) in *.
  assert (Htn : trimmed (of_bytes (map name_byte (bytes t))) = true).
  { apply trimmed_map; [exact name_byte_plain|exact Ht]. }
  assert (Han : strings.isASCII (of_bytes (map name_byte (bytes t))) = true).
  { unfold strings.isASCII in *. rewrite bytes_of_bytes.
    now apply isASCII_name_bytes. }
  split; [|now split].
  rewrite (projectNameOf_ascii _ Han Htn). f_equal. f_equal.
  rewrite bytes_of_bytes, map_map. apply map_ext. intros c.
  unfold name_byte at 1. now rewrite name_byte_lower, name_byte_dash.
Qed.

(** X7.  The answers at the prompts are taken with white space around
    them, the line feed that ends the line included.  "2" between white
    space selects Colima; "y" or "Y" between white space starts the
    content generation; and a project name between white space gives
    the directory name of the name alone. *)
Theorem answers_between_blanks (w : World) (a b : string) :
  blank a -> blank b ->
  (next_line w = a +:+ "2" +:+ b ->
   exists w', selectDockerProvider w = (Done "colima", w')) /\
  (forall p,
      next_line w = a +:+ "y" +:+ b \/ next_line w = a +:+ "Y" +:+ b ->
      exists e w' rest,
        generateDrupalContent p w = (Done e, w') /\
        trace w' = (trace w ++ Start (in_dir p genu) :: rest)%list) /\
  (forall s, trimmed s = true -> projectNameOf (a +:+ s +:+ b) = projectNameOf s).
Proof.
  intros Ha Hb. split; [|split].
  - intros E. rewrite selectDockerProvider_spec, E.
    rewrite (TrimSpace_padded a "2" b Ha Hb eq_refl). now eexists.
  - intros p E. apply generateDrupalContent_runs.
    destruct E as [-> | ->].
    + rewrite (ToLower_padded lower a "y" b Ha Hb eq_refl).
      apply (TrimSpace_padded a "y" b Ha Hb eq_refl).
    + rewrite (ToLower_padded lower a "Y" b Ha Hb eq_refl).
      apply (TrimSpace_padded a "y" b Ha Hb eq_refl).
  - intros s Hs. unfold projectNameOf.
    now rewrite (TrimSpace_padded a s b Ha Hb Hs), (TrimSpace_trimmed s Hs).
Qed.

(** X8.  [initDDEVProject] skips [ddev config] whenever [os.Stat] of
    [.ddev] in the project gives no error: for anything found there, a
    regular file as well as a directory.  On any error of [os.Stat], not
    only "does not exist", it runs [ddev config] in the project
    directory and returns the error of that command. *)
Theorem ddev_init_gate (p : string) (w : World) :
  let ddevPath := filepath.Join [p; ".ddev"] in
  (stat (machine w) ddevPath = None ->
   exists w',
     initDDEVProject p w = (Done None, w') /\
     trace w' = (trace w ++ [Stat ddevPath])%list /\
     machine w' = machine w /\
     stdout w' = (stdout w ++ [info_line "Initializing DDEV project...";
                               warning_line ".ddev directory already exists. Skipping DDEV init."])%list)
  /\
  (forall n,
     files (machine w) !! ddevPath = Some n ->
     refused (Stat ddevPath) (machine w) = None ->
     stat (machine w) ddevPath = None)
  /\
  (stat (machine w) ddevPath <> None ->
   exists w',
     initDDEVProject p w
     = (Done (pr_err (fst (child (ddev_config p) (machine w)))), w') /\
     trace w' = (trace w ++ [Stat ddevPath; Start (ddev_config p)])%list /\
     machine w' = snd (child (ddev_config p) (machine w))).
Proof.
  intros ddevPath. split; [|split].
  - intros H. unfold initDDEVProject. io_run. fold ddevPath. rewrite H.
    cbn [is_nil]. io_run. eexists. split; [reflexivity|]. world_simpl.
    repeat split. now rewrite <- app_assoc.
  - intros n Hn Hr. unfold stat, fs.stat. now rewrite Hr, Hn.
  - intros H. unfold initDDEVProject. io_run. fold ddevPath.
    destruct (stat (machine w) ddevPath) as [e|]; [|contradiction].
    cbn [is_nil]. io_run. fold (ddev_config p).
    destruct (pr_err (fst (child (ddev_config p) (machine w)))) as [e'|]; io_run;
      (eexists; split; [reflexivity|]; world_simpl; split; [|reflexivity];
       now rewrite <- app_assoc).
Qed.

(** X9.  [installDrupalDependencies] runs the fifteen [ddev composer]
    commands in order, each in the project directory, and stops at the
    first that fails: the commands before it succeeded, its error is the
    error returned, and the line "Failed to install [...]" names it.
    It returns no error only when all fifteen commands ran and every
    one of them succeeded, the fifteenth included, and the success line
    is printed then. *)
Theorem dependencies_stop_at_first_failure (p : string) (w : World) :
  exists n r w',
    installDrupalDependencies p w = (Done r, w') /\
    (n <= 15)%nat /\
    trace w' = (trace w ++ map (fun pkg => Start (ddev_in p pkg)) (firstn n packages))%list /\
    machine w' = machine_after (map (ddev_in p) (firstn n packages)) (machine w) /\
    (forall i pkg,
        (i < match r with None => n | Some _ => n - 1 end)%nat ->
        nth_error packages i = Some pkg ->
        pr_err (fst (child (ddev_in p pkg)
                       (machine_after (map (ddev_in p) (firstn i packages)) (machine w))))
        = None) /\
    match r with
    | None =>
      n = 15%nat /\
      stdout w' = (stdout w ++ [info_line "Installing Drupal dependencies with Composer...";
                                success_line "✓ Drupal dependencies installed"])%list
    | Some e =>
      exists pkg,
        (0 < n)%nat /\ nth_error packages (n - 1) = Some pkg /\
        pr_err (fst (child (ddev_in p pkg)
                       (machine_after (map (ddev_in p) (firstn (n - 1) packages))
                                      (machine w))))
        = Some e /\
        stdout w' = (stdout w ++ [info_line "Installing Drupal dependencies with Composer...";
                                  error_line ("Failed to install ["
                                              +:+ strings.Join pkg " " +:+ "]")])%list
    end.
Proof.
  unfold installDrupalDependencies. io_run.
  set (w1 := say _ w).
  destruct (installPackages_runs p packages w1) as (n & r & w' & E & Hn & Ht & Hm & Hok & Hr).
  rewrite (bind_Done _ _ _ _ _ E).
  destruct r as [e|]; io_run.
  - exists n, (Some e), w'. split; [reflexivity|]. split; [exact Hn|].
    split; [exact Ht|]. split; [exact Hm|]. split; [exact Hok|].
    destruct Hr as (pkg & H1 & H2 & H3 & H4). exists pkg.
    repeat split; try assumption. rewrite H4. subst w1. world_simpl.
    now rewrite <- app_assoc.
  - eexists n, None, _. split; [reflexivity|]. world_simpl. split; [exact Hn|].
    split; [exact Ht|]. split; [exact Hm|]. split; [exact Hok|].
    destruct Hr as [H1 H2]. split; [exact H1|]. rewrite H2. subst w1. world_simpl.
    now rewrite <- app_assoc.
Qed.

(** X10.  What a successful run of [setupDrupalSettings] leaves in the
    file tree of a project at a clean rooted path: [config/sync] is a
    directory, the settings file that was there holds its old content
    with every old sync path replaced, the two configuration files hold
    the embedded payloads, and the rest of the machine is as before. *)
Theorem settings_tree_after (comps : list string) (w w' : World) :
  Forall (fun x => is_normal x = true) comps ->
  setupDrupalSettings (absolute comps) w = (Done None, w') ->
  files (machine w') !! inside comps ["config"; "sync"] = Some Dir /\
  (exists content,
      files (machine w) !! inside comps ["web"; "sites"; "default"; "settings.ddev.php"]
      = Some (File content) /\
      files (machine w') !! inside comps ["web"; "sites"; "default"; "settings.ddev.php"]
      = Some (File (strings.ReplaceAll content "sites/default/files/sync"
                                       "../config/sync"))) /\
  files (machine w') !! inside comps ["config"; "sync"; "environment_indicator.indicator.yml"]
  = Some (File configIndicatorYML) /\
  files (machine w') !! inside comps ["config"; "sync"; "environment_indicator.settings.yml"]
  = Some (File configSettingsYML) /\
  ext (machine w') = ext (machine w).
Proof.
  intros Hc Hrun.
  destruct (setup_success_tree comps w w' Hc Hrun) as (Hd & Hrest).
  split; [|exact Hrest]. apply Hd. apply in_or_app. right. now left.
Qed.

(** X11.  [setupDrupalSettings] touches nothing else: whatever its
    result, every path of the file tree other than [config/sync], its
    ancestors, the settings file and the two configuration files is as
    before, and so is the rest of the machine. *)
Theorem settings_touch_only (p : string) (w : World) (q : string) :
  let cfg := filepath.Join [p; "config"; "sync"] in
  let sp := filepath.Join [p; "web"; "sites"; "default"; "settings.ddev.php"] in
  let ip := filepath.Join [cfg; "environment_indicator.indicator.yml"] in
  let cp := filepath.Join [cfg; "environment_indicator.settings.yml"] in
  let w' := snd (setupDrupalSettings p w) in
  ~ In q (fs.ancestors cfg ++ [cfg; sp; ip; cp]) ->
  files (machine w') !! q = files (machine w) !! q /\
  ext (machine w') = ext (machine w).
Proof.
  intros cfg sp ip cp w' Hq.
  assert (Hdirs : ~ In q (fs.ancestors cfg ++ [cfg])).
  { intros H. apply Hq. apply in_app_or in H as [H|[<-|[]]]; apply in_or_app;
      [now left|right; now left]. }
  assert (Hsp : q <> sp).
  { intros ->. apply Hq. apply in_or_app. right. right. now left. }
  assert (Hip : q <> ip).
  { intros ->. apply Hq. apply in_or_app. right. do 2 right. now left. }
  assert (Hcp : q <> cp).
  { intros ->. apply Hq. apply in_or_app. right. do 3 right. now left. }
  destruct (setupDrupalSettings_cases p w) as (r & w2 & E & Hcases).
  subst w'. rewrite E. cbn [snd]. cbv zeta in Hcases.
  fold cfg sp ip cp in Hcases.
  destruct Hcases as [(_ & _ & Em)|[(_ & _ & _ & Em)|[(_ & _ & _ & _ & Em)|
                     [(_ & _ & _ & _ & _ & Em)|[(_ & _ & _ & _ & _ & _ & Em)|
                      (_ & _ & _ & _ & _ & _ & Em)]]]]];
    rewrite Em;
    rewrite ?write_file_frame, ?write_file_ext, ?mkdir_all_ext by assumption;
    (split; [now apply mkdir_all_frame|reflexivity]).
Qed.

(** X12.  [setupDrupalSettings] rolls nothing back: once [MkdirAll]
    succeeded the directory [config/sync] stays, and once the settings
    file was written it stays rewritten, whatever fails later. *)
Theorem settings_no_rollback (comps : list string) (w : World) :
  Forall (fun x => is_normal x = true) comps ->
  let cfg := inside comps ["config"; "sync"] in
  let sp := inside comps ["web"; "sites"; "default"; "settings.ddev.php"] in
  let mk := mkdir_all (machine w) cfg 493 in
  let rd := read_file (snd mk) sp in
  let data := strings.ReplaceAll (fst rd) "sites/default/files/sync" "../config/sync" in
  let w' := snd (setupDrupalSettings (absolute comps) w) in
  (fst mk = None -> files (machine w') !! cfg = Some Dir) /\
  (fst mk = None -> snd rd = None ->
   fst (write_file (snd mk) sp data 420) = None ->
   files (machine w') !! sp = Some (File data)).
Proof.
  intros Hc cfg sp mk rd data w'.
  destruct (setupDrupalSettings_cases (absolute comps) w) as (r & w2 & E & Hcases).
  subst w'. rewrite E. cbn [snd]. cbv zeta in Hcases.
  destruct (settings_paths comps Hc) as (Ecfg & Esp & Eip & Ecp). cbv zeta in *.
  rewrite Esp, Eip, Ecp, Ecfg in Hcases.
  fold cfg sp in Hcases. fold mk in Hcases. fold rd in Hcases. fold data in Hcases.
  set (ip := inside comps ["config"; "sync"; "environment_indicator.indicator.yml"]) in *.
  set (cp := inside comps ["config"; "sync"; "environment_indicator.settings.yml"]) in *.
  assert (Nsi : sp <> ip).
  { intros H. apply inside_inj in H; [discriminate|exact Hc|normal_list..|discriminate|discriminate]. }
  assert (Nsc : sp <> cp).
  { intros H. apply inside_inj in H; [discriminate|exact Hc|normal_list..|discriminate|discriminate]. }
  split.
  - intros Emk. pose proof (mkdir_all_dir (machine w) cfg 493 Emk) as Hd. fold mk in Hd.
    destruct Hcases as [(_ & _ & Em)|[(_ & _ & _ & Em)|[(_ & _ & _ & _ & Em)|
                       [(_ & _ & _ & _ & _ & Em)|[(_ & _ & _ & _ & _ & _ & Em)|
                        (_ & _ & _ & _ & _ & _ & Em)]]]]];
      rewrite Em; repeat apply write_file_keeps_dir; exact Hd.
  - intros Emk Erd Ew1.
    pose proof (write_file_written (snd mk) sp data 420 Ew1) as Hw.
    destruct Hcases as [(N & Er & _)|[(_ & N & Er & _)|[(_ & _ & N & Er & _)|
                       [(_ & _ & _ & _ & _ & Em)|[(_ & _ & _ & _ & _ & _ & Em)|
                        (_ & _ & _ & _ & _ & _ & Em)]]]]];
      try congruence;
      rewrite Em; rewrite ?write_file_frame by assumption; exact Hw.
Qed.


(** X14.  What [setupDrupalSettings] writes back never names the old sync
    directory: for every content read, the content written has no
    occurrence of "sites/default/files/sync" left, so rewriting it again
    changes nothing. *)
Theorem settings_rewrite_leaves_no_fragment (p : string) (w : World) (content : string) :
  let old := "sites/default/files/sync" in
  let new := "../config/sync" in
  let cfg := filepath.Join [p; "config"; "sync"] in
  let settingsPath :=
    filepath.Join [p; "web"; "sites"; "default"; "settings.ddev.php"] in
  fst (mkdir_all (machine w) cfg 493) = None ->
  read_file (snd (mkdir_all (machine w) cfg 493)) settingsPath = (content, None) ->
  exists r w' rest data,
    setupDrupalSettings p w = (Done r, w') /\
    trace w' = (trace w ++ MkdirAll cfg 493 :: ReadFile settingsPath ::
                WriteFile settingsPath data 420 :: rest)%list /\
    data = strings.ReplaceAll content old new /\
    ~ occurs old data /\
    strings.ReplaceAll data old new = data.
Proof.
  intros old new cfg settingsPath Hmk Hrd.
  destruct (setupDrupalSettings_writes p w content Hmk Hrd) as (r & w' & rest & E & Ht).
  exists r, w', rest, (strings.ReplaceAll content old new).
  split; [exact E|]. split; [exact Ht|]. split; [reflexivity|].
  split; [apply ReplaceAll_sync_gone|apply ReplaceAll_sync_idempotent].
Qed.

(** X15.  [importDrupalConfig] skips the import, returning no error, only
    when [os.Stat] of [config/sync] reports that the path does not
    exist.  On any other answer of [os.Stat], an error of another kind
    included, it runs [ddev drush config:import] in the project directory
    and returns the error of that command.  When the operating system
    refuses nothing, a path that is not in the file tree is reported as
    not existing exactly when none of its ancestors is a regular file:
    with a regular file at [config], [os.Stat] fails with "not a
    directory" and the import runs.  Right after a successful
    [setupDrupalSettings] the import is never skipped. *)
Theorem config_import_gate (p : string) (w : World) :
  let cfg := filepath.Join [p; "config"; "sync"] in
  (os_IsNotExist (stat (machine w) cfg) = true ->
   exists w',
     importDrupalConfig p w = (Done None, w') /\
     trace w' = (trace w ++ [Stat cfg])%list /\
     machine w' = machine w /\
     stdout w' = (stdout w ++ [info_line "Importing Drupal config...";
                               warning_line "Config directory not found at config/sync. Skipping config import."])%list)
  /\
  (os_IsNotExist (stat (machine w) cfg) = false ->
   exists w',
     importDrupalConfig p w
     = (Done (pr_err (fst (child (config_import p) (machine w)))), w') /\
     trace w' = (trace w ++ [Stat cfg; Start (config_import p)])%list)
  /\
  (files (machine w) !! cfg = None -> refused (Stat cfg) (machine w) = None ->
   os_IsNotExist (stat (machine w) cfg)
   = negb (existsb (fs.is_file (files (machine w))) (fs.ancestors cfg)))
  /\
  (forall d content,
      In d (fs.ancestors cfg) -> files (machine w) !! d = Some (File content) ->
      os_IsNotExist (stat (machine w) cfg) = false)
  /\
  (forall msg, refused (Stat cfg) (machine w) = Some msg ->
   os_IsNotExist (stat (machine w) cfg) = false)
  /\
  (forall w0, setupDrupalSettings p w0 = (Done None, w) ->
   os_IsNotExist (stat (machine w) cfg) = false).
Proof.
  intros cfg. split; [|split; [|split; [|split; [|split]]]].
  - intros H. unfold importDrupalConfig. io_run. fold cfg. rewrite H. io_run.
    eexists. split; [reflexivity|]. world_simpl. repeat split.
    now rewrite <- app_assoc.
  - intros H. unfold importDrupalConfig. io_run. fold cfg. rewrite H. io_run.
    fold (config_import p).
    destruct (pr_err (fst (child (config_import p) (machine w)))) as [e'|]; io_run;
      (eexists; split; [reflexivity|]; world_simpl; now rewrite <- app_assoc).
  - intros Hf Hr. unfold stat, fs.stat, fs.missing. rewrite Hr, Hf.
    now destruct (existsb _ _).
  - intros d content Hd Hfile. unfold stat.
    destruct (refused _ _); [reflexivity|]. unfold fs.stat, fs.missing.
    destruct (files (machine w) !! cfg); [reflexivity|].
    assert (Hb : existsb (fs.is_file (files (machine w))) (fs.ancestors cfg) = true).
    { apply existsb_exists. exists d. split; [exact Hd|].
      unfold fs.is_file. now rewrite Hfile. }
    now rewrite Hb.
  - intros msg Hr. unfold stat. now rewrite Hr.
  - intros w0 Hrun.
    destruct (setupDrupalSettings_cases p w0) as (r & w2 & E & Hcases).
    rewrite Hrun in E. injection E as <- <-. cbv zeta in Hcases. fold cfg in Hcases.
    destruct Hcases as [(N & _)|[(_ & N & _)|[(_ & _ & N & _)|[(_ & _ & _ & N & _)|
                       [(_ & _ & _ & _ & N & _)|(Emk & _ & _ & _ & _ & _ & Em)]]]]];
      try contradiction.
    apply stat_dir. rewrite Em. repeat apply write_file_keeps_dir.
    now apply mkdir_all_dir.
Qed.

(** X16.  After the answer "y", [generateDrupalContent] generates the
    users first and the content only when that succeeded; it returns
    the error of the first command that failed, without running the
    other. *)
Theorem content_generation_order (p : string) (w : World) :
  strings.TrimSpace (strings.ToLower lower (next_line w)) = "y" ->
  let r1 := child (in_dir p genu) (machine w) in
  let r2 := child (in_dir p genc) (snd r1) in
  exists w',
    generateDrupalContent p w
    = (Done (match pr_err (fst r1) with
             | Some e => Some e
             | None => pr_err (fst r2)
             end), w') /\
    trace w' = (trace w ++ Start (in_dir p genu) ::
                match pr_err (fst r1) with
                | Some _ => []
                | None => [Start (in_dir p genc)]
                end)%list /\
    machine w' = match pr_err (fst r1) with
                 | Some _ => snd r1
                 | None => snd r2
                 end /\
    last (stdout w')
    = Some (match pr_err (fst r1), pr_err (fst r2) with
            | Some _, _ => error_line "Failed to generate users"
            | None, Some _ => error_line "Failed to generate content"
            | None, None => success_line "✓ Drupal content generated"
            end).
Proof.
  intros H r1 r2. unfold generateDrupalContent. io_run. rewrite H.
  cbn [String.eqb Ascii.eqb Bool.eqb negb]. io_run. fold r1.
  destruct (pr_err (fst r1)) as [e|]; io_run.
  - eexists. split; [reflexivity|]. world_simpl. repeat split.
    apply last_snoc.
  - fold r2. destruct (pr_err (fst r2)) as [e|]; io_run;
      (eexists; split; [reflexivity|]; world_simpl;
       split; [now rewrite <- app_assoc|]; split; [reflexivity|apply last_snoc]).
Qed.

(** X17.  Below a rooted working directory, every run of [main] has one
    project directory, a clean rooted path: the scaffold command is asked
    to create it, every [ddev] command but [ddev version] runs in it,
    [brew], [docker] and [colima] run in the directory of the installer,
    no other program is started, and every file-system call (making
    directories, reading, writing, [os.Stat]) is on a path below the
    project directory. *)
Theorem project_confinement (w : World) :
  (forall m, exists rest, cwd m = String "/" rest) ->
  exists comps calls,
    Forall (fun x => is_normal x = true) comps /\
    trace (snd (main w)) = (trace w ++ calls)%list /\
    Forall (at_project comps) calls.
Proof.
  intros Hcwd. rewrite main_is_pipeline. unfold main_pipeline.
  destruct (prologue_returns w) as (prov & w0 & Epro).
  rewrite (bind_Done _ _ _ _ _ Epro).
  change (fatal_steps prov)
    with ([stepHomebrew; stepBackend prov; stepDDEV]
            ++ stepScaffold
            :: map checked [initDDEVProject; startDDEV; installDrupalDependencies;
                            setupDrupalSettings; installDrupalSite;
                            enableDrupalModules; importDrupalConfig])%list.
  set (pre := [stepHomebrew; stepBackend prov; stepDDEV]).
  set (post := map checked _).
  assert (Hpre : forall comps ctx, calls_only (at_project comps) (pipeline pre ctx)).
  { intros comps. apply pipeline_calls. subst pre. repeat constructor; intros p.
    - unfold stepHomebrew, checked.
      apply calls_only_bind; [apply checkHomebrew_calls|intros e; apply calls_only_ret].
    - unfold stepBackend.
      apply calls_only_bind; [apply ensureBackend_calls|intros b; apply calls_only_ret].
    - unfold stepDDEV.
      apply calls_only_bind; [apply installDDEV_calls|intros b; apply calls_only_ret]. }
  assert (Hhead : forall comps wk,
             snd (pipeline pre "" w0) = wk ->
             exists calls, trace wk = (trace w ++ calls)%list /\
                           Forall (at_project comps) calls).
  { intros comps wk Ewk.
    pose proof (prologue_calls comps w) as (c1 & E1 & H1). rewrite Epro in E1.
    cbn [snd] in E1.
    pose proof (Hpre comps "" w0) as (c2 & E2 & H2). rewrite Ewk in E2.
    exists (c1 ++ c2)%list. split; [now rewrite E2, E1, app_assoc|now apply Forall_app]. }
  destruct (pipeline pre "" w0) as [[q|c|msg] wk] eqn:Epre.
  - assert (Eq : bind (pipeline (pre ++ stepScaffold :: post) "")
                      (fun projectPath => epilogue projectPath) w0
                 = bind (pipeline (stepScaffold :: post) q) epilogue wk).
    { unfold bind. now rewrite (pipeline_goes_on _ _ _ _ _ _ Epre). }
    rewrite Eq. cbn [pipeline]. unfold stepScaffold at 1.
    destruct (checkDDEVVersion_returns wk) as ([] & wv & Ever).
    destruct (initDrupalProject_calls wv (Hcwd _)) as (comps & Hc & Hrun & Hpath).
    exists comps.
    destruct (Hhead comps wk eq_refl) as (c1 & E1 & H1).
    match goal with
    | |- context [snd (?m wk)] =>
      assert (Hrest : run_only (at_project comps) m wk)
    end.
    { unfold run_only. rewrite !bind_bind.
      apply (run_only_bind _ checkDDEVVersion);
        [apply checkDDEVVersion_calls|intros [] wv' Ever'].
      rewrite Ever in Ever'. injection Ever' as <-.
      unfold run_only. rewrite !bind_bind.
      apply (run_only_bind _ initDrupalProject); [exact Hrun|intros r w2 Er].
      unfold run_only. rewrite bind_ret.
      destruct (is_nil (snd r)) eqn:Hnil.
      - rewrite (Hpath r w2 Er Hnil). subst post.
        apply pipeline_checked_run; [|now apply epilogue_calls].
        repeat constructor.
        + now apply initDDEVProject_calls.
        + now apply startDDEV_calls.
        + now apply installDrupalDependencies_calls.
        + now apply setupDrupalSettings_calls.
        + now apply installDrupalSite_calls.
        + now apply enableDrupalModules_calls.
        + now apply importDrupalConfig_calls.
      - rewrite bind_Exit. now apply (run_only_same _ (@os_Exit _ unit 1)). }
    destruct Hrest as (c3 & E3 & H3).
    exists (c1 ++ c3)%list. split; [exact Hc|].
    split; [now rewrite E3, E1, app_assoc|now apply Forall_app].
  - exists []. destruct (Hhead [] wk eq_refl) as (c1 & E1 & H1).
    exists c1. unfold bind.
    rewrite (pipeline_ends _ _ _ _ _ _ Epre) by discriminate.
    cbn [snd]. split; [constructor|now split].
  - exists []. destruct (Hhead [] wk eq_refl) as (c1 & E1 & H1).
    exists c1. unfold bind.
    rewrite (pipeline_ends _ _ _ _ _ _ Epre) by discriminate.
    cbn [snd]. split; [constructor|now split].
Qed.

(** X18.  Each prompt reads through a reader of its own, which takes a
    whole read of the standard input and is dropped with what it holds
    beyond the first line.  So when all of the standard input arrives in
    one read (or there is none), the project-name prompt finds the input
    at its end: no run completes, [main] exits with status 1. *)
Theorem piped_answers_fail (w : World) :
  (length (stdin w) <= 1)%nat ->
  exists wf, main w = (Exited 1, wf).
Proof.
  intros Hone.
  destruct (prologue_returns w) as (prov & w0 & Epro).
  pose proof (prologue_stdin w prov w0 Epro) as Hin.
  rewrite (read_line_one _ Hone) in Hin.
  destruct (pipeline_result (fatal_steps prov) "" w0 (fatal_steps_return prov))
    as [(p & w1 & Hall)|(pre & s & post & p & wk & wf & Hsplit & Hpre & Hs & _)].
  - exfalso.
    change (fatal_steps prov)
      with ([stepHomebrew; stepBackend prov; stepDDEV]
              ++ stepScaffold :: skipn 4 (fatal_steps prov))%list in Hall.
    apply pipeline_done_split in Hall as (q & wk & Hpre & Hpost).
    assert (Hk : stdin wk = []).
    { rewrite <- Hin.
      pose proof (pipeline_keeps [stepHomebrew; stepBackend prov; stepDDEV]) as H.
      specialize (H ltac:(repeat constructor; intros x;
                          [unfold stepHomebrew, checked|unfold stepBackend|unfold stepDDEV];
                          (apply keeps_stdin_bind;
                           [first [apply checkHomebrew_keeps|apply ensureBackend_keeps
                                  |apply installDDEV_keeps]
                           |intros ?; apply keeps_stdin_ret])) "" w0).
      now rewrite Hpre in H. }
    revert Hpost. cbn [pipeline]. unfold stepScaffold. rewrite !bind_bind.
    destruct (checkDDEVVersion_returns wk) as ([] & wv & Ever).
    rewrite (bind_Done _ _ _ _ _ Ever).
    pose proof (checkDDEVVersion_keeps wk) as Hv. rewrite Ever, Hk in Hv.
    cbn [snd] in Hv.
    assert (Hname : projectNameOf (next_line wv) = None).
    { unfold next_line. rewrite Hv. reflexivity. }
    destruct (initDrupalProject_rejects wv Hname) as (e & w' & E & _).
    rewrite ?bind_bind. rewrite (bind_Done _ _ _ _ _ E). rewrite bind_ret.
    cbn [snd is_nil]. cbv beta iota. unfold os_Exit. discriminate.
  - exists wf. apply (main_stops w prov w0 pre s post p wk wf Epro Hsplit Hpre Hs).
Qed.

(** X19.  Every fatal exit is announced.  When [main] exits with status 1
    the last line printed is an [ERROR] line, with two exceptions: after
    the Homebrew check the [ERROR] line is followed by the pointer to the
    installation guide, and after a fresh, successful install of DDEV
    the last line is the success line "DDEV installed" and no [ERROR]
    line explains the exit. *)
Theorem fatal_exit_reported (w wf : World) (c : Z) :
  main w = (Exited c, wf) ->
  ends_in_error wf \/
  (exists out,
      stdout wf
      = (out ++ [error_line "Homebrew is not installed. Please install Homebrew first:";
                 "See https://docs.brew.sh/Installation for instructions." +:+ LF])%list) \/
  last (stdout wf) = Some (success_line "DDEV installed").
Proof.
  intros Hexit.
  destruct (prologue_returns w) as (prov & w0 & Epro).
  destruct (pipeline_result (fatal_steps prov) "" w0 (fatal_steps_return prov))
    as [(p & w1 & Hall)|(pre & s & post & p & wk & wf' & Hsplit & Hpre & Hs & _)].
  { destruct (main_completes w prov w0 p w1 Epro Hall) as [_ (w' & E)].
    rewrite E in Hexit. discriminate. }
  rewrite (main_stops w prov w0 pre s post p wk wf' Epro Hsplit Hpre Hs) in Hexit.
  injection Hexit as _ <-. clear Hpre.
  unfold fatal_steps in Hsplit.
  destruct pre as [|s1 pre]; injection Hsplit as <- Hsplit.
  { right. left. unfold stepHomebrew in Hs.
    apply checked_fails in Hs as [e Hs]. now apply (checkHomebrew_error wk wf' e). }
  destruct pre as [|s2 pre]; injection Hsplit as <- Hsplit.
  { left. unfold stepBackend, bind in Hs.
    destruct (ensureBackend prov wk) as [[[|]|c'|msg] w2] eqn:E; try discriminate.
    injection Hs as <-. now apply (ensureBackend_error prov wk). }
  destruct pre as [|s3 pre]; injection Hsplit as <- Hsplit.
  { unfold stepDDEV, bind in Hs.
    destruct (installDDEV wk) as [[[|]|c'|msg] w2] eqn:E; try discriminate.
    injection Hs as <-. destruct (installDDEV_false wk w2 E) as [H|H];
      [now left|right; now right]. }
  destruct pre as [|s4 pre]; injection Hsplit as <- Hsplit.
  { left. unfold stepScaffold in Hs. revert Hs.
    destruct (checkDDEVVersion_returns wk) as ([] & wv & Ever).
    rewrite (bind_Done _ _ _ _ _ Ever). unfold bind.
    destruct (initDrupalProject wv) as [[r|c'|msg] w2] eqn:E; try discriminate.
    unfold ret. destruct (is_nil (snd r)) eqn:Hr; [discriminate|].
    intros [= <-]. now apply (initDrupalProject_error wv w2 r). }
  destruct pre as [|s5 pre]; injection Hsplit as <- Hsplit.
  { left. apply checked_fails in Hs as [e Hs]. now apply (initDDEVProject_error p wk wf' e). }
  destruct pre as [|s6 pre]; injection Hsplit as <- Hsplit.
  { left. apply checked_fails in Hs as [e Hs]. now apply (startDDEV_error p wk wf' e). }
  destruct pre as [|s7 pre]; injection Hsplit as <- Hsplit.
  { left. apply checked_fails in Hs as [e Hs].
    now apply (installDrupalDependencies_error p wk wf' e). }
  destruct pre as [|s8 pre]; injection Hsplit as <- Hsplit.
  { left. apply checked_fails in Hs as [e Hs].
    now apply (setupDrupalSettings_error p wk wf' e). }
  destruct pre as [|s9 pre]; injection Hsplit as <- Hsplit.
  { left. apply checked_fails in Hs as [e Hs].
    now apply (installDrupalSite_error p wk wf' e). }
  destruct pre as [|s10 pre]; injection Hsplit as <- Hsplit.
  { left. apply checked_fails in Hs as [e Hs].
    now apply (enableDrupalModules_error p wk wf' e). }
  destruct pre as [|s11 pre]; injection Hsplit as <- Hsplit.
  { left. apply checked_fails in Hs as [e Hs].
    now apply (importDrupalConfig_error p wk wf' e). }
  destruct pre; discriminate.
Qed.

(** X20.  Status 0 means the work was done.  A run of [main] that
    returns has made, in this order: the [composer create-project] call
    for the project path, [ddev start] in it, the fifteen package
    commands, the directory [config/sync], the rewritten settings file
    and the two configuration files, the site install and the enabling
    of the modules. *)
Theorem completed_run_did_the_work (w w' : World) :
  main w = (Done tt, w') ->
  exists p data calls,
    trace w' = (trace w ++ calls)%list /\
    sublist (work_done p data) calls.
Proof.
  intros Hmain.
  destruct (prologue_returns w) as (prov & w0 & Epro).
  destruct (run_grows _ _ _ _ prologue_grows Epro) as (c0 & E0).
  rewrite (main_from_prologue _ _ _ Epro) in Hmain.
  apply bind_done_inv in Hmain as (p & wl & Hpipe & Hepi).
  destruct (run_grows _ _ _ _ (epilogue_grows p) Hepi) as (c12 & E12).
  unfold fatal_steps in Hpipe.
  apply pipeline_cons_done in Hpipe as (q1 & w1 & H1 & Hpipe).
  destruct (run_grows _ _ _ _ (stepHomebrew_grows "") H1) as (c1 & E1).
  apply pipeline_cons_done in Hpipe as (q2 & w2 & H2 & Hpipe).
  destruct (run_grows _ _ _ _ (stepBackend_grows prov q1) H2) as (c2 & E2).
  apply pipeline_cons_done in Hpipe as (q3 & w3 & H3 & Hpipe).
  destruct (run_grows _ _ _ _ (stepDDEV_grows q2) H3) as (c3 & E3).
  apply pipeline_cons_done in Hpipe as (q & w4 & H4 & Hpipe).
  apply stepScaffold_done in H4 as (c4 & E4).
  apply pipeline_cons_done in Hpipe as (q5 & w5 & H5 & Hpipe).
  apply checked_done in H5 as [H5 ->].
  destruct (run_grows _ _ _ _ (initDDEVProject_grows q) H5) as (c5 & E5).
  apply pipeline_cons_done in Hpipe as (q6 & w6 & H6 & Hpipe).
  apply checked_done in H6 as [H6 ->]. apply startDDEV_done in H6.
  apply pipeline_cons_done in Hpipe as (q7 & w7 & H7 & Hpipe).
  apply checked_done in H7 as [H7 ->]. apply installDrupalDependencies_done in H7.
  apply pipeline_cons_done in Hpipe as (q8 & w8 & H8 & Hpipe).
  apply checked_done in H8 as [H8 ->].
  apply setupDrupalSettings_done in H8 as (data & H8).
  apply pipeline_cons_done in Hpipe as (q9 & w9 & H9 & Hpipe).
  apply checked_done in H9 as [H9 ->]. apply installDrupalSite_done in H9.
  apply pipeline_cons_done in Hpipe as (q10 & w10 & H10 & Hpipe).
  apply checked_done in H10 as [H10 ->]. apply enableDrupalModules_done in H10.
  apply pipeline_cons_done in Hpipe as (q11 & w11 & H11 & Hpipe).
  apply checked_done in H11 as [H11 ->].
  destruct (run_grows _ _ _ _ (importDrupalConfig_grows q) H11) as (c11 & E11).
  cbn [pipeline] in Hpipe. injection Hpipe as <- <-.
  exists q, data. eexists. split.
  - rewrite E12, E11, H10, H9, H8, H7, H6, E5, E4, E3, E2, E1, E0.
    rewrite <- !app_assoc. reflexivity.
  - unfold work_done. cbv zeta.
    do 5 apply sublist_inserts_l.
    apply (sublist_skip (Start (composer_create q))).
    apply sublist_inserts_l.
    apply (sublist_skip (Start (ddev_start q))).
    apply sublist_app; [reflexivity|].
    cbn [app].
    apply sublist_skip. apply sublist_cons. do 3 apply sublist_skip.
    apply sublist_cons. do 2 apply sublist_skip.
    apply sublist_nil_l.
Qed.

End FurtherProperties.


(** * The further properties on examples *)

#[local] Existing Instance Demo.platform.

(** X1 on a machine without Homebrew: status 1. *)
Lemma homebrew_missing_stops_witness :
  exists w1, main (Demo.world Cases.no_brew [Demo.line "1"]) = (Exited 1, w1).
Proof.
  assert (Hpro : prologue (Demo.world Cases.no_brew [Demo.line "1"])
                 = (Done "docker", snd (prologue (Demo.world Cases.no_brew [Demo.line "1"]))))
    by (vm_compute; reflexivity).
  destruct (proj2 (@homebrew_missing_stops Demo.platform) _ _ _ Hpro eq_refl)
    as (w1 & E & _).
  now exists w1.
Defined.

(** X2 on a machine without Colima: one [brew install], and [false]. *)
Lemma install_attempt_reports_false_witness :
  exists w',
    installColima (Demo.world Cases.no_colima []) = (Done false, w') /\
    trace w' = [LookPath "colima"; Start (brew_install "colima")].
Proof.
  apply (proj1 (proj2 (@install_attempt_reports_false Demo.platform
                         (Demo.world Cases.no_colima [])))).
  reflexivity.
Defined.

(** X3 on a machine where Colima is installed and not running: [colima start] brings it up and the run goes on. *)
Lemma colima_branch_exit_witness :
  let w_start := Demo.world Demo.ready [Demo.line "2"] in
  let w0 := snd (prologue w_start) in
  let w1 := snd (pipeline [stepHomebrew] "" w0) in
  let w3 := snd (checkColimaRunning (snd (installColima (say ("" +:+ LF) w1)))) in
  let w5 := snd (checkColimaRunning (snd (startColima w3))) in
  main w_start = bind (pipeline (skipn 2 (fatal_steps "colima")) "") epilogue w5.
Proof.
  intros w_start w0 w1 w3 w5.
  assert (Hpro : prologue w_start = (Done "colima", w0)) by (vm_compute; reflexivity).
  assert (Hpre : pipeline [stepHomebrew] "" w0 = (Done "", w1))
    by (vm_compute; reflexivity).
  assert (Hdown : is_nil (pr_err (fst (child colima_status
                    (machine (snd (installColima (say ("" +:+ LF) w1))))))) = false)
    by (vm_compute; reflexivity).
  assert (Hup : is_nil (pr_err (fst (child colima_status
                  (machine (snd (startColima w3)))))) = true)
    by (vm_compute; reflexivity).
  exact (proj1 (proj2 (@colima_branch_exit Demo.platform w_start w0 w1 "colima" ""
                         Hpro eq_refl Hpre)) Hdown Hup).
Defined.

(** X4 on the machine that has everything. *)
Lemma all_present_no_install_witness :
  exists w4,
    main (Demo.world Demo.ready Cases.typed)
    = bind (pipeline (skipn 3 (fatal_steps "docker")) "") epilogue w4 /\
    machine w4 = mkMachine ∅ Demo.ready /\
    trace w4 = [LookPath "brew"; Start (brew_list "docker"); LookPath "ddev";
                LookPath "brew"; Start (brew_list "docker"); Start docker_info;
                LookPath "ddev"].
Proof.
  apply (@all_present_no_install Demo.platform (Demo.world Demo.ready Cases.typed));
    first [ reflexivity | vm_compute; discriminate ].
Defined.

(** X5 on the name "My Site" in [/Users/dev]. *)
Lemma project_path_shape_witness :
  exists r w',
    initDrupalProject (Demo.world Demo.ready [Demo.line "My Site"]) = (Done r, w') /\
    fst r = "/Users/dev" +:+ "/" +:+ "my-site".
Proof.
  assert (Hrun : initDrupalProject (Demo.world Demo.ready [Demo.line "My Site"])
                 = (Done ("/Users/dev/my-site", None),
                    snd (initDrupalProject (Demo.world Demo.ready [Demo.line "My Site"]))))
    by (vm_compute; reflexivity).
  assert (Hname : projectNameOf (next_line (Demo.world Demo.ready [Demo.line "My Site"]))
                  = Some "my-site") by (vm_compute; reflexivity).
  assert (Hc : Forall (fun x => is_normal x = true) ["Users"; "dev"])
    by (repeat constructor).
  eexists _, _. split; [exact Hrun|].
  apply (proj1 (@project_path_shape Demo.platform _ "my-site" Hname _ _ Hrun eq_refl)
           ["Users"; "dev"] Hc eq_refl eq_refl).
  discriminate.
Defined.

(** X6 on the name derived from "  My Site  ". *)
Lemma project_name_stable_witness :
  @projectNameOf Demo.platform "my-site" = Some "my-site".
Proof.
  exact (proj1 (@project_name_stable Demo.platform "  My Site  " "my-site"
                  eq_refl eq_refl)).
Defined.

(** X7 on the answer "2" followed by a line feed. *)
Lemma answers_between_blanks_witness :
  exists w', selectDockerProvider (Demo.world Demo.ready [Demo.line "2"])
             = (Done "colima", w').
Proof.
  assert (Ha : blank "") by constructor.
  assert (Hb : blank LF) by (repeat constructor).
  apply (proj1 (@answers_between_blanks Demo.platform
                  (Demo.world Demo.ready [Demo.line "2"]) "" LF Ha Hb)).
  vm_compute. reflexivity.
Defined.

(** X8 with a regular file at [/p/.ddev]: the init is skipped. *)
Lemma ddev_init_gate_witness :
  exists w',
    initDDEVProject "/p" Cases.ddev_file = (Done None, w') /\
    trace w' = [Stat "/p/.ddev"] /\
    machine w' = machine Cases.ddev_file /\
    stdout w' = [info_line "Initializing DDEV project...";
                 warning_line ".ddev directory already exists. Skipping DDEV init."].
Proof.
  apply (proj1 (@ddev_init_gate Demo.platform "/p" Cases.ddev_file)).
  apply (proj1 (proj2 (@ddev_init_gate Demo.platform "/p" Cases.ddev_file)) (File ""));
    reflexivity.
Defined.

(** X9 when [drupal/token] cannot be installed, and when only the last package cannot: an error is returned. *)
Lemma dependencies_stop_at_first_failure_witness :
  (exists n,
      (n <= 15)%nat /\
      trace (snd (installDrupalDependencies "/p" (Demo.world Cases.token_fails [])))
      = map (fun pkg => Start (ddev_in "/p" pkg)) (firstn n packages)) /\
  fst (installDrupalDependencies "/p" (Demo.world Cases.cron_fails [])) <> Done None.
Proof.
  split.
  - destruct (@dependencies_stop_at_first_failure Demo.platform "/p"
                (Demo.world Cases.token_fails []))
      as (n & r & w' & E & Hn & Ht & _).
    exists n. split; [exact Hn|]. rewrite E. exact Ht.
  - destruct (@dependencies_stop_at_first_failure Demo.platform "/p"
                (Demo.world Cases.cron_fails []))
      as (n & r & w' & E & _ & _ & _ & Hok & Hr).
    rewrite E. cbn [fst]. destruct r as [e|]; [discriminate|].
    destruct Hr as [-> _].
    specialize (Hok 14%nat _ (le_n 15) eq_refl). vm_compute in Hok. discriminate Hok.
Defined.

(** X10 on the settings file DDEV generates: the indicator file is there. *)
Lemma settings_tree_after_witness :
  files (machine (snd (setupDrupalSettings "/p" (Demo.site Demo.settings_php))))
    !! "/p/config/sync/environment_indicator.indicator.yml"
  = Some (File "indicator: yml").
Proof.
  assert (Hrun : setupDrupalSettings (absolute ["p"]) (Demo.site Demo.settings_php)
                 = (Done None, snd (setupDrupalSettings "/p" (Demo.site Demo.settings_php))))
    by (vm_compute; reflexivity).
  assert (Hp : Forall (fun x => is_normal x = true) ["p"]) by (repeat constructor).
  exact (proj1 (proj2 (proj2 (@settings_tree_after Demo.platform ["p"] _ _ Hp Hrun)))).
Defined.

(** X11 on the settings file DDEV generates: its directory is as before. *)
Lemma settings_touch_only_witness :
  files (machine (snd (setupDrupalSettings "/p" (Demo.site Demo.settings_php))))
    !! "/p/web/sites/default"
  = Some Dir.
Proof.
  assert (Hq : ~ In "/p/web/sites/default"
                 (fs.ancestors (filepath.Join ["/p"; "config"; "sync"])
                  ++ [filepath.Join ["/p"; "config"; "sync"];
                      filepath.Join ["/p"; "web"; "sites"; "default"; "settings.ddev.php"];
                      filepath.Join [filepath.Join ["/p"; "config"; "sync"];
                                     "environment_indicator.indicator.yml"];
                      filepath.Join [filepath.Join ["/p"; "config"; "sync"];
                                     "environment_indicator.settings.yml"]])%list).
  { vm_compute. intros H.
    repeat (destruct H as [H|H]; [discriminate H|]). exact H. }
  rewrite (proj1 (@settings_touch_only Demo.platform "/p" (Demo.site Demo.settings_php)
                    "/p/web/sites/default" Hq)).
  vm_compute. reflexivity.
Defined.

(** X12 on a project without settings file: the step fails and [config/sync] stays. *)
Lemma settings_no_rollback_witness :
  fst (setupDrupalSettings "/p" (Demo.world Demo.ready [])) <> Done None /\
  files (machine (snd (setupDrupalSettings "/p" (Demo.world Demo.ready []))))
    !! "/p/config/sync"
  = Some Dir.
Proof.
  split; [vm_compute; discriminate|].
  assert (Hp : Forall (fun x => is_normal x = true) ["p"]) by (repeat constructor).
  apply (proj1 (@settings_no_rollback Demo.platform ["p"] (Demo.world Demo.ready []) Hp)).
  vm_compute. reflexivity.
Defined.


(** X14 on a settings file that names the sync directory twice. *)
Lemma settings_rewrite_leaves_no_fragment_witness :
  exists r w' rest data,
    setupDrupalSettings "/p" (Demo.site Demo.two_syncs) = (Done r, w') /\
    trace w' = (MkdirAll "/p/config/sync" 493
                :: ReadFile "/p/web/sites/default/settings.ddev.php"
                :: WriteFile "/p/web/sites/default/settings.ddev.php" data 420 :: rest) /\
    data = "$a = '../config/sync'; $b = '../config/sync';" /\
    ~ occurs "sites/default/files/sync" data /\
    strings.ReplaceAll data "sites/default/files/sync" "../config/sync" = data.
Proof.
  apply (@settings_rewrite_leaves_no_fragment Demo.platform "/p"
           (Demo.site Demo.two_syncs) Demo.two_syncs);
    vm_compute; reflexivity.
Defined.

(** X15 on an empty file tree, where the import is skipped, and with a regular file at [/p/config], where it runs. *)
Lemma config_import_gate_witness :
  (exists w',
      importDrupalConfig "/p" (Demo.world Demo.ready []) = (Done None, w') /\
      trace w' = [Stat "/p/config/sync"] /\
      machine w' = mkMachine ∅ Demo.ready /\
      stdout w' = [info_line "Importing Drupal config...";
                   warning_line "Config directory not found at config/sync. Skipping config import."]) /\
  trace (snd (importDrupalConfig "/p" Cases.config_file))
  = [Stat "/p/config/sync"; Start (config_import "/p")].
Proof.
  split.
  - apply (proj1 (@config_import_gate Demo.platform "/p" (Demo.world Demo.ready []))).
    reflexivity.
  - assert (Hrun : os_IsNotExist (stat (machine Cases.config_file) "/p/config/sync")
                   = false).
    { apply (proj1 (proj2 (proj2 (proj2 (@config_import_gate Demo.platform "/p"
                                            Cases.config_file))))
               "/p/config" "").
      - right. now left.
      - reflexivity. }
    destruct (proj1 (proj2 (@config_import_gate Demo.platform "/p" Cases.config_file))
                Hrun) as (w' & E & Ht).
    rewrite E. exact Ht.
Defined.

(** X16 when the first generation command fails. *)
Lemma content_generation_order_witness :
  exists w',
    generateDrupalContent "/p" (Demo.world Demo.generation_fails [Demo.line "y"])
    = (Done Demo.failed, w') /\
    trace w' = [Start (in_dir "/p" genu)].
Proof.
  assert (Hy : strings.TrimSpace
                 (strings.ToLower (@lower Demo.platform)
                    (next_line (Demo.world Demo.generation_fails [Demo.line "y"]))) = "y")
    by (vm_compute; reflexivity).
  destruct (@content_generation_order Demo.platform "/p" _ Hy) as (w' & E & Ht & _).
  exists w'. split; [exact E|exact Ht].
Defined.

(** X17 on a full run. *)
Lemma project_confinement_witness :
  exists comps calls,
    Forall (fun x => is_normal x = true) comps /\
    trace (snd (main (Demo.world Demo.ready Cases.typed))) = calls /\
    Forall (at_project comps) calls.
Proof.
  apply (@project_confinement Demo.platform (Demo.world Demo.ready Cases.typed)).
  intros m. now exists "Users/dev".
Defined.

(** X18 on the three answers arriving in one read. *)
Lemma piped_answers_fail_witness :
  exists wf, main (Demo.world Demo.ready Cases.piped) = (Exited 1, wf).
Proof.
  apply (@piped_answers_fail Demo.platform (Demo.world Demo.ready Cases.piped)).
  cbn. lia.
Defined.

(** X19 on a machine without DDEV: the run ends after the install. *)
Lemma fatal_exit_reported_witness :
  let wf := snd (main (Demo.world Demo.no_ddev [Demo.line "1"])) in
  ends_in_error wf \/
  (exists out,
      stdout wf
      = (out ++ [error_line "Homebrew is not installed. Please install Homebrew first:";
                 "See https://docs.brew.sh/Installation for instructions." +:+ LF])%list) \/
  last (stdout wf) = Some (success_line "DDEV installed").
Proof.
  intros wf.
  assert (Hexit : main (Demo.world Demo.no_ddev [Demo.line "1"]) = (Exited 1, wf))
    by (vm_compute; reflexivity).
  exact (@fatal_exit_reported Demo.platform _ _ _ Hexit).
Defined.

(** X20 on a full run. *)
Lemma completed_run_did_the_work_witness :
  exists p data calls,
    trace (snd (main (Demo.world Demo.ready Cases.typed))) = calls /\
    sublist (work_done p data) calls.
Proof.
  assert (Hmain : main (Demo.world Demo.ready Cases.typed)
                  = (Done tt, snd (main (Demo.world Demo.ready Cases.typed))))
    by (vm_compute; reflexivity).
  exact (@completed_run_did_the_work Demo.platform _ _ Hmain).
Defined.
